(** * Europeana full-text aggregation: CMDI record construction

    A shallow embedding of [common.py] (normalisation utilities) and
    [aggregation_cmdi_creation.py] (record and collection builders),
    followed by the properties established about them.

    Conventions of the embedding:
    - a Python [str] is a [string]; its characters are the 8-bit ones, for
      which the regular-expression class [\d] is exactly [0-9] and string
      comparison is comparison of character codes;
    - the [re] module is embedded as a small backtracking matcher over the
      constructs the patterns of [common.py] use;
    - an insertion-ordered [dict] is an association list; the year-to-file
      dictionary, which is only iterated through [sorted], is a [gmap];
    - an lxml element is a first-order tree, a node reference is the list of
      child indices leading to it, and in-place mutation is a functional
      update at such a reference;
    - logging and exceptions are threaded through a writer/error monad;
    - lxml checks every string it is given as the text of an element or as
      the value of an attribute, and raises [ValueError] for one with a
      control character; the builders make this check wherever the string
      comes from an argument, from the configuration or from the manifests.
      Literals of the module, the results of [xml_id], the texts of parsed
      documents, the names of the language table, the name of the script
      and the date pass the check, and are assigned as they are. The
      namespaces of the element names are constants of [common], which lxml
      accepts. *)

From Stdlib Require Import Ascii String DecimalString Decimal DecimalNat.
From stdpp Require Import base list strings gmap sorting.

(** ** Characters and strings *)

Definition chars (s : string) : list ascii := list_ascii_of_string s.
Definition str (l : list ascii) : string := string_of_list_ascii l.

Definition code (c : ascii) : nat := nat_of_ascii c.

Definition in_range (lo hi c : ascii) : bool :=
  ((code lo <=? code c) && (code c <=? code hi))%nat.

Definition newline : ascii := "010"%char.

(** [str(n)] for a non-negative integer. *)
Definition str_of_nat (n : nat) : string :=
  NilEmpty.string_of_uint (Nat.to_uint n).

(** ** The fragment of [re] used by [common.py] *)

Module re.

(** Patterns: the empty pattern, a literal character, a character set
    (also [\d] and [.]), concatenation, the greedy star of a character
    set, capturing group 1, and the anchors [^] and [$]. *)
Inductive regex : Type :=
| Eps
| Lit (c : ascii)
| Set_ (p : ascii → bool)
| Cat (r1 r2 : regex)
| StarSet (p : ascii → bool)
| Group (r : regex)
| Bol
| Eol.

(** [\d], [.], [[^...]], [x+], [x{n}] and a literal word. *)
Definition digit (c : ascii) : bool := in_range "0"%char "9"%char c.
Definition dot (c : ascii) : bool := negb (Ascii.eqb c newline).
Definition neg (p : ascii → bool) (c : ascii) : bool := negb (p c).
Definition PlusSet (p : ascii → bool) : regex := Cat (Set_ p) (StarSet p).

Fixpoint Rep (n : nat) (r : regex) : regex :=
  match n with
  | 0 => Eps
  | S n' => Cat r (Rep n' r)
  end.

Fixpoint Word (w : list ascii) (r : regex) : regex :=
  match w with
  | [] => r
  | c :: w' => Cat (Lit c) (Word w' r)
  end.

(** Matcher state: the current position and the text of group 1. *)
Record mstate : Type := MState { pos : nat; grp : option (list ascii) }.

(** Match object: span of the whole match and the text of group 1. *)
Record mobj : Type := MObj { m_start : nat; m_end : nat; group1 : option (list ascii) }.

(** Greedy star of a set: take one more character when possible and
    fall back to stopping here when the rest of the pattern fails. *)
Fixpoint star_set {A} (p : ascii → bool) (k : nat → list ascii → option A)
    (i : nat) (s : list ascii) : option A :=
  match s with
  | c :: s' =>
      if p c then
        match star_set p k (S i) s' with
        | Some a => Some a
        | None => k i s
        end
      else k i s
  | [] => k i s
  end.

(** Backtracking match of [r] at the head of [s], in continuation-passing
    style: [k] is the rest of the pattern. *)
Fixpoint rmatch {A} (r : regex) (st : mstate) (s : list ascii)
    (k : mstate → list ascii → option A) : option A :=
  match r with
  | Eps => k st s
  | Lit c =>
      match s with
      | c' :: s' => if Ascii.eqb c' c then k (MState (S (pos st)) (grp st)) s' else None
      | [] => None
      end
  | Set_ p =>
      match s with
      | c' :: s' => if p c' then k (MState (S (pos st)) (grp st)) s' else None
      | [] => None
      end
  | Cat r1 r2 => rmatch r1 st s (λ st' s', rmatch r2 st' s' k)
  | StarSet p => star_set p (λ i s', k (MState i (grp st)) s') (pos st) s
  | Group r1 =>
      rmatch r1 st s
        (λ st' s', k (MState (pos st') (Some (take (pos st' - pos st) s))) s')
  | Bol => if (pos st =? 0)%nat then k st s else None
  | Eol =>
      (* end of the string, or just before a newline that ends the string *)
      match s with
      | [] => k st s
      | [c] => if Ascii.eqb c newline then k st s else None
      | _ => None
      end
  end.

Definition finish (start : nat) (st : mstate) (_ : list ascii) : option mobj :=
  Some (MObj start (pos st) (grp st)).

Definition match_at (r : regex) (i : nat) (s : list ascii) : option mobj :=
  rmatch r (MState i None) s (finish i).

(** [re.match]: a match starting at position 0 only. *)
Definition match_ (r : regex) (s : string) : option mobj :=
  match_at r 0 (chars s).

(** [re.search]: the match at the leftmost position that has one. *)
Fixpoint search_from (r : regex) (i : nat) (s : list ascii) : option mobj :=
  match match_at r i s with
  | Some m => Some m
  | None =>
      match s with
      | [] => None
      | _ :: s' => search_from r (S i) s'
      end
  end.

Definition search (r : regex) (s : string) : option mobj :=
  search_from r 0 (chars s).

(** [re.sub(pattern, repl, s)] for a pattern that is one character set:
    every character of the set is replaced, the others are kept. *)
Definition sub_set (p : ascii → bool) (repl : string) (s : string) : string :=
  str (chars s ≫= λ c, if p c then chars repl else [c]).

End re.

(** ** common.py *)

(** [[A-z_]]: the code range from "A" to "z", and the underscore. *)
Definition set_A_z_us (c : ascii) : bool := in_range "A"%char "z"%char c || Ascii.eqb c "_"%char.

(** [[A-z0-9_]]. *)
Definition set_A_z_09_us (c : ascii) : bool :=
  in_range "A"%char "z"%char c || in_range "0"%char "9"%char c || Ascii.eqb c "_"%char.

(** [r"http.*[^\d](\d+)$"] *)
Definition identifier_pattern : re.regex :=
  re.Word (chars "http")
    (re.Cat (re.StarSet re.dot)
       (re.Cat (re.Set_ (re.neg re.digit))
          (re.Cat (re.Group (re.PlusSet re.digit)) re.Eol))).

(** [r"^[A-z_]"] *)
Definition id_start_pattern : re.regex := re.Cat re.Bol (re.Set_ set_A_z_us).

(** [r"(\d{4})-\d{2}-\d{2}"] *)
Definition year_pattern : re.regex :=
  re.Cat (re.Group (re.Rep 4 (re.Set_ re.digit)))
    (re.Cat (re.Lit "-"%char)
       (re.Cat (re.Rep 2 (re.Set_ re.digit))
          (re.Cat (re.Lit "-"%char) (re.Rep 2 (re.Set_ re.digit))))).

(** [r"(^\d{4})-\d{2}-\d{2}$"] *)
Definition date_pattern : re.regex :=
  re.Cat (re.Group (re.Cat re.Bol (re.Rep 4 (re.Set_ re.digit))))
    (re.Cat (re.Lit "-"%char)
       (re.Cat (re.Rep 2 (re.Set_ re.digit))
          (re.Cat (re.Lit "-"%char)
             (re.Cat (re.Rep 2 (re.Set_ re.digit)) re.Eol)))).

(** The text [match.group(1)] of a match object whose group took part. *)
Definition group_text (m : re.mobj) : string := str (default [] (re.group1 m)).

(** The value [normalize_identifier] returns; its log lines are produced by
    [normalize_identifier_logged] below. *)
Definition normalize_identifier (identifier : string) : string :=
  match re.search identifier_pattern identifier with
  | Some m => group_text m
  | None => identifier
  end.

Definition xml_id (identifier : string) : string :=
  let new_id :=
    match re.match_ id_start_pattern identifier with
    | Some _ => identifier
    | None => "_" +:+ identifier
    end in
  re.sub_set (re.neg set_A_z_09_us) "_" new_id.

Definition date_to_year (date : string) : option string :=
  match re.search year_pattern date with
  | Some m => Some (group_text m)
  | None => None
  end.

Definition is_valid_date (date : string) : bool :=
  match re.match_ date_pattern date with
  | Some _ => true
  | None => false
  end.

(** ** Python dictionaries, in insertion order *)

Module dict.

Definition t (V : Type) : Type := list (string * V).

Definition keys {V} (d : t V) : list string := d.*1.

(** [d.get(k, None)] *)
Fixpoint get {V} (k : string) (d : t V) : option V :=
  match d with
  | [] => None
  | (k', v) :: d' => if decide (k' = k) then Some v else get k d'
  end.

(** [d[k] = v]: an existing key keeps its place, a new key goes last. *)
Fixpoint set {V} (k : string) (v : V) (d : t V) : t V :=
  match d with
  | [] => [(k, v)]
  | (k', v') :: d' => if decide (k' = k) then (k, v) :: d' else (k', v') :: set k v d'
  end.

(** [list(dict.fromkeys(l))]: first occurrences, in order. *)
Fixpoint fromkeys (seen l : list string) : list string :=
  match l with
  | [] => []
  | x :: l' => if decide (x ∈ seen) then fromkeys seen l' else x :: fromkeys (x :: seen) l'
  end.

End dict.

(** ** Logging and exceptions *)

Inductive level : Type := DEBUG | WARNING | ERROR.

Definition log_record : Type := level * string.

Inductive exn : Type :=
| IndexError (subscript : string)
| KeyError (subscript : string)
| OSError (path : string)
| ValueError.

Inductive outcome (A : Type) : Type :=
| Return (a : A)
| Raise (e : exn).
Arguments Return {A} a.
Arguments Raise {A} e.

(** A computation yields the log lines it wrote and its outcome. *)
Definition M (A : Type) : Type := list log_record * outcome A.

Definition ret {A} (a : A) : M A := ([], Return a).

Definition bind {A B} (m : M A) (f : A → M B) : M B :=
  match m with
  | (l, Return a) => let '(l', o) := f a in (l ++ l', o)
  | (l, Raise e) => (l, Raise e)
  end.

Definition raise {A} (e : exn) : M A := ([], Raise e).

Definition log (lv : level) (msg : string) : M unit := ([(lv, msg)], Return tt).

Declare Scope py_scope.
Delimit Scope py_scope with py.
Notation "x <- m ;; k" := (bind m (λ x, k))
  (at level 100, m at next level, right associativity) : py_scope.
Notation "m ;; k" := (bind m (λ _, k))
  (at level 100, right associativity) : py_scope.
Local Open Scope py_scope.

(** [for x in l: acc = body(acc, x)] *)
Fixpoint for_ {A S} (l : list A) (body : S → A → M S) (acc : S) : M S :=
  match l with
  | [] => ret acc
  | x :: l' => acc' <- body acc x ;; for_ l' body acc'
  end.

Definition logs {A} (m : M A) : list log_record := m.1.
Definition result {A} (m : M A) : outcome A := m.2.

(** ** lxml elements *)

Module etree.

(** A qualified name [{ns}local]. *)
Record qname : Type := QName { ns : string; local : string }.

Global Instance qname_eq_dec : EqDecision qname.
Proof. solve_decision. Defined.

#[warnings="-register-all"]
Inductive element : Type :=
| Element (tag : qname) (attrib : dict.t string) (text : option string)
    (children : list element).

Definition tag (e : element) : qname := let 'Element t _ _ _ := e in t.
Definition attrib (e : element) : dict.t string := let 'Element _ a _ _ := e in a.
Definition text (e : element) : option string := let 'Element _ _ x _ := e in x.
Definition children (e : element) : list element := let 'Element _ _ _ c := e in c.

(** [e.text = v] *)
Definition set_text (v : string) (e : element) : element :=
  Element (tag e) (attrib e) (Some v) (children e).

Definition set_children (c : list element) (e : element) : element :=
  Element (tag e) (attrib e) (text e) c.

(** [etree.SubElement(parent, ...)] once the new child is complete, and
    [parent.insert(len(parent), child)]. *)
Definition append (child : element) (parent : element) : element :=
  set_children (children parent ++ [child]) parent.

(** A node reference: the child indices from the root. *)
Definition ref : Type := list nat.

Fixpoint get (p : ref) (e : element) : option element :=
  match p with
  | [] => Some e
  | i :: p' => match children e !! i with Some c => get p' c | None => None end
  end.

(** Mutation of the node at [p]. *)
Fixpoint update (p : ref) (f : element → element) (e : element) : element :=
  match p with
  | [] => f e
  | i :: p' => set_children (alter (update p' f) i (children e)) e
  end.

(** The nodes reached from [e] by the child steps [steps], in document
    order. *)
Fixpoint select (steps : list qname) (e : element) : list ref :=
  match steps with
  | [] => [[]]
  | t :: steps' =>
      mjoin (imap (λ i c, if decide (tag c = t) then cons i <$> select steps' c else [])
               (children e))
  end.

(** [tree.xpath('/a/b/c')] for an absolute path of child steps. *)
Definition xpath (doc : element) (path : list qname) : list ref :=
  match path with
  | [] => []
  | t :: steps => if decide (tag doc = t) then select steps doc else []
  end.

(** The node a reference obtained from [xpath] designates. *)
Definition node (doc : element) (p : ref) : element := default doc (get p doc).

End etree.

Import etree.

(** What lxml accepts as the text of an element or as the value of an
    attribute: a string without control characters other than tab, line
    feed and carriage return. *)
Definition xml_char (c : ascii) : bool :=
  in_range (ascii_of_nat 9) (ascii_of_nat 10) c || Ascii.eqb c (ascii_of_nat 13)
  || (32 <=? code c)%nat.

Definition xml_compatible (s : string) : bool := forallb xml_char (chars s).

(** The check of [node.text = s] and of [node.attrib[k] = s]. *)
Definition checked (s : string) : M string :=
  if xml_compatible s then ret s else raise ValueError.

(** ** aggregation_cmdi_creation.py *)

Definition CMD_NS : string := "http://www.clarin.eu/cmd/1".

Definition LANDING_PAGE_ID : string := "landing_page".
Definition EDM_DUMP_PROXY_ID : string := "archive_edm".
Definition ALTO_DUMP_PROXY_ID : string := "archive_alto".
Definition DUMP_MEDIA_TYPE : string := "application/zip".

(** A labeled reference is the tuple [(ref, label)]. *)
Definition labeled_ref : Type := string * string.

(** A value of the records map: [{'file': ..., 'manifest_urls': [...]}],
    either key possibly missing. *)
Record record_entry : Type := RecordEntry {
  file : option string;
  manifest_urls : option (list string)
}.

(** An entry of the [iso639] language table. *)
Record language : Type := Language { name : string; part3 : string }.

(** What [etree.parse] does with a file: it returns the document, raises
    [etree.Error] on a document it cannot parse, or raises [OSError] on a
    file it cannot read. *)
Inductive parse_outcome : Type :=
| Parsed (doc : element)
| Rejected
| Unreadable.

(** What the module takes from outside: the constants of [env] and of the
    version of [common] it imports, the clock, the script name, and the
    collaborators (manifest retrieval, XML parsing, XPath evaluation over
    the EDM documents, the language table). A failed lookup in the language
    table is [None] (the library raises [KeyError]). What [xpath_values]
    returns are texts and attribute values of parsed documents. *)
Record env : Type := Env {
  COLLECTION_DISPLAY_NAME : string;
  LANDING_PAGE_URL : string;
  CMDI_RECORDS_BASE_URL : string;
  CMDP_NS_RECORD : string;
  CMDP_NS_COLLECTION_RECORD : string;
  script_basename : string;
  today_string : string;
  retrieve_annotation_refs : string → list (option labeled_ref);
  etree_parse : string → parse_outcome;
  xpath_values : element → string → list string;
  languages_alpha2 : string → option language;
  languages_part3 : string → option language
}.

Definition dquote : string := String (ascii_of_nat 34) "".
Definition squote : string := String (ascii_of_nat 39) "".

Definition cmd (l : string) : qname := QName CMD_NS l.
Definition plain (l : string) : qname := QName "" l.

(** An element without attributes, and one that only carries text. *)
Definition elem (t : qname) (c : list element) : element := Element t [] None c.
Definition leaf (t : qname) (v : string) : element := Element t [] (Some v) [].

Definition make_edm_dump_ref (collection_id : string) : string :=
  "ftp://download.europeana.eu/newspapers/fulltext/edm_issue/" +:+ collection_id +:+ ".zip".

Definition make_alto_dump_ref (collection_id : string) : string :=
  "ftp://download.europeana.eu/newspapers/fulltext/alto/" +:+ collection_id +:+ ".zip".

Definition make_ref_xml_id (record_id : string) (index : nat) : string :=
  xml_id (record_id +:+ "_anno" +:+ str_of_nat index).

Definition get_all_xpath_values (E : env) (docs : list element) (path : string) : list string :=
  docs ≫= λ doc, xpath_values E doc path.

Definition get_unique_xpath_values (E : env) (docs : list element) (path : string) : list string :=
  dict.fromkeys [] (get_all_xpath_values E docs path).

Definition normalize_identifier_logged (identifier : string) : M string :=
  match re.search identifier_pattern identifier with
  | Some m =>
      log DEBUG ("Normalised identifier: " +:+ identifier +:+ " -> " +:+ group_text m) ;;
      ret (normalize_identifier identifier)
  | None =>
      log WARNING ("Identifier " +:+ identifier +:+ " does not match pattern, skipping normalisation!") ;;
      ret (normalize_identifier identifier)
  end.

Definition insert_resource_proxy (parent : element) (proxy_id resource_type ref : string)
    (media_type : option string) : M element :=
  proxy_id <- checked proxy_id ;;
  resource_type <- checked resource_type ;;
  ref <- checked ref ;;
  media_type <-
    match media_type with
    | Some m => m <- checked m ;; ret (Some m)
    | None => ret None
    end ;;
  let resource_type_node :=
    Element (cmd "ResourceType")
      (match media_type with Some m => [("mimetype", m)] | None => [] end)
      (Some resource_type) [] in
  let resource_ref_node := leaf (cmd "ResourceRef") ref in
  ret (append
         (Element (cmd "ResourceProxy") [("id", proxy_id)] None
            [resource_type_node; resource_ref_node])
         parent).

Section record_builder.
Context (E : env).

Definition cmdp (l : string) : qname := QName (CMDP_NS_RECORD E) l.
Definition cmdp_c (l : string) : qname := QName (CMDP_NS_COLLECTION_RECORD E) l.

Definition retrieve_iiif_annotation_refs (records : dict.t record_entry)
    : M (dict.t (list labeled_ref)) :=
  for_ records
    (λ labeled_refs '(identifier, entry),
       match manifest_urls entry with
       | None =>
           log WARNING ("No manifest URLs specified for record " +:+ identifier) ;;
           ret labeled_refs
       | Some urls =>
           let refs := retrieve_annotation_refs E <$> urls in
           let url_labeled_refs := omap id (mjoin refs) in
           if (0 <? length url_labeled_refs)%nat
           then ret (dict.set identifier url_labeled_refs labeled_refs)
           else ret labeled_refs
       end)
    [].

Definition load_emd_records (records_map : dict.t record_entry) (metadata_dir : string)
    : M (list element) :=
  for_ records_map
    (λ edm_records '(identifier, entry),
       match file entry with
       | None =>
           log ERROR ("No file name in records map for " +:+ identifier) ;;
           ret edm_records
       | Some file_name =>
           let file_path := metadata_dir +:+ "/" +:+ file_name in
           log DEBUG ("Loading metadata file " +:+ file_path) ;;
           match etree_parse E file_path with
           | Parsed doc => ret (edm_records ++ [doc])
           | Rejected => log ERROR "Error processing XML document" ;; ret edm_records
           | Unreadable => raise (OSError file_path)
           end
       end)
    [].

Definition header_path (field : string) : list qname :=
  [cmd "CMD"; cmd "Header"; cmd field].

Definition set_metadata_headers (doc : element) (collection_id record_file_name : string)
    : M element :=
  let creator_header := xpath doc (header_path "MdCreator") in
  let doc :=
    match creator_header with
    | p :: _ => update p (set_text (script_basename E)) doc
    | [] => doc
    end in
  let creation_date_header := xpath doc (header_path "MdCreationDate") in
  let doc :=
    match creation_date_header with
    | p :: _ => update p (set_text (today_string E)) doc
    | [] => doc
    end in
  let selflink_header := xpath doc (header_path "MdSelfLink") in
  doc <-
    match creation_date_header with
    | _ :: _ =>
        match selflink_header with
        | p :: _ =>
            link <- checked (CMDI_RECORDS_BASE_URL E +:+ "/" +:+ collection_id
                             +:+ "/" +:+ record_file_name) ;;
            ret (update p (set_text link) doc)
        | [] => raise (IndexError "selflink_header[0]")
        end
    | [] => ret doc
    end ;;
  let collection_name_header := xpath doc (header_path "MdCollectionDisplayName") in
  match collection_name_header with
  | p :: _ =>
      name <- checked (COLLECTION_DISPLAY_NAME E) ;;
      ret (update p (set_text name) doc)
  | [] => ret doc
  end.

(** The three proxies every document starts with. *)
Definition insert_fixed_proxies (resource_proxies_list : element) (collection_id : string)
    : M element :=
  l <- insert_resource_proxy resource_proxies_list LANDING_PAGE_ID "LandingPage"
         (LANDING_PAGE_URL E) None ;;
  l <- insert_resource_proxy l EDM_DUMP_PROXY_ID "Resource"
         (make_edm_dump_ref collection_id) (Some DUMP_MEDIA_TYPE) ;;
  insert_resource_proxy l ALTO_DUMP_PROXY_ID "Resource"
    (make_alto_dump_ref collection_id) (Some DUMP_MEDIA_TYPE).

(** The inner loop of [insert_resource_proxies]: [index] counts the
    references of one record seen so far. *)
Fixpoint insert_record_proxies (l : element) (record_id : string) (index : nat)
    (record_refs : list labeled_ref) : M element :=
  match record_refs with
  | [] => ret l
  | l_ref :: rest =>
      let index := S index in
      let ref := l_ref.1 in
      l <- insert_resource_proxy l (make_ref_xml_id record_id index) "Resource" ref None ;;
      insert_record_proxies l record_id index rest
  end.

Definition insert_resource_proxies (resource_proxies_list : element) (collection_id : string)
    (labeled_refs : dict.t (list labeled_ref)) : M element :=
  l <- insert_fixed_proxies resource_proxies_list collection_id ;;
  for_ labeled_refs
    (λ l '(record_id, record_refs), insert_record_proxies l record_id 0 record_refs)
    l.

(** *** Component content of a record *)

Definition insert_title_and_description (parent : element) (title year : string)
    : M element :=
  title_text <- checked (title +:+ " - " +:+ year) ;;
  let parent := append (elem (cmdp "TitleInfo") [leaf (cmdp "title") title_text]) parent in
  description_text <-
    checked ("Full text content aggregated from Europeana. Title: " +:+ dquote +:+ title
             +:+ dquote +:+ ". Year: " +:+ year +:+ ".") ;;
  let parent :=
    append (elem (cmdp "Description") [leaf (cmdp "description") description_text]) parent in
  ret (append (elem (cmdp "ResourceType") [leaf (cmdp "label") "Text"]) parent).

Definition insert_keywords (parent : element) (edm_records : list element)
    (namespace : string) : element :=
  let keywords := get_unique_xpath_values E edm_records "/rdf:RDF/ore:Proxy/dc:type/text()" in
  foldl
    (λ parent keyword,
       append (elem (QName namespace "Keyword") [leaf (QName namespace "label") keyword]) parent)
    parent keywords.

Definition insert_publisher (parent : element) (edm_records : list element)
    (namespace : string) : element :=
  let publishers :=
    get_unique_xpath_values E edm_records
      ("/rdf:RDF/ore:Aggregation/edm:dataProvider/text()"
       +:+ "|/rdf:RDF/ore:Aggregation/edm:provider/text()") in
  foldl
    (λ parent publisher,
       append (elem (QName namespace "Publisher") [leaf (QName namespace "name") publisher]) parent)
    parent publishers.

Definition create_language_component (parent : element) (language_code namespace : string)
    : M element :=
  (* [Some None] is the [KeyError] of a failed lookup *)
  let lookup2 : option (option language) :=
    if (String.length language_code =? 2)%nat
    then Some (languages_alpha2 E language_code) else None in
  let lookup3 : option (option language) :=
    if (String.length language_code =? 3)%nat
    then Some (languages_part3 E language_code) else None in
  let warning :=
    log WARNING ("Language name lookup failed: no code " +:+ squote +:+ language_code
                 +:+ squote +:+ " in dictionary") in
  language <-
    match lookup2 with
    | Some None => warning ;; ret None
    | Some (Some l) => ret (Some l)
    | None =>
        match lookup3 with
        | Some None => warning ;; ret None
        | Some (Some l) => ret (Some l)
        | None => ret None
        end
    end ;;
  ret match language with
      | None =>
          append (elem (QName namespace "Language") [leaf (QName namespace "name") language_code])
            parent
      | Some l =>
          append
            (elem (QName namespace "Language")
               [leaf (QName namespace "name") (name l); leaf (QName namespace "code") (part3 l)])
            parent
      end.

Definition insert_languages (parent : element) (edm_records : list element)
    (namespace : string) : M element :=
  let language_codes :=
    get_unique_xpath_values E edm_records "/rdf:RDF/ore:Proxy/dc:language/text()" in
  for_ language_codes
    (λ parent language_code, create_language_component parent language_code namespace)
    parent.

Definition insert_temporal_coverage (parent : element) (year : string) : M element :=
  label <- checked year ;;
  start_year <- checked year ;;
  end_year <- checked year ;;
  ret (append
         (elem (cmdp "TemporalCoverage")
            [leaf (cmdp "label") label;
             elem (cmdp "Start") [leaf (cmdp "year") start_year];
             elem (cmdp "End") [leaf (cmdp "year") end_year]])
         parent).

Definition insert_countries (parent : element) (edm_record : list element)
    (namespace : string) : element :=
  let countries :=
    get_unique_xpath_values E edm_record
      "/rdf:RDF/edm:EuropeanaAggregation/edm:country/text()" in
  foldl
    (λ parent country,
       append
         (elem (QName namespace "GeoLocation")
            [leaf (QName namespace "label") country;
             elem (QName namespace "Country") [leaf (QName namespace "label") country]])
         parent)
    parent countries.

Definition insert_licences (parent : element) (edm_records : list element)
    (namespace : string) : element :=
  let rights_urls :=
    get_unique_xpath_values E edm_records
      "/rdf:RDF/ore:Aggregation/edm:rights/@rdf:resource" in
  if (0 <? length rights_urls)%nat then
    append
      (elem (QName namespace "AccessInfo")
         ((λ rights_url,
             elem (QName namespace "Licence")
               [leaf (QName namespace "identifier") rights_url;
                leaf (QName namespace "label") rights_url;
                leaf (QName namespace "url") rights_url]) <$> rights_urls))
      parent
  else parent.

Definition cmd_ref_attribute : string := "{" +:+ CMD_NS +:+ "}ref".

Definition insert_dump_subresource_info (parent : element) (namespace : string) : element :=
  foldl
    (λ parent (dump : string * string),
       append
         (Element (QName namespace "Subresource") [(cmd_ref_attribute, dump.1)] None
            [elem (QName namespace "SubresourceDescription")
               [leaf (QName namespace "label") dump.2]])
         parent)
    parent
    [(EDM_DUMP_PROXY_ID,
      "Archive containing full text content in EDM format which includes this title");
     (ALTO_DUMP_PROXY_ID,
      "Archive containing full text content in ALTO format which includes this title")].

Definition insert_annotation_subresource_info (parent record : element)
    (identifier normalized_id : string) (labeled_ref : labeled_ref) (index : nat)
    (namespace : string) : M element :=
  let titles := get_unique_xpath_values E [record] "/rdf:RDF/ore:Proxy/dc:title/text()" in
  let issued := get_unique_xpath_values E [record] "/rdf:RDF/ore:Proxy/dcterms:issued/text()" in
  labels <-
    for_ titles
      (λ labels title,
         label <- checked (title +:+ " - " +:+ labeled_ref.2) ;;
         ret (labels ++ [leaf (QName namespace "label") label]))
      [] ;;
  ret (append
         (Element (QName namespace "Subresource")
            [(cmd_ref_attribute, make_ref_xml_id normalized_id index)] None
            [elem (QName namespace "SubresourceDescription")
               (labels
                ++ ((λ issued_date,
                       elem (QName namespace "TemporalCoverage")
                         [leaf (QName namespace "label") issued_date])
                      <$> filter (λ d, is_valid_date d = true) issued))])
         parent).

(** The innermost loop of [insert_subresource_info]. *)
Fixpoint insert_annotation_subresources (parent record : element)
    (identifier normalized_id : string) (index : nat) (labeled_refs : list labeled_ref)
    (namespace : string) : M element :=
  match labeled_refs with
  | [] => ret parent
  | labeled_ref :: rest =>
      let index := S index in
      parent <- insert_annotation_subresource_info parent record identifier normalized_id
                  labeled_ref index namespace ;;
      insert_annotation_subresources parent record identifier normalized_id index rest
        namespace
  end.

Definition insert_subresource_info (components_root : element) (edm_records : list element)
    (labeled_refs_dict : dict.t (list labeled_ref)) (namespace : string) : M element :=
  let components_root := insert_dump_subresource_info components_root namespace in
  for_ edm_records
    (λ components_root record,
       let identifiers :=
         get_unique_xpath_values E [record] "/rdf:RDF/ore:Proxy/dc:identifier/text()" in
       for_ identifiers
         (λ components_root identifier,
            normalized_id <- normalize_identifier_logged identifier ;;
            match dict.get normalized_id labeled_refs_dict with
            | Some labeled_refs =>
                insert_annotation_subresources components_root record identifier
                  normalized_id 0 labeled_refs namespace
            | None => ret components_root
            end)
         components_root)
    components_root.

Definition insert_related_resources (parent : element) (edm_records : list element)
    (namespace : string) : element :=
  foldl
    (λ parent record,
       let landing_pages :=
         xpath_values E record
           "/rdf:RDF/edm:EuropeanaAggregation/edm:landingPage/@rdf:resource" in
       let titles := xpath_values E record "/rdf:RDF/ore:Proxy/dc:title/text()" in
       if (0 <? length titles)%nat then
         foldl
           (λ parent landing_page,
              append
                (elem (QName namespace "RelatedResource")
                   (((λ title,
                        leaf (QName namespace "label")
                          ("Landing page for " +:+ squote +:+ title +:+ squote)) <$> titles)
                    ++ [leaf (QName namespace "location") landing_page]))
                parent)
           parent landing_pages
       else parent)
    parent edm_records.

(** The parsed literal of [insert_metadata_info]; white space between the
    elements is left out. *)
Definition metadata_info : element :=
  elem (plain "MetadataInfo")
    [elem (plain "Publisher")
       [leaf (plain "name") "CLARIN ERIC";
        elem (plain "ContactInfo") [leaf (plain "url") "https://www.clarin.eu"]];
     elem (plain "ProvenanceInfo")
       [elem (plain "Creation")
          [elem (plain "ActivityInfo")
             [leaf (plain "method")
                "Creation and aggregation by The European Library/Europeana";
              leaf (plain "note") "EDM metadata";
              elem (plain "When") [leaf (plain "label") "Unspecified"]];
           elem (plain "ActivityInfo")
             [leaf (plain "method") "Conversion";
              leaf (plain "note") "Converted from EDM to CMDI";
              elem (plain "When") [leaf (plain "date") (today_string E)]]];
        elem (plain "Collection")
          [elem (plain "ActivityInfo")
             [leaf (plain "method") "Aggregation";
              leaf (plain "note")
                ("Metadata and full text retrieved from Europeana servers."
                 +:+ String newline "                  "
                 +:+ "See https://pro.europeana.eu/page/iiif#download");
              elem (plain "When")
                [leaf (plain "label") "2021"; leaf (plain "year") "2021"]]]]].

Definition insert_metadata_info (parent : element) : element :=
  append metadata_info parent.

Definition insert_component_content (components_root : element) (title year : string)
    (edm_records : list element) (labeled_refs : dict.t (list labeled_ref)) : M element :=
  r <- insert_title_and_description components_root title year ;;
  let r := insert_keywords r edm_records (CMDP_NS_RECORD E) in
  let r := insert_publisher r edm_records (CMDP_NS_RECORD E) in
  r <- insert_languages r edm_records (CMDP_NS_RECORD E) ;;
  r <- insert_temporal_coverage r year ;;
  let r := insert_countries r edm_records (CMDP_NS_RECORD E) in
  let r := insert_licences r edm_records (CMDP_NS_RECORD E) in
  r <- insert_subresource_info r edm_records labeled_refs (CMDP_NS_RECORD E) ;;
  let r := insert_related_resources r edm_records (CMDP_NS_RECORD E) in
  ret (insert_metadata_info r).

Definition proxy_list_path : list qname :=
  [cmd "CMD"; cmd "Resources"; cmd "ResourceProxyList"].

Definition record_components_path : list qname :=
  [cmd "CMD"; cmd "Components"; cmdp "TextResource"].

Definition make_cmdi_record (record_file_name : string) (template : element)
    (collection_id title year : string) (records : dict.t record_entry)
    (metadata_dir : string) : M (option element) :=
  let cmdi_file := template in
  labeled_refs <- retrieve_iiif_annotation_refs records ;;
  if (length labeled_refs =? 0)%nat then
    log WARNING ("Skipping creation of record for " +:+ squote +:+ title +:+ " - " +:+ year
                 +:+ squote +:+ ": no full text resources to refer to") ;;
    ret None
  else
    cmdi_file <- set_metadata_headers cmdi_file collection_id record_file_name ;;
    let resource_proxies_list := xpath cmdi_file proxy_list_path in
    match resource_proxies_list with
    | [p] =>
        l <- insert_resource_proxies (node cmdi_file p) collection_id labeled_refs ;;
        let cmdi_file := update p (λ _, l) cmdi_file in
        let components_root := xpath cmdi_file record_components_path in
        match components_root with
        | [q] =>
            edm_records <- load_emd_records records metadata_dir ;;
            root <- insert_component_content (node cmdi_file q) title year edm_records
                      labeled_refs ;;
            ret (Some (update q (λ _, root) cmdi_file))
        | _ =>
            log ERROR "Expecting exactly one components root element" ;;
            ret None
        end
    | _ =>
        log ERROR "Expecting exactly one components root element" ;;
        ret None
    end.

End record_builder.

(** *** Collection records *)

(** [sorted(year_files)]: the keys in ascending string order. *)
Definition sorted (year_files : gmap string string) : list string :=
  merge_sort String.le (map_to_list year_files).*1.

(** [l[0]] and [l[-1]] *)
Definition first_item (subscript : string) (l : list string) : M string :=
  match l !! 0 with
  | Some x => ret x
  | None => raise (IndexError subscript)
  end.

Definition last_item (subscript : string) (l : list string) : M string :=
  match last l with
  | Some x => ret x
  | None => raise (IndexError subscript)
  end.

(** [d[k]] *)
Definition item (year_files : gmap string string) (k : string) : M string :=
  match year_files !! k with
  | Some v => ret v
  | None => raise (KeyError k)
  end.

Section collection_builder.
Context (E : env).

Definition collection_insert_resource_proxies (resource_proxies_list : element)
    (year_files : gmap string string) (collection_id : string) : M element :=
  l <- insert_fixed_proxies E resource_proxies_list collection_id ;;
  for_ (sorted year_files)
    (λ l year,
       file_name <- item year_files year ;;
       let ref := CMDI_RECORDS_BASE_URL E +:+ "/" +:+ collection_id +:+ "/" +:+ file_name in
       insert_resource_proxy l (xml_id year) "Metadata" ref None)
    l.

Definition collection_insert_title_and_description (parent : element) (title : string)
    (years : list string) : M element :=
  title_text <- checked title ;;
  let parent :=
    append (elem (cmdp_c E "TitleInfo") [leaf (cmdp_c E "title") title_text]) parent in
  description_text <-
    checked ("Full text content aggregated from Europeana. " +:+ "Title: " +:+ dquote
             +:+ title +:+ dquote +:+ ". " +:+ "Years: " +:+ String.concat ", " years
             +:+ ".") ;;
  let parent :=
    append (elem (cmdp_c E "Description") [leaf (cmdp_c E "description") description_text])
      parent in
  ret (append (elem (cmdp_c E "ResourceType") [leaf (cmdp_c E "label") "Text"]) parent).

Definition collection_insert_temporal_coverage (parent : element)
    (year_lower year_higher : string) : M element :=
  label <- checked (year_lower +:+ " - " +:+ year_higher) ;;
  start_year <- checked year_lower ;;
  end_year <- checked year_higher ;;
  ret (append
         (elem (cmdp_c E "TemporalCoverage")
            [leaf (cmdp_c E "label") label;
             elem (cmdp_c E "Start") [leaf (cmdp_c E "year") start_year];
             elem (cmdp_c E "End") [leaf (cmdp_c E "year") end_year]])
         parent).

Definition collection_insert_subresource_info (parent : element) (title : string)
    (year_files : gmap string string) (namespace : string) : M element :=
  let parent := insert_dump_subresource_info parent namespace in
  for_ (sorted year_files)
    (λ parent year,
       _ <- item year_files year ;;
       label <- checked (title +:+ " - " +:+ year) ;;
       coverage_label <- checked year ;;
       ret (append
              (Element (QName namespace "Subresource") [(cmd_ref_attribute, xml_id year)] None
                 [elem (QName namespace "SubresourceDescription")
                    [leaf (QName namespace "label") label;
                     elem (QName namespace "TemporalCoverage")
                       [leaf (QName namespace "label") coverage_label]]])
              parent))
    parent.

Definition collection_insert_component_content (components_root : element) (title : string)
    (sorted_years : list string) (year_files : gmap string string)
    (input_records : list element) : M element :=
  let ns := CMDP_NS_COLLECTION_RECORD E in
  r <- collection_insert_title_and_description components_root title sorted_years ;;
  let r := insert_keywords E r input_records ns in
  let r := insert_publisher E r input_records ns in
  r <- insert_languages E r input_records ns ;;
  year_lower <- first_item "sorted_years[0]" sorted_years ;;
  year_higher <- last_item "sorted_years[-1]" sorted_years ;;
  r <- collection_insert_temporal_coverage r year_lower year_higher ;;
  let r := insert_countries E r input_records ns in
  let r := insert_licences E r input_records ns in
  r <- collection_insert_subresource_info r title year_files ns ;;
  ret (insert_metadata_info E r).

Definition collection_components_path : list qname :=
  [cmd "CMD"; cmd "Components"; cmdp_c E "MetadataCollection"].

Definition make_collection_record (file_name : string) (template : element)
    (collection_id title : string) (year_files : gmap string string)
    (input_record_map : dict.t record_entry) (metadata_dir : string) : M (option element) :=
  let cmdi_file := template in
  cmdi_file <- set_metadata_headers E cmdi_file collection_id file_name ;;
  let resource_proxies_list := xpath cmdi_file proxy_list_path in
  match resource_proxies_list with
  | [p] =>
      l <- collection_insert_resource_proxies (node cmdi_file p) year_files collection_id ;;
      let cmdi_file := update p (λ _, l) cmdi_file in
      let components_root := xpath cmdi_file collection_components_path in
      match components_root with
      | [q] =>
          edm_records <- load_emd_records E input_record_map metadata_dir ;;
          root <- collection_insert_component_content (node cmdi_file q) title
                    (sorted year_files) year_files edm_records ;;
          ret (Some (update q (λ _, root) cmdi_file))
      | _ =>
          log ERROR "Expecting exactly one components root element" ;;
          ret None
      end
  | _ =>
      log ERROR "Expecting exactly one components root element" ;;
      ret None
  end.

End collection_builder.

(** ** Reading a built document *)

(** The [ResourceProxy] children of the proxy list of [doc]. *)
Definition resource_proxies (doc : element) : list element :=
  xpath doc proxy_list_path ≫= λ p, children (node doc p).

(** The [id] attributes of a list of proxies. *)
Definition proxy_ids (proxies : list element) : list string :=
  omap (λ e, dict.get "id" (attrib e)) proxies.

(** A resource proxy as [insert_resource_proxy] builds it. *)
Definition resource_proxy (proxy_id resource_type ref : string) (media_type : option string)
    : element :=
  Element (cmd "ResourceProxy") [("id", proxy_id)] None
    [Element (cmd "ResourceType")
       (match media_type with Some m => [("mimetype", m)] | None => [] end)
       (Some resource_type) [];
     leaf (cmd "ResourceRef") ref].

(** ** A concrete environment, concrete templates and concrete inputs *)

Definition example_env : env := {|
  COLLECTION_DISPLAY_NAME := "Europeana newspapers full-text";
  LANDING_PAGE_URL := "https://pro.europeana.eu/page/iiif#download";
  CMDI_RECORDS_BASE_URL := "https://example.org/records";
  CMDP_NS_RECORD := "http://www.clarin.eu/cmd/1/profiles/clarin.eu:cr1:p_1633000337997";
  CMDP_NS_COLLECTION_RECORD := "http://www.clarin.eu/cmd/1/profiles/clarin.eu:cr1:p_1659015263839";
  script_basename := "aggregation_cmdi_creation.py";
  today_string := "2021-11-03";
  retrieve_annotation_refs := λ url, [Some (url +:+ "/1.jpg", "page 1")];
  etree_parse := λ file_path, Parsed (Element (plain "RDF") [] (Some file_path) []);
  xpath_values := λ doc path,
    if decide (path = "/rdf:RDF/ore:Proxy/dc:title/text()") then ["Example Gazette"]
    else if decide (path = "/rdf:RDF/ore:Proxy/dc:identifier/text()")
    then ["http://data.theeuropeanlibrary.org/BibliographicResource/3000118435146"]
    else if decide (path = "/rdf:RDF/ore:Proxy/dcterms:issued/text()") then ["1920-05-03"]
    else [];
  languages_alpha2 := λ _, None;
  languages_part3 := λ _, None
|}.

Definition placeholder (t : qname) : element := elem t [].

Definition example_header : element :=
  elem (cmd "Header")
    [placeholder (cmd "MdCreator"); placeholder (cmd "MdCreationDate");
     placeholder (cmd "MdSelfLink"); placeholder (cmd "MdProfile");
     placeholder (cmd "MdCollectionDisplayName")].

(** A header with a creation date but without a self link. *)
Definition header_without_selflink : element :=
  elem (cmd "Header") [placeholder (cmd "MdCreator"); placeholder (cmd "MdCreationDate")].

Definition example_resources : element :=
  elem (cmd "Resources")
    [placeholder (cmd "ResourceProxyList"); placeholder (cmd "JournalFileProxyList");
     placeholder (cmd "ResourceRelationList")].

Definition record_template (header : element) : element :=
  elem (cmd "CMD")
    [header; example_resources;
     elem (cmd "Components") [placeholder (cmdp example_env "TextResource")]].

Definition collection_template (header : element) : element :=
  elem (cmd "CMD")
    [header; example_resources;
     elem (cmd "Components") [placeholder (cmdp_c example_env "MetadataCollection")]].

(** Two identifiers, each with one manifest. *)
Definition example_records : dict.t record_entry :=
  [("3000118435146", RecordEntry (Some "3000118435146.xml") (Some ["https://iiif.example.org/3000118435146/manifest"]));
   ("3000118435009", RecordEntry (Some "3000118435009.xml") (Some ["https://iiif.example.org/3000118435009/manifest"]))].

(** An identifier as the metadata has it, not normalized. *)
Definition url_keyed_records : dict.t record_entry :=
  [("http://data.theeuropeanlibrary.org/BibliographicResource/3000118435146",
    RecordEntry (Some "3000118435146.xml") (Some ["https://iiif.example.org/3000118435146/manifest"]))].

(** Two identifiers that differ only in a character [xml_id] replaces. *)
Definition colliding_records : dict.t record_entry :=
  [("issue-1", RecordEntry None (Some ["https://iiif.example.org/a/manifest"]));
   ("issue.1", RecordEntry None (Some ["https://iiif.example.org/b/manifest"]))].

(** A record template whose proxy list already has a proxy, with the id of
    the landing page. *)
Definition record_template_with_proxy : element :=
  elem (cmd "CMD")
    [example_header;
     elem (cmd "Resources")
       [elem (cmd "ResourceProxyList")
          [Element (cmd "ResourceProxy") [("id", "landing_page")] None
             [leaf (cmd "ResourceType") "LandingPage";
              leaf (cmd "ResourceRef") "https://example.org/about"]]];
     elem (cmd "Components") [placeholder (cmdp example_env "TextResource")]].

(** A title with a vertical tabulation, a character lxml refuses. *)
Definition title_with_control_character : string :=
  "Example" +:+ String (ascii_of_nat 11) "Gazette".

(** Identifiers without manifest URLs. *)
Definition records_without_manifests : dict.t record_entry :=
  [("3000118435146", RecordEntry (Some "3000118435146.xml") (Some []));
   ("3000118435009", RecordEntry (Some "3000118435009.xml") None)].

Definition example_years : gmap string string :=
  <["1921" := "f1921.xml"]> (<["1920" := "f1920.xml"]> ∅).

(** ** Vocabulary of the statements: dates *)

(** A decimal digit. *)
Definition is_digit (c : ascii) : Prop := re.digit c = true.

(** [l] starts with four digits, a hyphen, two digits, a hyphen and two
    digits. *)
Definition date_prefix (l : list ascii) : bool :=
  match l with
  | y1 :: y2 :: y3 :: y4 :: h1 :: m1 :: m2 :: h2 :: d1 :: d2 :: _ =>
      re.digit y1 && re.digit y2 && re.digit y3 && re.digit y4
      && Ascii.eqb h1 "-"%char
      && re.digit m1 && re.digit m2
      && Ascii.eqb h2 "-"%char
      && re.digit d1 && re.digit d2
  | _ => false
  end.

(** [s] is of the shape YYYY-MM-DD, with nothing before or after. *)
Definition date_shaped (s : string) : bool :=
  date_prefix (chars s) && (length (chars s) =? 10)%nat.

(** Where [$] matches: at the end, or before a newline that is the last
    character. *)
Definition at_end (rest : list ascii) : bool :=
  match rest with
  | [] => true
  | [c] => Ascii.eqb c newline
  | _ => false
  end.

(** The first four characters of the leftmost place where [l] continues with
    a date, if there is one. *)
Fixpoint find_date (l : list ascii) : option (list ascii) :=
  if date_prefix l then Some (take 4 l)
  else match l with
       | [] => None
       | _ :: l' => find_date l'
       end.

(** ** Vocabulary of the statements: XML identifiers *)

(** [[A-Za-z]], [[A-Za-z_]] and [[A-Za-z0-9_]]. *)
Definition letter (c : ascii) : bool :=
  in_range "A"%char "Z"%char c || in_range "a"%char "z"%char c.
Definition name_start (c : ascii) : bool := letter c || Ascii.eqb c "_"%char.
Definition name_char (c : ascii) : bool :=
  letter c || in_range "0"%char "9"%char c || Ascii.eqb c "_"%char.

(** [s] starts with a letter or an underscore and consists of letters,
    digits and underscores. *)
Definition is_xml_name (s : string) : bool :=
  match chars s with
  | c :: l => name_start c && forallb name_char l
  | [] => false
  end.

(** The identifier the specification describes: an underscore in front
    unless the value starts with a letter or an underscore, then an
    underscore for every character other than a letter, a digit or an
    underscore. *)
Definition xml_id_as_specified (value : string) : string :=
  let prefixed :=
    match chars value with
    | c :: _ => if name_start c then value else "_" +:+ value
    | [] => "_" +:+ value
    end in
  str ((λ c, if name_char c then c else "_"%char) <$> chars prefixed).

(** The characters between "Z" and "a" other than the underscore: the
    brackets, the backslash, the caret and the backquote. *)
Definition between_Z_and_a (c : ascii) : bool :=
  in_range "["%char "`"%char c && negb (Ascii.eqb c "_"%char).

(** What [xml_id] does to one character, and whether it leaves the first
    character of [l] in front. *)
Definition substitute (c : ascii) : ascii := if set_A_z_09_us c then c else "_"%char.

Definition starts_id (l : list ascii) : bool :=
  match l with
  | c :: _ => set_A_z_us c
  | [] => false
  end.

(** ** Vocabulary of the statements: computations and elements *)

(** The computation returns, with a value that satisfies [P]. *)
Definition post {A} (P : A → Prop) (m : M A) : Prop :=
  ∃ a, result m = Return a ∧ P a.

(** The computation, if it returns, returns a value that satisfies [P]. *)
Definition ensures {A} (P : A → Prop) (m : M A) : Prop :=
  ∀ a, result m = Return a → P a.

(** The computation, if it raises, raises an exception that satisfies [P]. *)
Definition raises {A} (P : exn → Prop) (m : M A) : Prop :=
  ∀ e, result m = Raise e → P e.

(** lxml accepts the strings of [l]. *)
Definition texts_accepted (l : list string) : Prop :=
  Forall (λ s, xml_compatible s = true) l.

(** lxml accepts the values of the attributes and the texts of [e] and of
    the elements below it. *)
Fixpoint accepted (e : element) : bool :=
  let 'Element _ attributes text_ children_ := e in
  forallb (λ kv : string * string, xml_compatible kv.2) attributes
  && from_option xml_compatible true text_
  && forallb accepted children_.

(** [e'] is [e] with more children at the end, each satisfying [P]. *)
Definition grows (P : element → Prop) (e e' : element) : Prop :=
  tag e' = tag e ∧ ∃ new, children e' = children e ++ new ∧ Forall P new.

(** [e] with the elements [new] after its children. *)
Definition extend (new : list element) (e : element) : element :=
  set_children (children e ++ new) e.

(** [doc'] answers the queries of the builders as [doc] does, and the
    grandchildren of its root have the children they have in [doc]. *)
Definition same_skeleton (doc doc' : element) : Prop :=
  (∀ path, length path ≤ 3 → xpath doc' path = xpath doc path) ∧
  (∀ q, length q = 2 → children <$> get q doc' = children <$> get q doc).

(** The template has the self-link placeholder whenever it has the creation
    date placeholder. *)
Definition selflink_with_creation_date (template : element) : Prop :=
  xpath template (header_path "MdCreationDate") ≠ [] →
  xpath template (header_path "MdSelfLink") ≠ [].

(** [etree.parse] can read every metadata file of the records map. *)
Definition files_readable (E : env) (records : dict.t record_entry) (metadata_dir : string)
    : Prop :=
  Forall
    (λ r, ∀ file_name,
            file r.2 = Some file_name →
            etree_parse E (metadata_dir +:+ "/" +:+ file_name) ≠ Unreadable)
    records.

(** Every identifier of the records map has no manifest URLs. *)
Definition no_manifest_urls (records : dict.t record_entry) : Prop :=
  Forall (λ r, manifest_urls r.2 = None ∨ manifest_urls r.2 = Some []) records.

(** The warning of a skipped record. *)
Definition skip_warning (title year : string) : log_record :=
  (WARNING,
   "Skipping creation of record for " +:+ squote +:+ title +:+ " - " +:+ year +:+ squote
   +:+ ": no full text resources to refer to").

(** ** Vocabulary of the statements: resource proxies *)

(** The three proxies every document starts with. *)
Definition fixed_proxies (E : env) (collection_id : string) : list element :=
  [resource_proxy LANDING_PAGE_ID "LandingPage" (LANDING_PAGE_URL E) None;
   resource_proxy EDM_DUMP_PROXY_ID "Resource" (make_edm_dump_ref collection_id)
     (Some DUMP_MEDIA_TYPE);
   resource_proxy ALTO_DUMP_PROXY_ID "Resource" (make_alto_dump_ref collection_id)
     (Some DUMP_MEDIA_TYPE)].

(** One proxy per labeled reference, in the order of the map; the proxy id
    is made from [key record_id], [_anno] and the position of the reference,
    counted from 1, in the list of its identifier. *)
Definition annotation_proxies_by (key : string → string)
    (labeled_refs : dict.t (list labeled_ref)) : list element :=
  labeled_refs ≫= λ '(record_id, record_refs),
    imap (λ i (l_ref : labeled_ref),
            resource_proxy (xml_id (key record_id +:+ "_anno" +:+ str_of_nat (S i)))
              "Resource" l_ref.1 None)
      record_refs.

(** The proxy ids are made from the keys of the map as they are. *)
Definition annotation_proxies : dict.t (list labeled_ref) → list element :=
  annotation_proxies_by id.

(** The proxy ids are made from the normalized keys. *)
Definition annotation_proxies_normalized : dict.t (list labeled_ref) → list element :=
  annotation_proxies_by normalize_identifier.

(** The ids of the annotation proxies of a resolved-references map. *)
Definition annotation_ids (labeled_refs : dict.t (list labeled_ref)) : list string :=
  labeled_refs ≫= λ '(record_id, record_refs),
    (λ i, make_ref_xml_id record_id (S i)) <$> seq 0 (length record_refs).

(** The id [make_ref_xml_id] makes from an identifier, without the index:
    what the identifier contributes to the ids of its proxies. *)
Definition annotation_key (record_id : string) : string := xml_id (record_id +:+ "_anno").

(** One [Metadata] proxy per year, in ascending order. *)
Definition year_proxies (E : env) (collection_id : string) (year_files : gmap string string)
    : list element :=
  (λ year,
     resource_proxy (xml_id year) "Metadata"
       (CMDI_RECORDS_BASE_URL E +:+ "/" +:+ collection_id +:+ "/" +:+ (year_files !!! year))
       None) <$> sorted year_files.

(** ** Vocabulary of the statements: temporal coverage *)

(** The [TemporalCoverage] component of a collection record. *)
Definition temporal_coverage (E : env) (year_lower year_higher : string) : element :=
  elem (cmdp_c E "TemporalCoverage")
    [leaf (cmdp_c E "label") (year_lower +:+ " - " +:+ year_higher);
     elem (cmdp_c E "Start") [leaf (cmdp_c E "year") year_lower];
     elem (cmdp_c E "End") [leaf (cmdp_c E "year") year_higher]].

Definition not_temporal_coverage (c : element) : Prop :=
  local (tag c) ≠ "TemporalCoverage".

(** [r'] is [r] with more children at the end, exactly one of which is a
    [TemporalCoverage]: the one from [year_lower] to [year_higher]. *)
Definition covers (E : env) (year_lower year_higher : string) (r r' : element) : Prop :=
  tag r' = tag r ∧
  ∃ before after,
    children r' = children r ++ before ++ [temporal_coverage E year_lower year_higher] ++ after ∧
    Forall not_temporal_coverage before ∧ Forall not_temporal_coverage after.

(** ** The rest of common.py *)

(** [value.replace('/', '_')] *)
Definition id_to_filename (value : string) : string :=
  str ((λ c, if Ascii.eqb c "/"%char then "_"%char else c) <$> chars value).

Definition get_metadata_dir (basedir collection_id : string) : string :=
  basedir +:+ "/" +:+ collection_id +:+ "/metadata".

Definition get_fulltext_dir (basedir collection_id : string) : string :=
  basedir +:+ "/" +:+ collection_id +:+ "/fulltext".

(** [[A-z0-9]] *)
Definition set_A_z_09 (c : ascii) : bool :=
  in_range "A"%char "z"%char c || in_range "0"%char "9"%char c.

Definition filename_safe (name : string) : string :=
  re.sub_set (re.neg set_A_z_09) "_" name.

Definition id_to_fulltext_file (identifier : string) : string :=
  id_to_filename identifier +:+ ".xml".

(** [filter_fulltext_ids]; [available_files] is what [os.listdir] returns
    for the directory. *)
Definition filter_fulltext_ids (ids : list string) (available_files : list string)
    : list string :=
  filter (λ identifier, id_to_fulltext_file identifier ∈ available_files) ids.

(** ** __main__.py *)

Module main.

Definition MODE_RETRIEVE : string := "retrieve".
Definition MODE_GENERATE_CMDI : string := "generate-cmdi".

Definition modes : list string := [MODE_RETRIEVE; MODE_GENERATE_CMDI].

(** What a run does that can be seen from outside: the lines it prints, the
    lines it hands to the logger, and the calls of its two collaborators,
    [api_retrieval.retrieve] and [generate_cmdi.generate]. *)
Inductive action : Type :=
| Print (line : string)
| LogDebugArgv (argv : list string)
| LogInfoCommand (command : string)
| LogInfoArguments (arguments : list string)
| CallRetrieve (collection_id : string)
| CallGenerate (metadata_path fulltext_path : string) (filter : list string).

(** A run ends by returning or with [exit(code)]. *)
Inductive ending (A : Type) : Type :=
| Returns (a : A)
| Exits (code : nat).
Arguments Returns {A} a.
Arguments Exits {A} code.

Definition run (A : Type) : Type := list action * ending A.

Definition done_ {A} (a : A) : run A := ([], Returns a).

Definition then_ {A B} (m : run A) (f : A → run B) : run B :=
  match m with
  | (l, Returns a) => let '(l', e) := f a in (l ++ l', e)
  | (l, Exits code) => (l, Exits code)
  end.

Definition act (a : action) : run unit := ([a], Returns tt).
Definition exit {A} (code : nat) : run A := ([], Exits code).

Declare Scope run_scope.
Delimit Scope run_scope with run.
Notation "m ;;; k" := (then_ m (λ _, k))
  (at level 100, right associativity) : run_scope.
Local Open Scope run_scope.

Section program.
(** [sys.executable] and [__file__] *)
Context (executable file : string).

Definition usage : string :=
  String newline "    Usage:" +:+
  String newline "        " +:+ executable +:+ " " +:+ file +:+ " <command> <args>" +:+
  String newline "" +:+
  String newline "    Commands:" +:+
  String newline "        " +:+ MODE_RETRIEVE +:+ " <collection id>" +:+
  String newline "        " +:+ MODE_GENERATE_CMDI +:+ " <metadata path>  <fulltext path>" +:+
  String newline "    ".

Definition print_usage : run unit := act (Print usage).

Definition run_command (command : string) (arguments : list string) : run unit :=
  act (LogInfoCommand command) ;;;
  act (LogInfoArguments arguments) ;;;
  (if decide (command = MODE_RETRIEVE) then
     match arguments with
     | [] =>
         act (Print "ERROR: Provide a set identifier as the first argument") ;;;
         print_usage ;;;
         exit 1
     | collection_id :: _ => act (CallRetrieve collection_id)
     end
   else done_ tt) ;;;
  (if decide (command = MODE_GENERATE_CMDI) then
     match arguments with
     | metadata_path :: fulltext_path :: _ =>
         act (CallGenerate metadata_path fulltext_path [])
     | _ =>
         act (Print "ERROR: Provide locations for metadata and fulltext") ;;;
         print_usage ;;;
         exit 1
     end
   else done_ tt).

(** [argv] is [sys.argv]. *)
Definition main (argv : list string) : run unit :=
  act (LogDebugArgv argv) ;;;
  match argv with
  | _ :: command :: arguments =>
      if decide (command ∈ modes) then run_command command arguments
      else
        act (Print ("ERROR: command not recognised: " +:+ squote +:+ command +:+ squote)) ;;;
        print_usage ;;;
        exit 1
  | _ => print_usage ;;; exit 0
  end.

End program.

(** The collaborator calls among the actions of a run. *)
Definition is_call (a : action) : bool :=
  match a with
  | CallRetrieve _ | CallGenerate _ _ _ => true
  | _ => false
  end.

Definition calls {A} (r : run A) : list action := List.filter is_call r.1.

End main.

(** ** Vocabulary of the further properties *)

(** What the manifests of one entry of the records map resolve to. *)
Definition resolved_refs (E : env) (entry : record_entry) : list labeled_ref :=
  match manifest_urls entry with
  | Some urls => omap id (mjoin (retrieve_annotation_refs E <$> urls))
  | None => []
  end.

(** The entries of the records map with what they resolve to, those that
    resolve to nothing left out. *)
Definition resolved (E : env) (records : dict.t record_entry) : dict.t (list labeled_ref) :=
  filter (λ kv, kv.2 ≠ []) (prod_map id (resolved_refs E) <$> records).


(** The document of an entry of the records map: the one [etree.parse]
    returns for its file, if it has a file and the file is parsed. *)
Definition parsed_document (E : env) (metadata_dir : string) (r : string * record_entry)
    : option element :=
  match file r.2 with
  | Some file_name =>
      match etree_parse E (metadata_dir +:+ "/" +:+ file_name) with
      | Parsed doc => Some doc
      | _ => None
      end
  | None => None
  end.

Definition is_error (r : log_record) : bool :=
  match r.1 with ERROR => true | _ => false end.

(** An environment in which no file can be read. *)
Definition offline_env : env := {|
  COLLECTION_DISPLAY_NAME := COLLECTION_DISPLAY_NAME example_env;
  LANDING_PAGE_URL := LANDING_PAGE_URL example_env;
  CMDI_RECORDS_BASE_URL := CMDI_RECORDS_BASE_URL example_env;
  CMDP_NS_RECORD := CMDP_NS_RECORD example_env;
  CMDP_NS_COLLECTION_RECORD := CMDP_NS_COLLECTION_RECORD example_env;
  script_basename := script_basename example_env;
  today_string := today_string example_env;
  retrieve_annotation_refs := retrieve_annotation_refs example_env;
  etree_parse := λ _, Unreadable;
  xpath_values := xpath_values example_env;
  languages_alpha2 := languages_alpha2 example_env;
  languages_part3 := languages_part3 example_env
|}.

(** [doc] with the text of the first element at the header path of
    [field] set to [v], if there is such an element. *)
Definition with_header_text (field v : string) (doc : element) : element :=
  match xpath doc (header_path field) with
  | p :: _ => update p (set_text v) doc
  | [] => doc
  end.

(** [doc] with the header texts [set_metadata_headers] writes. *)
Definition with_headers (E : env) (collection_id record_file_name : string) (doc : element)
    : element :=
  let d :=
    with_header_text "MdCreationDate" (today_string E)
      (with_header_text "MdCreator" (script_basename E) doc) in
  let d :=
    match xpath doc (header_path "MdCreationDate") with
    | _ :: _ =>
        with_header_text "MdSelfLink"
          (CMDI_RECORDS_BASE_URL E +:+ "/" +:+ collection_id +:+ "/" +:+ record_file_name) d
    | [] => d
    end in
  with_header_text "MdCollectionDisplayName" (COLLECTION_DISPLAY_NAME E) d.

(** [doc] with the elements [new] at the end of the element at [p]. *)
Definition with_proxies (new : list element) (p : ref) (doc : element) : element :=
  update p (extend new) doc.

(** The error line of a template that has not exactly one proxy list, or
    not exactly one components root. *)
Definition shape_error : log_record :=
  (ERROR, "Expecting exactly one components root element").

(** The [TemporalCoverage] component of a record. *)
Definition record_temporal_coverage (E : env) (year : string) : element :=
  elem (cmdp E "TemporalCoverage")
    [leaf (cmdp E "label") year;
     elem (cmdp E "Start") [leaf (cmdp E "year") year];
     elem (cmdp E "End") [leaf (cmdp E "year") year]].

(** [r'] is [r] with more children at the end: exactly one of them is a
    [TemporalCoverage], the one of [year], and the last one is the
    [MetadataInfo] block. *)
Definition record_covers (E : env) (year : string) (r r' : element) : Prop :=
  tag r' = tag r ∧
  ∃ before after,
    children r'
    = children r ++ before ++ [record_temporal_coverage E year] ++ after ++ [metadata_info E] ∧
    Forall not_temporal_coverage before ∧ Forall not_temporal_coverage after.

(** The proxy a [Subresource] component refers to. *)
Definition subresource_ref (c : element) : option string :=
  if decide (local (tag c) = "Subresource") then dict.get cmd_ref_attribute (attrib c)
  else None.

(** The component [c], when it is a [Subresource] with a reference, refers
    to one of [ids]. *)
Definition refers_to (ids : list string) (c : element) : Prop :=
  ∀ r, subresource_ref c = Some r → r ∈ ids.

(** The number of [Subresource] components with a reference among [l]. *)
Definition subresource_refs (l : list element) : list string := omap subresource_ref l.

(** The entries of a resolved-references map whose key is in normalized
    form. *)
Definition normalized_keys (labeled_refs : dict.t (list labeled_ref))
    : dict.t (list labeled_ref) :=
  filter (λ kv, normalize_identifier kv.1 = kv.1) labeled_refs.

(** The records map without its manifest URLs. *)
Definition without_manifest_urls (records : dict.t record_entry) : dict.t record_entry :=
  prod_map id (λ entry, RecordEntry (file entry) None) <$> records.

(** ** [normalize_title] of common.py *)

(** [\s] on the characters [unidecode] produces: the white space of ASCII,
    which for a text pattern includes the four separators 28 to 31. *)
Definition whitespace (c : ascii) : bool :=
  in_range (ascii_of_nat 9) (ascii_of_nat 13) c
  || in_range (ascii_of_nat 28) (ascii_of_nat 32) c.

(** [[A-z0-9'\"()]] and [[A-z0-9'\"()\s]] *)
Definition set_title_end (c : ascii) : bool :=
  in_range "A"%char "z"%char c || in_range "0"%char "9"%char c
  || Ascii.eqb c "'"%char || Ascii.eqb c (ascii_of_nat 34)
  || Ascii.eqb c "("%char || Ascii.eqb c ")"%char.

Definition set_title (c : ascii) : bool := set_title_end c || whitespace c.

(** [r"^[A-z0-9'\"()\s]*[A-z0-9'\"()]"] *)
Definition title_pattern : re.regex :=
  re.Cat re.Bol (re.Cat (re.StarSet set_title) (re.Set_ set_title_end)).

Section title.
(** A title is a sequence of code points of any kind; [unidecode] gives
  its transliteration to ASCII. *)
Context {C : Type} (unidecode : list C → string).

Definition normalize_title (title : list C) : option (list C) :=
match re.search title_pattern (unidecode title) with
| Some m => Some (take (re.m_end m - re.m_start m) (drop (re.m_start m) title))
| None => None
end.

End title.

(** The first [n] characters of [u] are title characters and the next one
    is a title character other than white space. *)
Definition title_text (u : list ascii) (n : nat) : Prop :=
  Forall (λ c, set_title c = true) (take n u) ∧
  ∃ c, u !! n = Some c ∧ set_title_end c = true.

(** * Properties *)

(** ** Strings *)

Lemma chars_str l : chars (str l) = l.
Proof. apply list_ascii_of_string_of_list_ascii. Qed.

Lemma str_chars s : str (chars s) = s.
Proof. apply string_of_list_ascii_of_string. Qed.

Lemma chars_app s t : chars (s +:+ t) = chars s ++ chars t.
Proof.
  unfold chars. induction s as [|c s IH]; [done|].
  change (String c s +:+ t) with (String c (s +:+ t)). cbn. by f_equal.
Qed.

Lemma chars_inj s t : chars s = chars t → s = t.
Proof. intros H. by rewrite <- (str_chars s), <- (str_chars t), H. Qed.

(** ** The matcher *)

Lemma star_set_Some {A} p (k : nat → list ascii → option A) i s a :
  re.star_set p k i s = Some a →
  ∃ n, Forall (λ c, p c = true) (take n s) ∧ k (i + n) (drop n s) = Some a.
Proof.
  revert i. induction s as [|c s IH]; intros i H; cbn in H.
  - exists 0. rewrite Nat.add_0_r. by split; [constructor|].
  - destruct (p c) eqn:Hc.
    + destruct (re.star_set p k (S i) s) eqn:Hs.
      * injection H as ->. destruct (IH _ Hs) as (n & Hn & Hk).
        exists (S n). cbn. split; [by constructor|].
        by rewrite <- Nat.add_succ_comm.
      * exists 0. rewrite Nat.add_0_r. by split; [constructor|].
    + exists 0. rewrite Nat.add_0_r. by split; [constructor|].
Qed.

Lemma search_from_Some r i s m :
  re.search_from r i s = Some m →
  ∃ n, re.match_at r (i + n) (drop n s) = Some m.
Proof.
  revert i. induction s as [|c s IH]; intros i H; cbn in H.
  - exists 0. rewrite Nat.add_0_r. cbn. by destruct (re.match_at r i []).
  - destruct (re.match_at r i (c :: s)) eqn:Hm.
    + exists 0. rewrite Nat.add_0_r. cbn. congruence.
    + destruct (IH _ H) as (n & Hn). exists (S n). cbn.
      by rewrite <- Nat.add_succ_comm.
Qed.

Lemma search_from_None r i s :
  (∀ n, re.match_at r (i + n) (drop n s) = None) → re.search_from r i s = None.
Proof.
  revert i. induction s as [|c s IH]; intros i H; cbn.
  - specialize (H 0). rewrite Nat.add_0_r in H. cbn in H. by rewrite H.
  - pose proof (H 0) as H0. rewrite Nat.add_0_r in H0. cbn in H0. rewrite H0.
    apply IH. intros n. specialize (H (S n)). by rewrite <- Nat.add_succ_comm in H.
Qed.

Ltac split_char l :=
  destruct l as [|? l]; [cbn; repeat case_match; done|].

Ltac case_chars :=
  repeat match goal with
    | |- context [re.digit ?c] => destruct (re.digit c); cbn; try done
    | |- context [Ascii.eqb ?c ?d] => destruct (Ascii.eqb c d); cbn; try done
    end.

Lemma match_at_year_pattern i l :
  re.match_at year_pattern i l =
    if date_prefix l then Some (re.MObj i (10 + i) (Some (take 4 l))) else None.
Proof.
  unfold re.match_at, year_pattern.
  do 10 split_char l. cbn. case_chars.
  unfold re.finish. cbn.
  replace (S (S (S (S i))) - i) with 4 by lia. done.
Qed.

Lemma match_at_identifier_pattern i s m :
  re.match_at identifier_pattern i s = Some m →
  ∃ g, re.group1 m = Some g ∧ g ≠ [] ∧ Forall is_digit g.
Proof.
  unfold re.match_at, identifier_pattern. cbn. intros H.
  do 4 (destruct s as [|? s]; [done|]; cbn in H; case_match; [|done]).
  apply star_set_Some in H as (n & _ & H). cbn in H.
  destruct (drop n s) as [|c1 s1]; [done|].
  destruct (re.neg re.digit c1); [|done].
  destruct s1 as [|c2 s2]; [done|].
  destruct (re.digit c2) eqn:Hc2; [|done].
  apply star_set_Some in H as (k & Hk & H). cbn in H.
  replace (S (i + n + k) - (i + n)) with (S k) in H by lia.
  exists (c2 :: take k s2). split; [|split; [done|by constructor]].
  destruct (drop k s2) as [|c3 [|c4 s4]]; cbn in H.
  - by injection H as <-.
  - destruct (Ascii.eqb c3 newline); [|done]. by injection H as <-.
  - done.
Qed.

Lemma match_at_identifier_pattern_digits i s :
  Forall is_digit s → re.match_at identifier_pattern i s = None.
Proof.
  intros H. unfold re.match_at, identifier_pattern. cbn.
  destruct H as [|c s Hc _]; [done|].
  destruct (Ascii.eqb_spec c "h"); [|done]. by subst.
Qed.

Lemma search_digits s : Forall is_digit (chars s) → re.search identifier_pattern s = None.
Proof.
  intros H. apply search_from_None. intros n.
  apply match_at_identifier_pattern_digits. by apply Forall_drop.
Qed.

(** The two identifiers the source gives as examples. *)
Example normalize_identifier_examples :
  normalize_identifier "http://data.theeuropeanlibrary.org/BibliographicResource/3000118435146"
  = "3000118435146" ∧
  normalize_identifier
    "http://data.europeana.eu/annotation/9200396/BibliographicResource_3000118435009"
  = "3000118435009" ∧
  normalize_identifier "3000118435146" = "3000118435146".
Proof. repeat split; reflexivity. Qed.

(** [normalize_identifier_logged] returns the value of [normalize_identifier]
    and writes one log line. *)
Lemma normalize_identifier_logged_result identifier :
  result (normalize_identifier_logged identifier) = Return (normalize_identifier identifier) ∧
  length (logs (normalize_identifier_logged identifier)) = 1.
Proof.
  unfold normalize_identifier_logged.
  by destruct (re.search identifier_pattern identifier).
Qed.

(** C7: [normalize_identifier] is idempotent. A match returns the digits of
    group 1, in which the pattern has no match; without a match the
    identifier comes back unchanged. *)
Theorem normalize_identifier_idempotent (identifier : string) :
  normalize_identifier (normalize_identifier identifier) = normalize_identifier identifier.
Proof.
  unfold normalize_identifier at 2 3.
  destruct (re.search identifier_pattern identifier) as [m|] eqn:Hm.
  - apply search_from_Some in Hm as (n & Hm).
    apply match_at_identifier_pattern in Hm as (g & Hg & _ & Hd).
    unfold group_text. rewrite Hg. change (default [] (Some g)) with g.
    unfold normalize_identifier. by rewrite search_digits; [|rewrite chars_str].
  - unfold normalize_identifier. by rewrite Hm.
Qed.

(** ** Dates *)

Lemma is_valid_date_eq s :
  is_valid_date s = date_prefix (chars s) && at_end (drop 10 (chars s)).
Proof.
  unfold is_valid_date, re.match_, re.match_at, date_pattern.
  generalize (chars s) as l. intros l.
  do 10 split_char l. cbn. case_chars.
  destruct l as [|c [|c' l]]; cbn; [done| |done].
  by destruct (Ascii.eqb c newline).
Qed.

Lemma search_year_pattern i l :
  re.group1 <$> re.search_from year_pattern i l = Some <$> find_date l.
Proof.
  revert i. induction l as [|c l IH]; intros i.
  - cbn [re.search_from find_date]. rewrite match_at_year_pattern.
    by destruct (date_prefix []).
  - cbn [re.search_from find_date]. rewrite match_at_year_pattern.
    destruct (date_prefix (c :: l)); [done|]. apply IH.
Qed.

Lemma date_to_year_eq s : date_to_year s = str <$> find_date (chars s).
Proof.
  unfold date_to_year, re.search. pose proof (search_year_pattern 0 (chars s)) as H.
  destruct (re.search_from year_pattern 0 (chars s)) as [m|];
    destruct (find_date (chars s)) as [y|]; cbn in *; try done.
  unfold group_text. by injection H as ->.
Qed.

Lemma date_shaped_prefix d post : date_shaped (str d) = true → date_prefix (d ++ post) = true.
Proof.
  unfold date_shaped. rewrite chars_str. intros [H1 H2%Nat.eqb_eq]%andb_prop.
  do 10 (destruct d as [|? d]; [done|]). by destruct d.
Qed.

Lemma date_prefix_shaped l :
  date_prefix l = true → date_shaped (str (take 10 l)) = true ∧ l = take 10 l ++ drop 10 l.
Proof.
  intros H. split; [|by rewrite take_drop].
  unfold date_shaped. rewrite chars_str.
  do 10 (destruct l as [|? l]; [done|]). cbn [take]. rewrite take_0.
  apply andb_true_intro. by split.
Qed.

Lemma date_prefix_length l : date_prefix l = true → 10 ≤ length l.
Proof. intros H. do 10 (destruct l as [|? l]; [done|]). cbn. lia. Qed.

Lemma find_date_Some l y :
  find_date l = Some y →
  ∃ n, date_prefix (drop n l) = true ∧ y = take 4 (drop n l)
       ∧ ∀ m, m < n → date_prefix (drop m l) = false.
Proof.
  induction l as [|c l IH]; cbn [find_date].
  - destruct (date_prefix []) eqn:H; [|done]. done.
  - destruct (date_prefix (c :: l)) eqn:H.
    + intros [= <-]. exists 0. repeat split; [done|]. lia.
    + intros (n & H1 & H2 & H3)%IH. exists (S n). repeat split; [done..|].
      intros [|m] Hm; [done|]. apply H3. lia.
Qed.

Lemma find_date_None l : find_date l = None ↔ ∀ n, date_prefix (drop n l) = false.
Proof.
  induction l as [|c l IH]; cbn [find_date].
  - split; [intros _ n; by rewrite drop_nil|done].
  - destruct (date_prefix (c :: l)) eqn:H.
    + split; [done|]. intros H'. specialize (H' 0). rewrite drop_0 in H'. congruence.
    + rewrite IH. split.
      * intros H' [|n]; [done|apply H'].
      * intros H' n. apply (H' (S n)).
Qed.

(** C8, as the claim states it, fails: [date_to_year] searches the string
    for the first date, so a string that is not of the shape YYYY-MM-DD
    still yields a year, and that year is not the start of the string. *)
Lemma date_to_year_unanchored :
  date_shaped "x1920-05-03" = false ∧ date_to_year "x1920-05-03" = Some "1920".
Proof. split; reflexivity. Qed.

(** C8, amended: [date_to_year s] is the year prefix of [s] when [s] is of
    the shape YYYY-MM-DD; in general it is the first four characters of the
    leftmost part of [s] of that shape, and there is no value exactly when no
    part of [s] has that shape. *)
Theorem date_to_year_leftmost (s : string) :
  (date_shaped s = true → date_to_year s = Some (str (take 4 (chars s)))) ∧
  (∀ y, date_to_year s = Some y →
     ∃ pre d post,
       chars s = pre ++ d ++ post ∧ date_shaped (str d) = true ∧ y = str (take 4 d) ∧
       ∀ pre' d' post',
         chars s = pre' ++ d' ++ post' → date_shaped (str d') = true →
         length pre ≤ length pre') ∧
  (date_to_year s = None ↔
     ∀ pre d post, chars s = pre ++ d ++ post → date_shaped (str d) = false).
Proof.
  rewrite date_to_year_eq. split; [|split].
  - unfold date_shaped. intros [H _]%andb_prop.
    destruct (chars s) as [|c l]; cbn [find_date]; by rewrite H.
  - intros y Hy. destruct (find_date (chars s)) as [g|] eqn:Hg; [|done].
    injection Hy as <-. apply find_date_Some in Hg as (n & H1 & -> & H3).
    pose proof (date_prefix_shaped _ H1) as [H4 H5].
    exists (take n (chars s)), (take 10 (drop n (chars s))), (drop 10 (drop n (chars s))).
    split; [by rewrite <- H5, take_drop|]. split; [done|].
    split; [by rewrite take_take|].
    intros pre' d' post' Hs Hd'. rewrite length_take.
    destruct (decide (length pre' < n)) as [Hlt|]; [|lia].
    specialize (H3 _ Hlt). rewrite Hs, drop_app_length in H3.
    by rewrite (date_shaped_prefix _ _ Hd') in H3.
  - destruct (find_date (chars s)) as [g|] eqn:Hg.
    + split; [done|]. intros H. apply find_date_Some in Hg as (n & H1 & _).
      pose proof (date_prefix_shaped _ H1) as [H4 H5].
      rewrite (H (take n (chars s)) _ (drop 10 (drop n (chars s)))) in H4; [done|].
      by rewrite <- H5, take_drop.
    + split; [|done]. intros _ pre d post Hs.
      destruct (date_shaped (str d)) eqn:Hd; [|done].
      pose proof (proj1 (find_date_None _) Hg (length pre)) as Hn.
      rewrite Hs, drop_app_length in Hn.
      by rewrite (date_shaped_prefix _ _ Hd) in Hn.
Qed.

Lemma date_to_year_leftmost_witness :
  date_shaped "1920-05-03" = true ∧ date_to_year "1920-05-03" = Some "1920".
Proof.
  split; [reflexivity|].
  exact (proj1 (date_to_year_leftmost "1920-05-03") eq_refl).
Defined.

(** C9 at the failing input: [$] also matches before a final newline, so
    [is_valid_date] accepts a date followed by a newline, a string that is
    not of the shape YYYY-MM-DD from its first to its last character. *)
Theorem is_valid_date_final_newline :
  is_valid_date ("1920-05-03" +:+ String newline "") = true ∧
  date_shaped ("1920-05-03" +:+ String newline "") = false.
Proof. split; reflexivity. Qed.

(** The three examples of C9 hold. *)
Lemma is_valid_date_examples :
  is_valid_date "1920-05-03" = true ∧ is_valid_date "1920-5-3" = false ∧
  is_valid_date "not-a-date" = false.
Proof. repeat split; reflexivity. Qed.

(** [is_valid_date] accepts exactly the dates and the dates followed by one
    newline. *)
Lemma is_valid_date_iff s :
  is_valid_date s = true ↔
  date_shaped s = true ∨
  ∃ d, s = d +:+ String newline "" ∧ date_shaped d = true.
Proof.
  rewrite is_valid_date_eq. unfold date_shaped. split.
  - intros [H1 H2]%andb_prop.
    destruct (drop 10 (chars s)) as [|c [|c' r]] eqn:Hr; [| |done].
    + left. rewrite H1. cbn. apply Nat.eqb_eq.
      pose proof (date_prefix_shaped _ H1) as [_ H5]. rewrite Hr, app_nil_r in H5.
      rewrite H5, length_take.
      pose proof (date_prefix_length _ H1). lia.
    + right. cbn in H2. apply Ascii.eqb_eq in H2 as ->.
      pose proof (date_prefix_shaped _ H1) as [H4 H5]. rewrite Hr in H5.
      exists (str (take 10 (chars s))). split; [|done].
      apply chars_inj. by rewrite chars_app, chars_str.
  - intros [[H1 H2%Nat.eqb_eq]%andb_prop|(d & -> & [H1 H2%Nat.eqb_eq]%andb_prop)].
    + rewrite H1. by rewrite drop_ge by lia.
    + rewrite chars_app. rewrite <- (str_chars d) in H1 at 1.
      rewrite (date_shaped_prefix (chars d)).
      * by rewrite drop_app_length'.
      * unfold date_shaped. rewrite chars_str.
        rewrite str_chars in H1. rewrite H1, H2. done.
Qed.

(** ** XML identifiers *)

Lemma sub_set_substitute l :
  l ≫= (λ c, if re.neg set_A_z_09_us c then chars "_" else [c]) = substitute <$> l.
Proof.
  induction l as [|c l IH]; [done|]. rewrite bind_cons, IH. cbn.
  unfold re.neg, substitute. by destruct (set_A_z_09_us c).
Qed.

Lemma chars_xml_id s :
  chars (xml_id s)
  = substitute <$> (if starts_id (chars s) then chars s else "_"%char :: chars s).
Proof.
  unfold xml_id, re.sub_set. rewrite chars_str, sub_set_substitute. f_equal.
  unfold re.match_, re.match_at, id_start_pattern. cbn.
  destruct (chars s) as [|c l] eqn:Hs; cbn; [by rewrite chars_app, Hs|].
  destruct (set_A_z_us c); cbn; [done|]. by rewrite chars_app, Hs.
Qed.


(** C4 at the failing input: the range [A-z] of the two patterns of [xml_id]
    also covers the six characters between "Z" and "a", so an opening
    bracket is kept. The result is not a name of letters, digits and
    underscores, and it is not what the prescribed substitution gives. *)
Theorem xml_id_keeps_bracket :
  xml_id "a[b" = "a[b" ∧ is_xml_name (xml_id "a[b") = false ∧
  xml_id_as_specified "a[b" = "a_b".
Proof. repeat split; reflexivity. Qed.

(** Apart from the characters between "Z" and "a", [xml_id] does what is
    specified, and its result is a name. *)
Lemma sets_agree c :
  between_Z_and_a c = false →
  set_A_z_us c = name_start c ∧ set_A_z_09_us c = name_char c.
Proof. destruct c as [[] [] [] [] [] [] [] []]; vm_compute; by intros. Qed.

Lemma name_char_substitute c : between_Z_and_a c = false → name_char (substitute c) = true.
Proof.
  intros [_ H]%sets_agree. unfold substitute. rewrite H.
  by destruct (name_char c) eqn:Hc.
Qed.

Lemma xml_id_without_gap value :
  Forall (λ c, between_Z_and_a c = false) (chars value) →
  xml_id value = xml_id_as_specified value ∧ is_xml_name (xml_id value) = true.
Proof.
  intros Hall. split.
  - apply chars_inj. rewrite chars_xml_id. unfold xml_id_as_specified. rewrite chars_str.
    assert (∀ l, Forall (λ c, between_Z_and_a c = false) l →
                 substitute <$> l = (λ c, if name_char c then c else "_"%char) <$> l) as Hsub.
    { induction 1 as [|c l Hc _ IH]; [done|]. cbn. rewrite IH. f_equal.
      unfold substitute. by rewrite (proj2 (sets_agree c Hc)). }
    destruct (chars value) as [|c l] eqn:Hv; cbn [starts_id].
    + by rewrite chars_app, Hv.
    + apply Forall_cons in Hall as [Hc Hl]. rewrite (proj1 (sets_agree c Hc)).
      destruct (name_start c); [rewrite Hv|rewrite chars_app, Hv];
        apply Hsub; repeat constructor; done.
  - unfold is_xml_name. rewrite chars_xml_id.
    assert (∀ l, Forall (λ c, between_Z_and_a c = false) l →
                 forallb name_char (substitute <$> l) = true) as Hchars.
    { induction 1 as [|c l Hc _ IH]; [done|]. cbn. by rewrite name_char_substitute, IH. }
    destruct (chars value) as [|c l]; cbn [starts_id]; [done|].
    apply Forall_cons in Hall as [Hc Hl]. destruct (set_A_z_us c) eqn:Hs; cbn.
    + rewrite (Hchars _ Hl), andb_true_r. unfold substitute.
      destruct (sets_agree c Hc) as [H1 H2]. rewrite H2.
      destruct (name_char c); [congruence|done].
    + by rewrite name_char_substitute, (Hchars _ Hl).
Qed.

(** ** Elements, references and updates *)

Section tree.
Implicit Types (e x : element) (p q : ref) (f : element → element).
Implicit Types (steps path : list qname).

Lemma tag_set_children c e : tag (set_children c e) = tag e.
Proof. done. Qed.

Lemma children_set_children c e : children (set_children c e) = c.
Proof. done. Qed.

Lemma tag_update p f e : (p = [] → tag (f e) = tag e) → tag (update p f e) = tag e.
Proof. destruct p; cbn; auto. Qed.

Lemma imap_alter {B} (F : nat → element → B) g i (cs : list element) :
  (∀ c, cs !! i = Some c → F i (g c) = F i c) → imap F (alter g i cs) = imap F cs.
Proof.
  revert F i. induction cs as [|c cs IH]; intros F [|i] H; cbn; [done..| |].
  - by rewrite H.
  - f_equal. apply IH. intros c' Hc'. by apply H.
Qed.

(** A tag-preserving update at depth [length p] is invisible to a query of
    at most that many steps. *)
Lemma select_update steps p f e x :
  get p e = Some x → tag (f x) = tag x → length steps ≤ length p →
  select steps (update p f e) = select steps e.
Proof.
  revert p e. induction steps as [|t steps IH]; intros p e Hx Hf Hlen; [done|].
  destruct p as [|i p]; [cbn in Hlen; lia|].
  cbn [update select]. rewrite children_set_children. f_equal.
  apply imap_alter. intros c Hc. cbn in Hx. rewrite Hc in Hx.
  rewrite tag_update; [|intros ->; cbn in Hx; by simplify_eq].
  case_decide; [|done]. f_equal. apply IH; [done..|cbn in Hlen; lia].
Qed.

Lemma xpath_update path p f e x :
  get p e = Some x → tag (f x) = tag x → length path ≤ S (length p) →
  xpath (update p f e) path = xpath e path.
Proof.
  intros Hx Hf Hlen. destruct path as [|t steps]; [done|]. cbn.
  rewrite tag_update; [|intros ->; cbn in Hx; by simplify_eq].
  case_decide; [|done]. eapply select_update; [done..|cbn in Hlen; lia].
Qed.

Lemma select_get steps p e :
  p ∈ select steps e →
  ∃ x, get p e = Some x ∧ length p = length steps ∧ ∀ t, last steps = Some t → tag x = t.
Proof.
  revert p e. induction steps as [|t steps IH]; intros p e Hp; cbn in Hp.
  - apply list_elem_of_singleton in Hp as ->. by exists e.
  - apply list_elem_of_join in Hp as (l & Hp & Hl).
    apply elem_of_lookup_imap in Hl as (i & c & -> & Hc).
    case_decide as Ht; [|by apply elem_of_nil in Hp].
    apply list_elem_of_fmap in Hp as (p' & -> & Hp').
    destruct (IH _ _ Hp') as (x & Hx & Hlen & Htag).
    exists x. cbn. rewrite Hc. split; [done|]. split; [by rewrite Hlen|].
    intros t'. destruct steps as [|t2 steps].
    + cbn. intros [= <-]. destruct p'; [|done]. cbn in Hx. by simplify_eq.
    + rewrite last_cons_cons. apply Htag.
Qed.

Lemma xpath_get path p e :
  p ∈ xpath e path →
  ∃ x, get p e = Some x ∧ S (length p) = length path ∧ ∀ t, last path = Some t → (length p = 0 ∨ tag x = t).
Proof.
  destruct path as [|t steps]; cbn; [by intros ?%elem_of_nil|].
  case_decide; [|by intros ?%elem_of_nil].
  intros (x & Hx & Hlen & Htag)%select_get. exists x. split; [done|].
  split; [by rewrite Hlen|]. intros t'. destruct steps as [|t2 steps].
  - left. done.
  - rewrite last_cons_cons. right. by apply Htag.
Qed.

Lemma get_update_eq p f e x : get p e = Some x → get p (update p f e) = Some (f x).
Proof.
  revert e. induction p as [|i p IH]; intros e; cbn.
  - by intros [= ->].
  - rewrite list_lookup_alter_eq. destruct (children e !! i) as [c|]; [|done]. cbn. apply IH.
Qed.

Lemma get_update_ne p q f e :
  length p = length q → p ≠ q → get p (update q f e) = get p e.
Proof.
  revert q e. induction p as [|i p IH]; intros [|j q] e Hlen Hne; try done. cbn.
  destruct (decide (i = j)) as [->|Hij].
  - rewrite list_lookup_alter_eq. destruct (children e !! j) as [c|]; [|done]. cbn.
    apply IH; [by injection Hlen|congruence].
  - by rewrite list_lookup_alter_ne.
Qed.

Lemma node_get doc p x : get p doc = Some x → node doc p = x.
Proof. unfold node. by intros ->. Qed.

End tree.

(** ** Computations *)

Lemma result_bind {A B} (m : M A) (f : A → M B) :
  result (bind m f) =
    match result m with Return a => result (f a) | Raise e => Raise e end.
Proof. destruct m as [l [a|e]]; cbn; [|done]. by destruct (f a). Qed.

Lemma logs_bind {A B} (m : M A) (f : A → M B) :
  logs (bind m f) =
    logs m ++ match result m with Return a => logs (f a) | Raise _ => [] end.
Proof.
  destruct m as [l [a|e]]; cbn; [|by rewrite app_nil_r]. by destruct (f a).
Qed.

Lemma post_ret {A} (P : A → Prop) a : P a → post P (ret a).
Proof. intros H. by exists a. Qed.

Lemma post_bind {A B} (Q : A → Prop) (P : B → Prop) m f :
  post Q m → (∀ a, Q a → post P (f a)) → post P (bind m f).
Proof.
  intros (a & Ha & HQ) Hf. destruct (Hf a HQ) as (b & Hb & HP).
  exists b. split; [|done]. by rewrite result_bind, Ha.
Qed.

Lemma post_mono {A} (P Q : A → Prop) m : (∀ a, P a → Q a) → post P m → post Q m.
Proof. intros H (a & Ha & HP). exists a. auto. Qed.

Lemma post_log {A} (P : A → Prop) lv msg (m : M A) : post P m → post P (log lv msg ;; m).
Proof. intros H. apply post_bind with (Q := λ _, True); [by exists tt|done]. Qed.

Lemma post_for {A S} (I : S → Prop) (l : list A) body acc :
  I acc → (∀ acc x, x ∈ l → I acc → post I (body acc x)) → post I (for_ l body acc).
Proof.
  revert acc. induction l as [|x l IH]; intros acc Hacc Hbody; cbn.
  - by apply post_ret.
  - eapply post_bind; [apply Hbody; [left|done]|].
    intros acc' Hacc'. apply IH; [done|]. intros ???. apply Hbody. by right.
Qed.

Lemma post_result {A} (P : A → Prop) m a : post P m → result m = Return a → P a.
Proof. intros (a' & Ha' & HP) Ha. congruence. Qed.

(** ** Growing elements *)

Lemma grows_refl P e : grows P e e.
Proof. split; [done|]. exists []. by rewrite app_nil_r. Qed.

Lemma grows_trans P e1 e2 e3 : grows P e1 e2 → grows P e2 e3 → grows P e1 e3.
Proof.
  intros [Ht1 (n1 & Hc1 & Hn1)] [Ht2 (n2 & Hc2 & Hn2)]. split; [congruence|].
  exists (n1 ++ n2). rewrite Hc2, Hc1, <- app_assoc. split; [done|by apply Forall_app].
Qed.

Lemma grows_mono (P Q : element → Prop) e e' :
  (∀ c, P c → Q c) → grows P e e' → grows Q e e'.
Proof.
  intros H [Ht (n & Hc & Hn)]. split; [done|]. exists n. split; [done|].
  eapply Forall_impl; eauto.
Qed.

Lemma grows_append P c e : P c → grows P e (append c e).
Proof. intros H. split; [done|]. exists [c]. split; [done|by constructor]. Qed.

Lemma grows_foldl {B} P (f : element → B → element) (l : list B) e :
  (∀ e x, x ∈ l → grows P e (f e x)) → grows P e (foldl f e l).
Proof.
  revert e. induction l as [|x l IH]; intros e H; cbn; [apply grows_refl|].
  eapply grows_trans; [apply H; left|]. apply IH. intros ???. apply H. by right.
Qed.

Lemma post_for_grows {B} P (l : list B) body e :
  (∀ e x, x ∈ l → post (grows P e) (body e x)) → post (grows P e) (for_ l body e).
Proof.
  intros H. apply post_for; [apply grows_refl|].
  intros acc x Hx Hacc. eapply post_mono; [|by apply H].
  intros a. by apply grows_trans.
Qed.

(** ** What a computation returns, if it returns *)

Lemma bind_ret {A B} (a : A) (f : A → M B) : bind (ret a) f = f a.
Proof. unfold bind, ret. by destruct (f a). Qed.

Lemma ensures_ret {A} (P : A → Prop) a : P a → ensures P (ret a).
Proof. by intros H a' [= <-]. Qed.

Lemma ensures_raise {A} (P : A → Prop) e : ensures P (raise e).
Proof. by intros a. Qed.

Lemma ensures_bind {A B} (Q : A → Prop) (P : B → Prop) m f :
  ensures Q m → (∀ a, Q a → ensures P (f a)) → ensures P (bind m f).
Proof.
  intros Hm Hf b. rewrite result_bind.
  destruct (result m) as [a|e] eqn:Ha; [|done]. by apply Hf, Hm.
Qed.

Lemma ensures_mono {A} (P Q : A → Prop) m : (∀ a, P a → Q a) → ensures P m → ensures Q m.
Proof. intros H Hm a Ha. by apply H, Hm. Qed.

Lemma ensures_and {A} (P Q : A → Prop) m :
  ensures P m → ensures Q m → ensures (λ a, P a ∧ Q a) m.
Proof. intros HP HQ a Ha. split; [by apply HP|by apply HQ]. Qed.

Lemma ensures_post {A} (P : A → Prop) m : post P m → ensures P m.
Proof. intros (a & Ha & HP) a' Ha'. congruence. Qed.


Lemma ensures_for {A S} (I : S → Prop) (l : list A) body acc :
  I acc → (∀ acc x, x ∈ l → I acc → ensures I (body acc x)) → ensures I (for_ l body acc).
Proof.
  revert acc. induction l as [|x l IH]; intros acc Hacc Hbody; cbn [for_].
  - by apply ensures_ret.
  - eapply ensures_bind; [apply Hbody; [left|done]|].
    intros acc' Hacc'. apply IH; [done|]. intros ???. apply Hbody. by right.
Qed.

Lemma ensures_for_grows {B} P (l : list B) body e :
  (∀ e x, x ∈ l → ensures (grows P e) (body e x)) → ensures (grows P e) (for_ l body e).
Proof.
  intros H. apply ensures_for; [apply grows_refl|].
  intros acc x Hx Hacc. eapply ensures_mono; [|by apply H].
  intros a. by apply grows_trans.
Qed.

(** ** The check of a text *)

Lemma checked_accepted s : xml_compatible s = true → checked s = ret s.
Proof. unfold checked. by intros ->. Qed.

Lemma checked_refused s : xml_compatible s = false → checked s = raise ValueError.
Proof. unfold checked. by intros ->. Qed.

Lemma ensures_checked s : ensures (λ s', s' = s ∧ xml_compatible s = true) (checked s).
Proof. intros a. unfold checked. destruct (xml_compatible s); [by intros [= <-]|done]. Qed.

Lemma xml_compatible_app s t :
  xml_compatible (s +:+ t) = xml_compatible s && xml_compatible t.
Proof. unfold xml_compatible. by rewrite chars_app, forallb_app. Qed.

Lemma result_checked s :
  result (checked s) = if xml_compatible s then Return s else Raise ValueError.
Proof. unfold checked. by destruct (xml_compatible s). Qed.

Lemma xml_compatible_nil : xml_compatible "" = true.
Proof. done. Qed.

(** ** What a computation raises, if it raises *)


Lemma raises_raise {A} (P : exn → Prop) e : P e → raises (A := A) P (raise e).
Proof. by intros H e' [= <-]. Qed.

Lemma raises_bind {A B} (P : exn → Prop) (m : M A) (f : A → M B) :
  raises P m → (∀ a, result m = Return a → raises P (f a)) → raises P (bind m f).
Proof.
  intros Hm Hf e. rewrite result_bind.
  destruct (result m) as [a|e'] eqn:Ha; [by apply Hf|]. intros [= <-]. by apply Hm.
Qed.

Lemma raises_mono {A} (P Q : exn → Prop) (m : M A) :
  (∀ e, P e → Q e) → raises P m → raises Q m.
Proof. intros H Hm e He. by apply H, Hm. Qed.

Lemma raises_log {A} (P : exn → Prop) lv msg (m : M A) :
  raises P m → raises P (log lv msg ;; m).
Proof. intros H. apply raises_bind; [by intros e|by intros]. Qed.





(** ** Dictionaries *)

Section dicts.
Context {V : Type}.
Implicit Types (d : dict.t V) (k : string) (v : V).

Lemma keys_set k v d :
  dict.keys (dict.set k v d)
  = if decide (k ∈ dict.keys d) then dict.keys d else dict.keys d ++ [k].
Proof.
  unfold dict.keys. induction d as [|[k' v'] d IH]; cbn; [done|].
  destruct (decide (k' = k)) as [->|Hne]; cbn.
  - rewrite decide_True by left. done.
  - rewrite IH. destruct (decide (k ∈ d.*1)) as [Hin|Hin].
    + rewrite decide_True by (by right). done.
    + rewrite decide_False; [done|]. intros [?|?]%elem_of_cons; congruence.
Qed.

Lemma set_fresh k v d : k ∉ dict.keys d → dict.set k v d = d ++ [(k, v)].
Proof.
  unfold dict.keys. induction d as [|[k' v'] d IH]; cbn; [done|].
  intros [Hne Hin]%not_elem_of_cons.
  rewrite decide_False by done. by rewrite IH.
Qed.

Lemma Forall_set (P : string * V → Prop) k v d :
  Forall P d → P (k, v) → Forall P (dict.set k v d).
Proof.
  intros Hd Hk. induction Hd as [|[k' v'] d Hkv Hd IH]; cbn; [by constructor|].
  case_decide; by constructor.
Qed.

Lemma get_elem_of k v d : dict.get k d = Some v → (k, v) ∈ d.
Proof.
  induction d as [|[k' v'] d IH]; cbn; [done|].
  case_decide as Hk; [intros [= ->]; subst; left|right; auto].
Qed.

End dicts.


(** *** Loading the metadata files *)

Lemma bind_ext {A B} (m : M A) (f g : A → M B) : (∀ a, f a = g a) → bind m f = bind m g.
Proof. intros H. destruct m as [l [a|e]]; cbn; [|done]. by rewrite H. Qed.

Lemma bind_ret_r {A} (m : M A) : bind m ret = m.
Proof. destruct m as [l [a|e]]; cbn; [|done]. by rewrite app_nil_r. Qed.

Lemma bind_assoc {A B C} (m : M A) (f : A → M B) (g : B → M C) :
  bind (bind m f) g = bind m (λ a, bind (f a) g).
Proof.
  destruct m as [l [a|e]]; cbn; [|done]. destruct (f a) as [l' [b|e]]; cbn; [|done].
  destruct (g b). by rewrite app_assoc.
Qed.

Lemma for_app {A S} (l1 l2 : list A) (body : S → A → M S) acc :
  for_ (l1 ++ l2) body acc = bind (for_ l1 body acc) (for_ l2 body).
Proof.
  revert acc. induction l1 as [|x l1 IH]; intros acc; cbn [for_ app]; [by rewrite bind_ret|].
  rewrite bind_assoc. apply bind_ext. intros a. apply IH.
Qed.

Section loading.
Context (E : env).

Lemma load_emd_records_snoc records identifier entry dir :
  load_emd_records E (records ++ [(identifier, entry)]) dir
  = (edm_records <- load_emd_records E records dir ;;
     match file entry with
     | None =>
         log ERROR ("No file name in records map for " +:+ identifier) ;;
         ret edm_records
     | Some file_name =>
         log DEBUG ("Loading metadata file " +:+ (dir +:+ "/" +:+ file_name)) ;;
         match etree_parse E (dir +:+ "/" +:+ file_name) with
         | Parsed doc => ret (edm_records ++ [doc])
         | Rejected => log ERROR "Error processing XML document" ;; ret edm_records
         | Unreadable => raise (OSError (dir +:+ "/" +:+ file_name))
         end
     end).
Proof.
  unfold load_emd_records. rewrite for_app. apply bind_ext. intros a.
  cbn [for_]. by rewrite bind_ret_r.
Qed.

(** With readable files the loop returns the parsed documents, and every
    entry of the records map gives a document or one error line. *)
Lemma load_emd_records_closed records dir :
  files_readable E records dir →
  ∃ l, load_emd_records E records dir = (l, Return (omap (parsed_document E dir) records)) ∧
       length (List.filter is_error l) + length (omap (parsed_document E dir) records)
       = length records.
Proof.
  induction records as [|[identifier entry] records IH] using rev_ind; intros Hr.
  { by exists []. }
  apply Forall_app in Hr as [Hr [Hentry _]%Forall_cons].
  destruct (IH Hr) as (l & Hl & Hlen). rewrite load_emd_records_snoc, Hl.
  rewrite omap_app, !length_app.
  change (omap (parsed_document E dir) [(identifier, entry)])
    with (match parsed_document E dir (identifier, entry) with
          | Some doc => [doc]
          | None => []
          end).
  destruct (file entry) as [file_name|] eqn:Hf.
  - specialize (Hentry file_name Hf). cbn in Hentry.
    destruct (etree_parse E (dir +:+ "/" +:+ file_name)) as [doc| |] eqn:Hp; [| |done].
    + assert (parsed_document E dir (identifier, entry) = Some doc) as ->.
      { unfold parsed_document. cbn. by rewrite Hf, Hp. }
      cbn. eexists. split; [done|]. rewrite List.filter_app, length_app. cbn. lia.
    + assert (parsed_document E dir (identifier, entry) = None) as ->.
      { unfold parsed_document. cbn. by rewrite Hf, Hp. }
      cbn. eexists. split; [by rewrite app_nil_r|].
      rewrite !List.filter_app, !length_app. cbn. lia.
  - assert (parsed_document E dir (identifier, entry) = None) as ->.
    { unfold parsed_document. cbn. by rewrite Hf. }
    cbn. eexists. split; [by rewrite app_nil_r|].
    rewrite List.filter_app, length_app. cbn. lia.
Qed.

Lemma load_emd_records_raise records dir e :
  result (load_emd_records E records dir) = Raise e →
  ∃ identifier entry file_name,
    (identifier, entry) ∈ records ∧ file entry = Some file_name ∧
    etree_parse E (dir +:+ "/" +:+ file_name) = Unreadable ∧
    e = OSError (dir +:+ "/" +:+ file_name).
Proof.
  induction records as [|[identifier entry] records IH] using rev_ind; [done|].
  rewrite load_emd_records_snoc, result_bind.
  destruct (result (load_emd_records E records dir)) as [docs|e'] eqn:Hres.
  - intros H. exists identifier, entry.
    destruct (file entry) as [file_name|]; [|done]. exists file_name.
    rewrite result_bind in H. cbn in H.
    destruct (etree_parse E (dir +:+ "/" +:+ file_name)); [done..|].
    injection H as <-. split; [|done]. apply elem_of_app. right. left.
  - intros [= ->]. destruct (IH eq_refl) as (i & en & f & Hin & ?).
    exists i, en, f. split; [|done]. apply elem_of_app. by left.
Qed.

End loading.


(** ** The component content only adds children *)

Section content.
Context (E : env).
Implicit Types (parent r : element) (ns : string).

Local Ltac appended :=
  repeat (eapply grows_trans; [|by apply grows_append]); apply grows_refl.

(** What a builder returns once its checks have passed. *)
Local Ltac check_step :=
  rewrite result_bind, result_checked;
  match goal with
  | |- context [if xml_compatible ?s then _ else _] => destruct (xml_compatible s) eqn:?
  end; [cbv beta iota|done].

Local Ltac returned :=
  let a := fresh "a" in
  intros a; repeat check_step; cbn [result ret snd]; intros [= <-].

Lemma grows_insert_title_and_description parent title year :
  ensures (grows not_temporal_coverage parent)
    (insert_title_and_description E parent title year).
Proof. unfold insert_title_and_description. returned. appended. Qed.

Lemma grows_insert_keywords parent recs ns :
  grows not_temporal_coverage parent (insert_keywords E parent recs ns).
Proof. apply grows_foldl. intros. by apply grows_append. Qed.

Lemma grows_insert_publisher parent recs ns :
  grows not_temporal_coverage parent (insert_publisher E parent recs ns).
Proof. apply grows_foldl. intros. by apply grows_append. Qed.

Lemma post_create_language_component parent code ns :
  post (grows not_temporal_coverage parent) (create_language_component E parent code ns).
Proof.
  unfold create_language_component.
  eapply post_bind with (Q := λ _, True).
  - repeat case_match; try (by apply post_ret); by apply post_log, post_ret.
  - intros [l|] _; apply post_ret; by apply grows_append.
Qed.

Lemma post_insert_languages parent recs ns :
  post (grows not_temporal_coverage parent) (insert_languages E parent recs ns).
Proof. apply post_for_grows. intros. apply post_create_language_component. Qed.

(** The temporal coverage of a record is the one of its year. *)
Lemma insert_temporal_coverage_returns parent year r :
  result (insert_temporal_coverage E parent year) = Return r →
  r = append (record_temporal_coverage E year) parent.
Proof. revert r. unfold insert_temporal_coverage. by returned. Qed.

Lemma grows_insert_countries parent recs ns :
  grows not_temporal_coverage parent (insert_countries E parent recs ns).
Proof. apply grows_foldl. intros. by apply grows_append. Qed.

Lemma grows_insert_licences parent recs ns :
  grows not_temporal_coverage parent (insert_licences E parent recs ns).
Proof.
  unfold insert_licences. case_match; [by apply grows_append|apply grows_refl].
Qed.

Lemma grows_insert_dump_subresource_info parent ns :
  grows not_temporal_coverage parent (insert_dump_subresource_info parent ns).
Proof. apply grows_foldl. intros. by apply grows_append. Qed.

(** The [Subresource] of a labeled reference. *)
Lemma insert_annotation_subresource_info_returns parent record identifier normalized
    l_ref index ns r :
  result (insert_annotation_subresource_info E parent record identifier normalized l_ref
            index ns) = Return r →
  ∃ description,
    r = append
          (Element (QName ns "Subresource")
             [(cmd_ref_attribute, make_ref_xml_id normalized index)] None description)
          parent.
Proof.
  unfold insert_annotation_subresource_info. rewrite result_bind.
  destruct (result (for_ _ _ _)) as [labels|]; [|done]. cbn. intros [= <-]. by eexists.
Qed.

Lemma grows_insert_annotation_subresources parent record identifier normalized index refs ns :
  ensures (grows not_temporal_coverage parent)
    (insert_annotation_subresources E parent record identifier normalized index refs ns).
Proof.
  revert parent index. induction refs as [|l_ref refs IH]; intros parent index;
    cbn [insert_annotation_subresources].
  - apply ensures_ret, grows_refl.
  - eapply ensures_bind with (Q := grows not_temporal_coverage parent).
    + intros r (description & ->)%insert_annotation_subresource_info_returns.
      by apply grows_append.
    + intros r Hr. eapply ensures_mono; [|apply IH]. intros a. by apply grows_trans.
Qed.

Lemma post_normalize_identifier_logged identifier :
  post (λ _, True) (normalize_identifier_logged identifier).
Proof.
  unfold normalize_identifier_logged. case_match; by apply post_log, post_ret.
Qed.

Lemma grows_insert_subresource_info r recs refs ns :
  ensures (grows not_temporal_coverage r) (insert_subresource_info E r recs refs ns).
Proof.
  unfold insert_subresource_info.
  apply ensures_mono
    with (P := grows not_temporal_coverage (insert_dump_subresource_info r ns));
    [intros a; apply grows_trans, grows_insert_dump_subresource_info|].
  apply ensures_for_grows. intros e record _.
  apply ensures_for_grows. intros e' identifier _.
  eapply ensures_bind; [apply ensures_post, post_normalize_identifier_logged|].
  intros normalized _.
  case_match; [apply grows_insert_annotation_subresources|apply ensures_ret, grows_refl].
Qed.

Lemma grows_insert_related_resources parent recs ns :
  grows not_temporal_coverage parent (insert_related_resources E parent recs ns).
Proof.
  apply grows_foldl. intros e record _. cbv beta zeta. case_match; [|apply grows_refl].
  apply grows_foldl. intros. by apply grows_append.
Qed.

Lemma grows_insert_metadata_info parent :
  grows not_temporal_coverage parent (insert_metadata_info E parent).
Proof. by apply grows_append. Qed.

Lemma grows_top P e e' : grows P e e' → grows (λ _, True) e e'.
Proof. by apply grows_mono. Qed.

Lemma ensures_insert_component_content r title year recs refs :
  ensures (λ r', tag r' = tag r) (insert_component_content E r title year recs refs).
Proof.
  apply ensures_mono with (P := grows (λ _, True) r); [by intros ? [? _]|].
  unfold insert_component_content.
  eapply ensures_bind; [apply grows_insert_title_and_description|]. intros r0 H0.
  eapply ensures_bind; [apply ensures_post, post_insert_languages|]. intros r1 H1.
  eapply ensures_bind with (Q := λ r2, r2 = append (record_temporal_coverage E year) r1).
  { intros r2. apply insert_temporal_coverage_returns. }
  intros r2 ->.
  eapply ensures_bind; [apply grows_insert_subresource_info|]. intros r3 H3.
  apply ensures_ret.
  eapply grows_trans; [|eapply grows_top, grows_insert_metadata_info].
  eapply grows_trans; [|eapply grows_top, grows_insert_related_resources].
  eapply grows_trans; [|eapply grows_top, H3].
  eapply grows_trans; [|eapply grows_top, grows_insert_licences].
  eapply grows_trans; [|eapply grows_top, grows_insert_countries].
  eapply grows_trans; [|by apply grows_append].
  eapply grows_trans; [|eapply grows_top, H1].
  eapply grows_trans; [|eapply grows_top, grows_insert_publisher].
  eapply grows_trans; [|eapply grows_top, grows_insert_keywords].
  eapply grows_top, H0.
Qed.

(** *** Collection records *)

Lemma elem_of_sorted (year_files : gmap string string) year :
  year ∈ sorted year_files ↔ is_Some (year_files !! year).
Proof.
  unfold sorted. rewrite merge_sort_Permutation, list_elem_of_fmap. split.
  - intros ([y v] & -> & Hy%elem_of_map_to_list). by exists v.
  - intros [v Hv]. exists (year, v). split; [done|]. by apply elem_of_map_to_list.
Qed.

Lemma post_item (P : string → Prop) (year_files : gmap string string) year :
  year ∈ sorted year_files →
  (∀ v, year_files !! year = Some v → P v) → post P (item year_files year).
Proof.
  intros [v Hv]%elem_of_sorted HP. unfold item. rewrite Hv. apply post_ret. auto.
Qed.

Lemma grows_collection_insert_title_and_description parent title years :
  ensures (grows not_temporal_coverage parent)
    (collection_insert_title_and_description E parent title years).
Proof. unfold collection_insert_title_and_description. returned. appended. Qed.

(** The temporal coverage of a collection is the one from the first to
    the last of its years. *)
Lemma collection_insert_temporal_coverage_returns parent lo hi r :
  result (collection_insert_temporal_coverage E parent lo hi) = Return r →
  r = append (temporal_coverage E lo hi) parent.
Proof. revert r. unfold collection_insert_temporal_coverage. by returned. Qed.

Lemma grows_collection_insert_subresource_info parent title year_files ns :
  ensures (grows not_temporal_coverage parent)
    (collection_insert_subresource_info parent title year_files ns).
Proof.
  unfold collection_insert_subresource_info.
  apply ensures_mono
    with (P := grows not_temporal_coverage (insert_dump_subresource_info parent ns));
    [intros a; apply grows_trans, grows_insert_dump_subresource_info|].
  apply ensures_for_grows. intros e year Hyear.
  eapply ensures_bind; [by apply ensures_post, (post_item (λ _, True))|]. intros _ _.
  returned. by apply grows_append.
Qed.

Lemma covers_intro lo hi r r1 r2 :
  grows not_temporal_coverage r r1 →
  grows not_temporal_coverage (append (temporal_coverage E lo hi) r1) r2 →
  covers E lo hi r r2.
Proof.
  intros [Ht1 (n1 & Hc1 & Hn1)] [Ht2 (n2 & Hc2 & Hn2)]. split; [by rewrite Ht2|].
  exists n1, n2. split; [|done]. rewrite Hc2. cbn. rewrite Hc1.
  by rewrite <- !app_assoc.
Qed.

Lemma ensures_collection_insert_component_content r title sorted_years year_files recs :
  ensures
    (λ r', ∃ lo hi, sorted_years !! 0 = Some lo ∧ last sorted_years = Some hi ∧
                    covers E lo hi r r')
    (collection_insert_component_content E r title sorted_years year_files recs).
Proof.
  unfold collection_insert_component_content.
  eapply ensures_bind; [apply grows_collection_insert_title_and_description|].
  intros r0 H0.
  eapply ensures_bind; [apply ensures_post, post_insert_languages|]. intros r1 H1.
  unfold first_item, last_item.
  destruct (sorted_years !! 0) as [lo|]; [|by intros a; rewrite result_bind].
  rewrite bind_ret.
  destruct (last sorted_years) as [hi|]; [|by intros a; rewrite result_bind].
  rewrite bind_ret.
  eapply ensures_bind with (Q := λ r2, r2 = append (temporal_coverage E lo hi) r1).
  { intros r2. apply collection_insert_temporal_coverage_returns. }
  intros r2 ->.
  eapply ensures_bind; [apply grows_collection_insert_subresource_info|]. intros r3 H3.
  apply ensures_ret. exists lo, hi. split; [done|]. split; [done|].
  eapply covers_intro.
  - eapply grows_trans; [|apply H1].
    eapply grows_trans; [|apply grows_insert_publisher].
    eapply grows_trans; [|apply grows_insert_keywords].
    apply H0.
  - eapply grows_trans; [|apply grows_insert_metadata_info].
    eapply grows_trans; [|apply H3].
    eapply grows_trans; [|apply grows_insert_licences].
    apply grows_insert_countries.
Qed.

End content.

(** ** Header population *)

Section headers.
Context (E : env).

Lemma same_skeleton_refl doc : same_skeleton doc doc.
Proof. by split. Qed.

Lemma same_skeleton_trans d1 d2 d3 :
  same_skeleton d1 d2 → same_skeleton d2 d3 → same_skeleton d1 d3.
Proof.
  intros [Hx1 Hc1] [Hx2 Hc2]. split.
  - intros path Hp. by rewrite Hx2, Hx1.
  - intros q Hq. by rewrite Hc2, Hc1.
Qed.

(** An update of a grandchild of the root that keeps its tag and its
    children. *)
Lemma same_skeleton_update doc p x f :
  get p doc = Some x → length p = 2 →
  tag (f x) = tag x → children (f x) = children x →
  same_skeleton doc (update p f doc).
Proof.
  intros Hx Hlen Ht Hc. split.
  - intros path Hpath. eapply xpath_update; [done..|lia].
  - intros q Hq. destruct (decide (q = p)) as [->|Hne].
    + rewrite (get_update_eq _ _ _ _ Hx), Hx. cbn. by rewrite Hc.
    + by rewrite get_update_ne; [|congruence|].
Qed.

Lemma header_path_length field : length (header_path field) = 3.
Proof. done. Qed.

Lemma same_skeleton_header doc field v :
  same_skeleton doc
    match xpath doc (header_path field) with
    | p :: _ => update p (set_text v) doc
    | [] => doc
    end.
Proof.
  destruct (xpath doc (header_path field)) as [|p l] eqn:Hp; [apply same_skeleton_refl|].
  assert (p ∈ xpath doc (header_path field)) as Hin by (rewrite Hp; left).
  apply xpath_get in Hin as (x & Hx & Hlen & _). rewrite header_path_length in Hlen.
  eapply same_skeleton_update; [done|lia|done..].
Qed.

Lemma same_skeleton_with_header_text doc field v :
  same_skeleton doc (with_header_text field v doc).
Proof. apply same_skeleton_header. Qed.

Lemma xpath_with_header_text doc field v other :
  xpath (with_header_text field v doc) (header_path other) = xpath doc (header_path other).
Proof. by apply same_skeleton_with_header_text. Qed.

Lemma same_skeleton_with_headers doc collection_id record_file_name :
  same_skeleton doc (with_headers E collection_id record_file_name doc).
Proof.
  unfold with_headers.
  destruct (xpath doc (header_path "MdCreationDate"));
    repeat (eapply same_skeleton_trans; [|apply same_skeleton_with_header_text]);
    apply same_skeleton_refl.
Qed.

(** [set_metadata_headers] fails for want of the self-link placeholder,
    or because lxml refuses the self link or the display name, or it
    returns the document with its header texts. It writes no log line. *)
Lemma set_metadata_headers_cases doc collection_id record_file_name :
  (xpath doc (header_path "MdCreationDate") ≠ [] ∧
   xpath doc (header_path "MdSelfLink") = [] ∧
   set_metadata_headers E doc collection_id record_file_name
   = ([], Raise (IndexError "selflink_header[0]")))
  ∨
  (selflink_with_creation_date doc ∧
   ¬ texts_accepted
       [CMDI_RECORDS_BASE_URL E +:+ "/" +:+ collection_id +:+ "/" +:+ record_file_name;
        COLLECTION_DISPLAY_NAME E] ∧
   set_metadata_headers E doc collection_id record_file_name = ([], Raise ValueError))
  ∨
  (selflink_with_creation_date doc ∧
   set_metadata_headers E doc collection_id record_file_name
   = ([], Return (with_headers E collection_id record_file_name doc))).
Proof.
  unfold set_metadata_headers, selflink_with_creation_date, with_headers.
  fold (with_header_text "MdCreator" (script_basename E) doc).
  set (d1 := with_header_text "MdCreator" (script_basename E) doc).
  fold (with_header_text "MdCreationDate" (today_string E) d1).
  set (d2 := with_header_text "MdCreationDate" (today_string E) d1).
  set (link := CMDI_RECORDS_BASE_URL E +:+ "/" +:+ collection_id +:+ "/"
               +:+ record_file_name).
  assert (∀ other, xpath d2 (header_path other) = xpath doc (header_path other)) as X2.
  { intros other. unfold d2, d1. by rewrite !xpath_with_header_text. }
  assert (∀ d,
            (∀ other, xpath d (header_path other) = xpath doc (header_path other)) →
            match xpath d (header_path "MdCollectionDisplayName") with
            | p :: _ =>
                name <- checked (COLLECTION_DISPLAY_NAME E) ;;
                ret (update p (set_text name) d)
            | [] => ret d
            end
            = if xml_compatible (COLLECTION_DISPLAY_NAME E)
              then ret (with_header_text "MdCollectionDisplayName"
                          (COLLECTION_DISPLAY_NAME E) d)
              else if decide (xpath doc (header_path "MdCollectionDisplayName") = [])
                   then ret (with_header_text "MdCollectionDisplayName"
                               (COLLECTION_DISPLAY_NAME E) d)
                   else raise ValueError) as Hname.
  { intros d Xd. unfold with_header_text, checked. rewrite <- Xd.
    destruct (xpath d (header_path "MdCollectionDisplayName")) as [|p l];
      destruct (xml_compatible (COLLECTION_DISPLAY_NAME E)); by try rewrite bind_ret. }
  assert (xpath d1 (header_path "MdCreationDate")
          = xpath doc (header_path "MdCreationDate")) as ->
    by (unfold d1; apply xpath_with_header_text).
  rewrite (X2 "MdSelfLink").
  destruct (xpath doc (header_path "MdCreationDate")) as [|pd ld] eqn:Hd.
  - rewrite bind_ret, (Hname d2 X2).
    destruct (xml_compatible (COLLECTION_DISPLAY_NAME E)) eqn:Hn; [by right; right|].
    case_decide as Hc; [by right; right|]. right. left. split; [done|]. split; [|done].
    intros Hall. apply Forall_cons in Hall as [_ [Hall _]%Forall_cons]. congruence.
  - destruct (xpath doc (header_path "MdSelfLink")) as [|ps ls] eqn:Hs; [by left|].
    right. destruct (xml_compatible link) eqn:Hl.
    2:{ rewrite (checked_refused _ Hl). left. split; [done|]. split; [|done].
        intros [Hall _]%Forall_cons. congruence. }
    rewrite (checked_accepted _ Hl), !bind_ret.
    {
      assert (update ps (set_text link) d2 = with_header_text "MdSelfLink" link d2) as ->.
      { unfold with_header_text. by rewrite (X2 "MdSelfLink"), Hs. }
      rewrite Hname by (intros other; by rewrite xpath_with_header_text).
      destruct (xml_compatible (COLLECTION_DISPLAY_NAME E)) eqn:Hn; [by right|].
      case_decide as Hc; [by right|]. left. split; [done|]. split; [|done].
      intros Hall. apply Forall_cons in Hall as [_ [Hall _]%Forall_cons]. congruence. }
Qed.

Lemma logs_set_metadata_headers doc collection_id record_file_name :
  logs (set_metadata_headers E doc collection_id record_file_name) = [].
Proof.
  by destruct (set_metadata_headers_cases doc collection_id record_file_name)
    as [(_ & _ & ->)|[(_ & _ & ->)|(_ & ->)]].
Qed.

Lemma set_metadata_headers_accepted doc collection_id record_file_name :
  selflink_with_creation_date doc →
  texts_accepted
    [CMDI_RECORDS_BASE_URL E +:+ "/" +:+ collection_id +:+ "/" +:+ record_file_name;
     COLLECTION_DISPLAY_NAME E] →
  set_metadata_headers E doc collection_id record_file_name
  = ret (with_headers E collection_id record_file_name doc).
Proof.
  intros Hsl Hall.
  by destruct (set_metadata_headers_cases doc collection_id record_file_name)
    as [(Hd & Hs & _)|[(_ & Hno & _)|(_ & ->)]]; [destruct (Hsl Hd)|..].
Qed.

End headers.

(** C3 at the failing input: the self-link step is guarded by the result of
    the creation-date query, so for a template that has the creation date
    placeholder and lacks the self-link placeholder it indexes an empty list
    instead of being skipped. *)
Theorem set_metadata_headers_without_selflink (E : env) collection_id record_file_name :
  xpath (record_template header_without_selflink) (header_path "MdCreationDate") ≠ [] ∧
  xpath (record_template header_without_selflink) (header_path "MdSelfLink") = [] ∧
  set_metadata_headers E (record_template header_without_selflink) collection_id
    record_file_name
  = ([], Raise (IndexError "selflink_header[0]")).
Proof. repeat split; done. Qed.

(** The same for every template of that kind. *)
Lemma set_metadata_headers_raises (E : env) doc collection_id record_file_name :
  xpath doc (header_path "MdCreationDate") ≠ [] →
  xpath doc (header_path "MdSelfLink") = [] →
  set_metadata_headers E doc collection_id record_file_name
  = ([], Raise (IndexError "selflink_header[0]")).
Proof.
  intros Hd Hs.
  destruct (set_metadata_headers_cases E doc collection_id record_file_name)
    as [(_ & _ & H)|[(H & _)|(H & _)]]; [done|by destruct (H Hd)..].
Qed.


(** ** Resource proxies *)

Section proxies.
Context (E : env).

Lemma extend_nil e : extend [] e = e.
Proof. destruct e. unfold extend, set_children. cbn. by rewrite app_nil_r. Qed.

Lemma extend_extend n1 n2 e : extend n2 (extend n1 e) = extend (n1 ++ n2) e.
Proof. unfold extend, set_children. cbn. by rewrite app_assoc. Qed.

Lemma tag_extend new e : tag (extend new e) = tag e.
Proof. done. Qed.

Lemma children_extend new e : children (extend new e) = children e ++ new.
Proof. done. Qed.

Lemma bind_raise {A B} e (f : A → M B) : bind (raise e) f = raise e.
Proof. done. Qed.

(** A builder that only makes checks returns the list with its new
    elements when lxml accepts them, and raises [ValueError] otherwise. *)
Lemma insert_resource_proxy_extend parent proxy_id resource_type ref media_type :
  insert_resource_proxy parent proxy_id resource_type ref media_type
  = if accepted (resource_proxy proxy_id resource_type ref media_type)
    then ret (extend [resource_proxy proxy_id resource_type ref media_type] parent)
    else raise ValueError.
Proof.
  unfold insert_resource_proxy, checked, resource_proxy, leaf.
  cbn [accepted forallb from_option snd].
  destruct media_type as [m|]; cbn [forallb snd];
    repeat match goal with
      | |- context [xml_compatible ?s] => destruct (xml_compatible s)
      end; done.
Qed.

Lemma for_extend {A} (xs : list A) (g : A → list element) body l :
  (∀ l x, x ∈ xs →
          body l x = if forallb accepted (g x) then ret (extend (g x) l)
                     else raise ValueError) →
  for_ xs body l = if forallb accepted (xs ≫= g) then ret (extend (xs ≫= g) l)
                   else raise ValueError.
Proof.
  revert l. induction xs as [|x xs IH]; intros l H.
  { cbn. by rewrite extend_nil. }
  cbn [for_]. rewrite bind_cons, forallb_app, H by left.
  destruct (forallb accepted (g x)); [|done].
  rewrite bind_ret, IH by (intros; apply H; by right). cbn [andb].
  by rewrite extend_extend.
Qed.

Lemma insert_fixed_proxies_extend l collection_id :
  insert_fixed_proxies E l collection_id
  = if forallb accepted (fixed_proxies E collection_id)
    then ret (extend (fixed_proxies E collection_id) l)
    else raise ValueError.
Proof.
  unfold insert_fixed_proxies, fixed_proxies. rewrite insert_resource_proxy_extend.
  cbn [forallb]. destruct (accepted (resource_proxy LANDING_PAGE_ID _ _ _)); [|done].
  rewrite bind_ret, insert_resource_proxy_extend.
  destruct (accepted (resource_proxy EDM_DUMP_PROXY_ID _ _ _)); [|done].
  rewrite bind_ret, insert_resource_proxy_extend.
  destruct (accepted (resource_proxy ALTO_DUMP_PROXY_ID _ _ _)); [|done].
  by rewrite !extend_extend.
Qed.

Lemma insert_record_proxies_extend l record_id index record_refs :
  insert_record_proxies l record_id index record_refs
  = let proxies :=
      imap (λ i (l_ref : labeled_ref),
              resource_proxy (make_ref_xml_id record_id (S (index + i))) "Resource"
                l_ref.1 None)
        record_refs in
    if forallb accepted proxies then ret (extend proxies l) else raise ValueError.
Proof.
  cbv zeta. revert l index. induction record_refs as [|r refs IH]; intros l index.
  - cbn. by rewrite extend_nil.
  - cbn [insert_record_proxies imap forallb]. rewrite insert_resource_proxy_extend.
    rewrite Nat.add_0_r.
    destruct (accepted (resource_proxy (make_ref_xml_id record_id (S index)) _ _ _));
      [|done].
    rewrite bind_ret, IH, extend_extend. cbn [andb app].
    assert (imap (λ i (l_ref : labeled_ref),
                    resource_proxy (make_ref_xml_id record_id (S (S index + i))) "Resource"
                      l_ref.1 None) refs
            = imap ((λ i (l_ref : labeled_ref),
                       resource_proxy (make_ref_xml_id record_id (S (index + i))) "Resource"
                         l_ref.1 None) ∘ S) refs) as ->; [|done].
    apply imap_ext. intros i x _. cbn. by rewrite Nat.add_succ_r.
Qed.

Lemma insert_resource_proxies_extend l collection_id labeled_refs :
  insert_resource_proxies E l collection_id labeled_refs
  = if forallb accepted (fixed_proxies E collection_id ++ annotation_proxies labeled_refs)
    then ret (extend (fixed_proxies E collection_id ++ annotation_proxies labeled_refs) l)
    else raise ValueError.
Proof.
  unfold insert_resource_proxies. rewrite insert_fixed_proxies_extend, forallb_app.
  destruct (forallb accepted (fixed_proxies E collection_id)); [|done].
  rewrite bind_ret. cbn [andb].
  rewrite (for_extend labeled_refs
             (λ '(record_id, record_refs),
                imap (λ i (l_ref : labeled_ref),
                        resource_proxy (xml_id (id record_id +:+ "_anno" +:+ str_of_nat (S i)))
                          "Resource" l_ref.1 None)
                  record_refs)).
  - fold (annotation_proxies_by id labeled_refs). fold (annotation_proxies labeled_refs).
    by rewrite extend_extend.
  - intros l' [record_id record_refs] _. by rewrite insert_record_proxies_extend.
Qed.

Lemma collection_insert_resource_proxies_extend l year_files collection_id :
  collection_insert_resource_proxies E l year_files collection_id
  = if forallb accepted
         (fixed_proxies E collection_id ++ year_proxies E collection_id year_files)
    then ret (extend (fixed_proxies E collection_id
                      ++ year_proxies E collection_id year_files) l)
    else raise ValueError.
Proof.
  unfold collection_insert_resource_proxies.
  rewrite insert_fixed_proxies_extend, forallb_app.
  destruct (forallb accepted (fixed_proxies E collection_id)); [|done].
  rewrite bind_ret. cbn [andb].
  rewrite (for_extend (sorted year_files)
             (λ year,
                [resource_proxy (xml_id year) "Metadata"
                   (CMDI_RECORDS_BASE_URL E +:+ "/" +:+ collection_id +:+ "/"
                    +:+ (year_files !!! year)) None])).
  - assert (∀ (f : string → element) (ys : list string),
              ys ≫= (λ y, [f y]) = f <$> ys) as Hfmap.
    { intros f ys. induction ys as [|y ys IH]; [done|]. by rewrite bind_cons, IH. }
    rewrite Hfmap. fold (year_proxies E collection_id year_files).
    by rewrite extend_extend.
  - intros l' year [v Hv]%elem_of_sorted. unfold item. rewrite Hv, bind_ret.
    rewrite insert_resource_proxy_extend, (lookup_total_correct _ _ _ Hv).
    cbn [forallb]. by rewrite andb_true_r.
Qed.

End proxies.


(** ** A template with its proxy list filled *)

Section filling.
Implicit Types (doc template : element) (p q : ref) (new : list element).

Lemma update_ext p (f g : element → element) e :
  (∀ x, get p e = Some x → f x = g x) → update p f e = update p g e.
Proof.
  revert e. induction p as [|i p IH]; intros e H; cbn; [by apply H|].
  f_equal. apply list_alter_ext; [|done]. intros c Hc. apply IH. intros x Hx. apply H.
  cbn. by rewrite Hc.
Qed.

Lemma resource_proxies_single doc p x :
  xpath doc proxy_list_path = [p] → get p doc = Some x → resource_proxies doc = children x.
Proof.
  intros Hp Hx. unfold resource_proxies. rewrite Hp. cbn.
  by rewrite (node_get _ _ _ Hx), app_nil_r.
Qed.

Lemma xpath_single doc path p :
  xpath doc path = [p] →
  ∃ x, get p doc = Some x ∧ S (length p) = length path ∧
       ∀ t, last path = Some t → length p = 0 ∨ tag x = t.
Proof. intros H. apply xpath_get. rewrite H. left. Qed.

Lemma length_one {A} (l : list A) : length l = 1 → ∃ x, l = [x].
Proof. destruct l as [|x [|??]]; try done. by exists x. Qed.

(** The copy of the template after the header population and the
    insertion of the proxies [new]. *)
Lemma filled_skeleton template doc p new :
  same_skeleton template doc → xpath template proxy_list_path = [p] →
  length p = 2 ∧
  (∃ x, get p doc = Some x) ∧
  update p (λ _, extend new (node doc p)) doc = with_proxies new p doc ∧
  (∀ path, length path ≤ 3 → xpath (with_proxies new p doc) path = xpath template path) ∧
  resource_proxies (with_proxies new p doc) = resource_proxies template ++ new.
Proof.
  intros [Sx Sc] Hp.
  destruct (xpath_single _ _ _ Hp) as (tp & Htp & Hlp & _). cbn in Hlp.
  pose proof (Sc p ltac:(lia)) as Scp. rewrite Htp in Scp.
  destruct (get p doc) as [xp|] eqn:Hxp; [|done]. cbn in Scp. injection Scp as Scp.
  assert (∀ path, length path ≤ 3 →
                  xpath (with_proxies new p doc) path = xpath template path) as Hx.
  { intros path Hpath. unfold with_proxies.
    erewrite xpath_update; [by apply Sx|exact Hxp|done|lia]. }
  split; [lia|]. split; [by exists xp|]. split; [|split; [done|]].
  - apply update_ext. intros x Hx'. by rewrite (node_get _ _ _ Hxp), Hx' in *; simplify_eq.
  - rewrite (resource_proxies_single _ p (extend new xp)).
    + by rewrite children_extend, Scp, (resource_proxies_single _ _ _ Hp Htp).
    + by rewrite Hx, Hp.
    + exact (get_update_eq p (extend new) doc xp Hxp).
Qed.

(** The components root of the filled copy is the one of the template. *)
Lemma filled_root template doc p new a b t q :
  same_skeleton template doc → xpath template proxy_list_path = [p] →
  local t ≠ "ResourceProxyList" → xpath template [a; b; t] = [q] →
  p ≠ q ∧ length p = 2 ∧ length q = 2 ∧
  ∃ xq, get q (with_proxies new p doc) = Some xq ∧
        tag xq = tag (node template q) ∧ children xq = children (node template q).
Proof.
  intros [Sx Sc] Hp Ht Hq.
  destruct (xpath_single _ _ _ Hp) as (tp & Htp & Hlp & Htagp).
  destruct (xpath_single _ _ _ Hq) as (tq & Htq & Hlq & Htagq).
  cbn in Hlp, Hlq.
  assert (Hne : p ≠ q).
  { intros ->. destruct (Htagp _ eq_refl) as [?|Ht1]; [lia|].
    destruct (Htagq _ eq_refl) as [?|Ht2]; [lia|].
    rewrite Htp in Htq. injection Htq as <-. rewrite Ht1 in Ht2. subst t. by destruct Ht. }
  split; [done|]. split; [lia|]. split; [lia|].
  pose proof (Sc q ltac:(lia)) as Scq. rewrite Htq in Scq.
  destruct (get q doc) as [xq|] eqn:Hxq; [|done]. cbn in Scq. injection Scq as Scq.
  exists xq. split; [unfold with_proxies; rewrite get_update_ne; [done|lia|done]|].
  rewrite (node_get _ _ _ Htq). split; [|done].
  assert (q ∈ xpath doc [a; b; t]) as Hin by (rewrite Sx, Hq by done; left).
  apply xpath_get in Hin as (xq' & Hxq' & _ & Htag').
  rewrite Hxq in Hxq'. injection Hxq' as <-.
  destruct (Htag' _ eq_refl) as [?| ->]; [lia|].
  destruct (Htagq _ eq_refl) as [?| ->]; [lia|done].
Qed.

(** The document: the filled copy with the content [root] in the place
    of its components root. *)
Lemma filled_document doc p q xq root :
  xpath doc proxy_list_path = [p] → get q doc = Some xq → tag root = tag xq →
  p ≠ q → length p = 2 → length q = 2 →
  (∀ path, length path ≤ 3 → xpath (update q (λ _, root) doc) path = xpath doc path) ∧
  resource_proxies (update q (λ _, root) doc) = resource_proxies doc ∧
  node (update q (λ _, root) doc) q = root.
Proof.
  intros Hp Hxq Ht Hne Hlp Hlq.
  assert (∀ path, length path ≤ 3 →
                  xpath (update q (λ _, root) doc) path = xpath doc path) as Hx.
  { intros path Hpath. erewrite xpath_update; [done|exact Hxq|done|lia]. }
  split; [done|]. split.
  - destruct (xpath_single _ _ _ Hp) as (xp & Hxp & _).
    rewrite (resource_proxies_single _ _ _ Hp Hxp).
    apply (resource_proxies_single _ p xp); [by rewrite Hx, Hp|].
    rewrite get_update_ne; [done|lia|done].
  - apply node_get. exact (get_update_eq q (λ _, root) doc xq Hxq).
Qed.

End filling.

(** ** Record-level builds *)

Section record.
Context (E : env).

Lemma post_retrieve_iiif_annotation_refs records :
  post (λ refs, dict.keys refs ⊆ dict.keys records)
    (retrieve_iiif_annotation_refs E records).
Proof.
  apply post_for; [apply list_subseteq_nil|].
  intros acc [identifier entry] Hin Hacc. cbv beta iota zeta.
  destruct (manifest_urls entry) as [urls|]; [|by apply post_log, post_ret].
  case_match; apply post_ret; [|done].
  rewrite keys_set. case_decide; [done|].
  intros k [?| ->%list_elem_of_singleton]%elem_of_app; [by apply Hacc|].
  apply list_elem_of_fmap. by exists (identifier, entry).
Qed.

Lemma retrieve_iiif_annotation_refs_values records :
  post (Forall (λ kv : string * list labeled_ref, kv.2 ≠ []))
    (retrieve_iiif_annotation_refs E records).
Proof.
  apply post_for; [constructor|].
  intros acc [identifier entry] _ Hacc. cbv beta iota zeta.
  destruct (manifest_urls entry) as [urls|]; [|by apply post_log, post_ret].
  case_match eqn:Hlen; apply post_ret; [|done].
  apply Forall_set; [done|]. cbn. intros Hnil. by rewrite Hnil in Hlen.
Qed.

Lemma retrieve_iiif_annotation_refs_none records :
  no_manifest_urls records → result (retrieve_iiif_annotation_refs E records) = Return [].
Proof.
  intros Hall. unfold retrieve_iiif_annotation_refs.
  generalize (@nil (string * list labeled_ref)).
  induction Hall as [|[identifier entry] records [H|H] _ IH]; intros acc; [done|..];
    cbn [for_]; cbn in H; rewrite result_bind, H; cbn; apply IH.
Qed.

Lemma retrieve_iiif_annotation_refs_returns records :
  ∃ lr refs, retrieve_iiif_annotation_refs E records = (lr, Return refs).
Proof.
  destruct (post_retrieve_iiif_annotation_refs records) as (refs & Hrefs & _).
  destruct (retrieve_iiif_annotation_refs E records) as [lr o]. cbn in Hrefs. subst.
  by exists lr, refs.
Qed.

Lemma post_load_emd_records records dir :
  files_readable E records dir → post (λ _, True) (load_emd_records E records dir).
Proof.
  intros Hr. apply post_for; [done|]. intros acc [identifier entry] Hin _.
  cbv beta iota zeta.
  destruct (file entry) as [file_name|] eqn:Hf; [|by apply post_log, post_ret].
  apply post_log. pose proof (proj1 (Forall_forall _ _) Hr _ Hin file_name Hf) as Hne.
  destruct (etree_parse E (dir +:+ "/" +:+ file_name));
    [by apply post_ret|by apply post_log, post_ret|done].
Qed.

Lemma load_emd_records_returns records dir docs :
  result (load_emd_records E records dir) = Return docs → files_readable E records dir.
Proof.
  revert docs. induction records as [|[identifier entry] records IH] using rev_ind;
    intros docs; [by constructor|].
  rewrite load_emd_records_snoc, result_bind.
  destruct (result (load_emd_records E records dir)) as [docs0|] eqn:Hres; [|done].
  intros H. apply Forall_app. split; [by eapply IH|].
  apply Forall_cons. split; [|constructor]. intros file_name Hf Hu. cbn in Hf.
  rewrite Hf, result_bind in H. cbn in H. by rewrite Hu in H.
Qed.

Lemma load_emd_records_raises records dir e :
  result (load_emd_records E records dir) = Raise e →
  ¬ files_readable E records dir ∧ ∃ path, e = OSError path.
Proof.
  intros (identifier & entry & file_name & Hin & Hf & Hu & ->)%load_emd_records_raise.
  split; [|by eexists]. intros Hr.
  exact (proj1 (Forall_forall _ _) Hr _ Hin file_name Hf Hu).
Qed.

Lemma selflink_with_creation_date_dec template :
  selflink_with_creation_date template ∨
  (xpath template (header_path "MdCreationDate") ≠ [] ∧
   xpath template (header_path "MdSelfLink") = []).
Proof.
  unfold selflink_with_creation_date.
  destruct (xpath template (header_path "MdSelfLink")); [|by left].
  destruct (xpath template (header_path "MdCreationDate")); [by left|by right].
Qed.

(** What header population returns, when it returns. *)
Lemma set_metadata_headers_returns doc collection_id record_file_name doc' :
  result (set_metadata_headers E doc collection_id record_file_name) = Return doc' →
  selflink_with_creation_date doc ∧ doc' = with_headers E collection_id record_file_name doc.
Proof.
  destruct (set_metadata_headers_cases E doc collection_id record_file_name)
    as [(_ & _ & ->)|[(_ & _ & ->)|(Hsl & ->)]]; [done..|].
  by intros [= <-].
Qed.

Lemma set_metadata_headers_raises_only doc collection_id record_file_name e :
  result (set_metadata_headers E doc collection_id record_file_name) = Raise e →
  (e = IndexError "selflink_header[0]" ∧ ¬ selflink_with_creation_date doc)
  ∨ (e = ValueError ∧ selflink_with_creation_date doc).
Proof.
  destruct (set_metadata_headers_cases E doc collection_id record_file_name)
    as [(Hd & Hs & ->)|[(Hsl & _ & ->)|(Hsl & ->)]]; [| |done].
  - intros [= <-]. left. split; [done|]. intros Hsl. by destruct (Hsl Hd).
  - intros [= <-]. by right.
Qed.

(** The outcome of a record-level build when there are references. *)
Lemma make_cmdi_record_result record_file_name template collection_id title year records
    metadata_dir lr refs
    (new := fixed_proxies E collection_id ++ annotation_proxies refs)
    (doc1 := with_headers E collection_id record_file_name template) :
  retrieve_iiif_annotation_refs E records = (lr, Return refs) → refs ≠ [] →
  result (make_cmdi_record E record_file_name template collection_id title year records
            metadata_dir)
  = match result (set_metadata_headers E template collection_id record_file_name) with
    | Raise e => Raise e
    | Return _ =>
        match xpath template proxy_list_path with
        | [p] =>
            if forallb accepted new then
              match xpath template (record_components_path E) with
              | [q] =>
                  match result (load_emd_records E records metadata_dir) with
                  | Return recs =>
                      match result (insert_component_content E
                                      (node (with_proxies new p doc1) q) title year recs
                                      refs) with
                      | Return root =>
                          Return (Some (update q (λ _, root) (with_proxies new p doc1)))
                      | Raise e => Raise e
                      end
                  | Raise e => Raise e
                  end
              | _ => Return None
              end
            else Raise ValueError
        | _ => Return None
        end
    end.
Proof.
  intros Hrefs Hne. unfold make_cmdi_record. rewrite Hrefs, result_bind.
  cbn [result snd]. destruct refs as [|r refs]; [done|]. cbn [length Nat.eqb].
  rewrite result_bind.
  destruct (result (set_metadata_headers E template collection_id record_file_name))
    as [d|e] eqn:Hh; [|done].
  apply set_metadata_headers_returns in Hh as [_ ->]. fold doc1.
  pose proof (same_skeleton_with_headers E template collection_id record_file_name) as S.
  fold doc1 in S. rewrite (proj1 S proxy_list_path) by done.
  destruct (xpath template proxy_list_path) as [|p [|??]] eqn:Hp;
    [by rewrite result_bind| |by rewrite result_bind].
  destruct (filled_skeleton template doc1 p new S Hp) as (_ & _ & Hup & Hx & _).
  rewrite insert_resource_proxies_extend. fold new.
  destruct (forallb accepted new); [|done]. rewrite bind_ret, Hup, Hx by done.
  destruct (xpath template (record_components_path E)) as [|q [|??]];
    [by rewrite result_bind| |by rewrite result_bind].
  rewrite result_bind.
  destruct (result (load_emd_records E records metadata_dir)) as [recs|e]; [|done].
  rewrite result_bind.
  by destruct (result (insert_component_content E _ title year recs (r :: refs))).
Qed.

(** The log of a record-level build that returns no document although
    there are references. *)
Lemma make_cmdi_record_shape_log record_file_name template collection_id title year
    records metadata_dir lr refs :
  retrieve_iiif_annotation_refs E records = (lr, Return refs) → refs ≠ [] →
  result (make_cmdi_record E record_file_name template collection_id title year records
            metadata_dir) = Return None →
  logs (make_cmdi_record E record_file_name template collection_id title year records
          metadata_dir) = lr ++ [shape_error].
Proof.
  intros Hrefs Hne. unfold make_cmdi_record. rewrite Hrefs, result_bind, logs_bind.
  cbn [result logs fst snd]. destruct refs as [|r refs]; [done|]. cbn [length Nat.eqb].
  rewrite result_bind, logs_bind, logs_set_metadata_headers.
  destruct (result (set_metadata_headers E template collection_id record_file_name))
    as [d|e]; [|done]. cbn [app].
  destruct (xpath d proxy_list_path) as [|p [|??]]; [done| |done].
  rewrite insert_resource_proxies_extend.
  destruct (forallb accepted _); [|done]. rewrite bind_ret.
  destruct (xpath _ (record_components_path E)) as [|q [|??]]; [done| |done].
  rewrite result_bind.
  destruct (result (load_emd_records E records metadata_dir)) as [recs|e]; [|done].
  rewrite result_bind.
  by destruct (result (insert_component_content E _ title year recs (r :: refs))).
Qed.

(** What a record-level build that returns a document has done. *)
Lemma make_cmdi_record_returns record_file_name template collection_id title year records
    metadata_dir doc :
  result (make_cmdi_record E record_file_name template collection_id title year records
            metadata_dir) = Return (Some doc) →
  ∃ refs p q cmdi_file xq recs root,
    result (retrieve_iiif_annotation_refs E records) = Return refs ∧ refs ≠ [] ∧
    selflink_with_creation_date template ∧
    xpath template proxy_list_path = [p] ∧
    xpath template (record_components_path E) = [q] ∧
    forallb accepted (fixed_proxies E collection_id ++ annotation_proxies refs) = true ∧
    (∀ path, length path ≤ 3 → xpath cmdi_file path = xpath template path) ∧
    resource_proxies cmdi_file
    = resource_proxies template ++ fixed_proxies E collection_id ++ annotation_proxies refs ∧
    get q cmdi_file = Some xq ∧
    tag xq = tag (node template q) ∧ children xq = children (node template q) ∧
    p ≠ q ∧ length p = 2 ∧ length q = 2 ∧
    result (load_emd_records E records metadata_dir) = Return recs ∧
    result (insert_component_content E xq title year recs refs) = Return root ∧
    doc = update q (λ _, root) cmdi_file.
Proof.
  destruct (retrieve_iiif_annotation_refs_returns records) as (lr & refs & Hrefs).
  destruct refs as [|r refs].
  { unfold make_cmdi_record. by rewrite Hrefs. }
  rewrite (make_cmdi_record_result _ _ _ _ _ _ _ lr (r :: refs) Hrefs) by done.
  destruct (result (set_metadata_headers E template collection_id record_file_name))
    as [d|e] eqn:Hh; [|done].
  apply set_metadata_headers_returns in Hh as [Hsl _].
  destruct (xpath template proxy_list_path) as [|p [|??]] eqn:Hp; [done| |done].
  destruct (forallb accepted _) eqn:Hacc; [|done].
  destruct (xpath template (record_components_path E)) as [|q [|??]] eqn:Hq;
    [done| |done].
  destruct (result (load_emd_records E records metadata_dir)) as [recs|e] eqn:Hl; [|done].
  destruct (result (insert_component_content E _ title year recs (r :: refs)))
    as [root|e] eqn:Hroot; [|done].
  intros [= <-].
  pose proof (same_skeleton_with_headers E template collection_id record_file_name) as S.
  destruct (filled_skeleton template _ p
              (fixed_proxies E collection_id ++ annotation_proxies (r :: refs)) S Hp)
    as (_ & _ & _ & Hx & Hproxies).
  destruct (filled_root template _ p
              (fixed_proxies E collection_id ++ annotation_proxies (r :: refs))
              (cmd "CMD") (cmd "Components") (cmdp E "TextResource") q S Hp ltac:(done) Hq)
    as (Hpq & Hlp & Hlq & xq & Hxq & Htq & Hcq).
  rewrite (node_get _ _ _ Hxq) in Hroot.
  eexists (r :: refs), p, q, _, xq, recs, root.
  split; [by rewrite Hrefs|]. split; [done|]. split; [done|]. split; [done|].
  split; [done|]. split; [done|]. split; [exact Hx|]. split; [exact Hproxies|].
  done.
Qed.

(** What a record-level build that returns a document has done to the
    proxy list. *)
Lemma make_cmdi_record_proxies record_file_name template collection_id title year records
    metadata_dir doc :
  result (make_cmdi_record E record_file_name template collection_id title year records
            metadata_dir) = Return (Some doc) →
  ∃ labeled_refs,
    result (retrieve_iiif_annotation_refs E records) = Return labeled_refs ∧
    dict.keys labeled_refs ⊆ dict.keys records ∧
    resource_proxies doc
    = resource_proxies template ++ fixed_proxies E collection_id
      ++ annotation_proxies labeled_refs.
Proof.
  intros (refs & p & q & cmdi & xq & recs & root & Hrefs & Hne & Hsl & Hp & Hq & Hacc & Hx
          & Hproxies & Hxq & Htq & Hcq & Hpq & Hlp & Hlq & Hl & Hroot & ->)
           %make_cmdi_record_returns.
  exists refs. split; [done|]. split.
  { by apply (post_result _ _ _ (post_retrieve_iiif_annotation_refs records)). }
  rewrite <- Hproxies.
  apply (filled_document cmdi p q xq root); try done.
  - by rewrite Hx.
  - by apply (ensures_insert_component_content E xq title year recs refs).
Qed.

End record.


(** ** Claims about record-level builds *)

(** C2: when the resolved references are empty the record-level build logs
    the skip and returns no document (it does not raise); this is the case
    in particular when no identifier of the records map has manifest URLs. *)
Theorem make_cmdi_record_skips (E : env) record_file_name template collection_id title year
    records metadata_dir :
  (result (retrieve_iiif_annotation_refs E records) = Return [] →
   result (make_cmdi_record E record_file_name template collection_id title year records
             metadata_dir) = Return None ∧
   last (logs (make_cmdi_record E record_file_name template collection_id title year records
                 metadata_dir)) = Some (skip_warning title year)) ∧
  (no_manifest_urls records →
   result (make_cmdi_record E record_file_name template collection_id title year records
             metadata_dir) = Return None ∧
   last (logs (make_cmdi_record E record_file_name template collection_id title year records
                 metadata_dir)) = Some (skip_warning title year)).
Proof.
  assert (result (retrieve_iiif_annotation_refs E records) = Return [] →
          result (make_cmdi_record E record_file_name template collection_id title year records
                    metadata_dir) = Return None ∧
          last (logs (make_cmdi_record E record_file_name template collection_id title year
                        records metadata_dir)) = Some (skip_warning title year)) as Hskip.
  { unfold make_cmdi_record.
    destruct (retrieve_iiif_annotation_refs E records) as [l o]. cbn. intros ->. cbn.
    split; [done|]. apply last_snoc. }
  split; [done|]. intros H. by apply Hskip, retrieve_iiif_annotation_refs_none.
Qed.

Lemma make_cmdi_record_skips_witness :
  no_manifest_urls records_without_manifests ∧
  result (make_cmdi_record example_env "record.xml" (record_template example_header) "9200396"
            "Example Gazette" "1920" records_without_manifests "/metadata") = Return None.
Proof.
  assert (no_manifest_urls records_without_manifests) as H.
  { apply Forall_cons. split; [by right|]. apply Forall_cons. split; [by left|]. constructor. }
  split; [exact H|].
  exact (proj1 (proj2 (make_cmdi_record_skips example_env "record.xml"
                         (record_template example_header) "9200396" "Example Gazette" "1920"
                         records_without_manifests "/metadata") H)).
Defined.

Lemma annotation_proxies_by_ext key1 key2 labeled_refs :
  Forall (λ k, key1 k = key2 k) (dict.keys labeled_refs) →
  annotation_proxies_by key1 labeled_refs = annotation_proxies_by key2 labeled_refs.
Proof.
  unfold annotation_proxies_by, dict.keys.
  induction labeled_refs as [|[k refs] rest IH]; [done|].
  intros [Hk Hrest]%Forall_cons. cbn in Hk. rewrite !bind_cons, IH by done.
  by rewrite Hk.
Qed.

(** C1, as the claim states it, fails: the adapter keys the resolved
    references by the identifiers of the records map as they are, so for an
    identifier that is not in normalized form the proxy id is made from the
    whole identifier. *)
Lemma annotation_proxy_id_not_normalized :
  ∃ doc labeled_refs,
    result (make_cmdi_record example_env "record.xml" (record_template example_header)
              "9200396" "Example Gazette" "1920" url_keyed_records "/metadata")
    = Return (Some doc) ∧
    result (retrieve_iiif_annotation_refs example_env url_keyed_records) = Return labeled_refs ∧
    proxy_ids (resource_proxies doc)
    = ["landing_page"; "archive_edm"; "archive_alto";
       "http___data_theeuropeanlibrary_org_BibliographicResource_3000118435146_anno1"] ∧
    proxy_ids (fixed_proxies example_env "9200396" ++ annotation_proxies_normalized labeled_refs)
    = ["landing_page"; "archive_edm"; "archive_alto"; "_3000118435146_anno1"] ∧
    resource_proxies doc
    ≠ resource_proxies (record_template example_header) ++ fixed_proxies example_env "9200396"
      ++ annotation_proxies_normalized labeled_refs.
Proof.
  do 2 eexists. split; [vm_compute; reflexivity|].
  split; [vm_compute; reflexivity|]. split; [vm_compute; reflexivity|].
  split; [vm_compute; reflexivity|].
  intros H. apply (f_equal proxy_ids) in H. vm_compute in H. discriminate.
Qed.

(** C1, amended: in the document a record-level build returns, the proxy
    list holds what the template had, the three fixed proxies and then one
    [Resource] proxy per labeled reference, the identifiers in the order of
    the resolved-references map; the proxy id is [xml_id] of the key of that
    map, [_anno] and the position of the reference counted from 1. The keys
    are identifiers of the records map, taken as they are; when those are in
    normalized form the proxy ids are the ones made from the normalized
    identifiers. *)
Theorem record_annotation_proxies (E : env) record_file_name template collection_id title year
    records metadata_dir doc :
  result (make_cmdi_record E record_file_name template collection_id title year records
            metadata_dir) = Return (Some doc) →
  ∃ labeled_refs,
    result (retrieve_iiif_annotation_refs E records) = Return labeled_refs ∧
    dict.keys labeled_refs ⊆ dict.keys records ∧
    resource_proxies doc
    = resource_proxies template ++ fixed_proxies E collection_id
      ++ annotation_proxies labeled_refs ∧
    (Forall (λ k, normalize_identifier k = k) (dict.keys records) →
     resource_proxies doc
     = resource_proxies template ++ fixed_proxies E collection_id
       ++ annotation_proxies_normalized labeled_refs).
Proof.
  intros (refs & Hrefs & Hkeys & Hdoc)%make_cmdi_record_proxies.
  exists refs. repeat split; [done..|]. intros Hnorm. rewrite Hdoc. do 2 f_equal.
  apply annotation_proxies_by_ext. apply Forall_forall. intros k Hk.
  symmetry. by apply (proj1 (Forall_forall _ _) Hnorm), Hkeys.
Qed.

Lemma record_annotation_proxies_witness :
  ∃ doc,
    result (make_cmdi_record example_env "record.xml" (record_template example_header)
              "9200396" "Example Gazette" "1920" example_records "/metadata")
    = Return (Some doc) ∧
    proxy_ids (resource_proxies doc)
    = ["landing_page"; "archive_edm"; "archive_alto"; "_3000118435146_anno1";
       "_3000118435009_anno1"].
Proof.
  eexists. split; [vm_compute; reflexivity|].
  match goal with
  | |- proxy_ids (resource_proxies ?d) = _ =>
      destruct (record_annotation_proxies example_env "record.xml"
                  (record_template example_header) "9200396" "Example Gazette" "1920"
                  example_records "/metadata" d eq_refl) as (refs & Hrefs & _ & -> & _)
  end.
  vm_compute in Hrefs. injection Hrefs as <-. vm_compute. reflexivity.
Defined.


(** ** Proxy ids *)

Lemma xml_id_nonempty s : chars (xml_id s) ≠ [].
Proof.
  rewrite chars_xml_id. destruct (chars s) as [|c l]; cbn; [done|].
  by destruct (set_A_z_us c).
Qed.

Lemma is_digit_substitute c : is_digit c → substitute c = c.
Proof.
  unfold is_digit, substitute, set_A_z_09_us, re.digit. intros ->.
  by rewrite orb_true_r.
Qed.

(** The characters of the id made from [record_id] and [index]. *)
Lemma chars_xml_id_anno record_id suffix :
  Forall is_digit suffix →
  chars (xml_id (record_id +:+ "_anno" +:+ str suffix))
  = (if decide (chars record_id = []) then [] else chars (xml_id record_id))
    ++ chars "_anno" ++ suffix.
Proof.
  intros Hd. rewrite !chars_xml_id, !chars_app, chars_str.
  assert (substitute <$> (chars "_anno" ++ suffix) = chars "_anno" ++ suffix) as Hsub.
  { rewrite fmap_app. f_equal. clear record_id.
    induction Hd as [|c l Hc _ IH]; [done|]. cbn. by rewrite is_digit_substitute, IH. }
  destruct (chars record_id) as [|c l]; cbn [app starts_id].
  - rewrite decide_True by done. change (starts_id (chars "_anno" ++ suffix)) with true.
    cbv iota. by rewrite Hsub.
  - rewrite decide_False by done.
    destruct (set_A_z_us c); [rewrite app_comm_cons|rewrite 2!app_comm_cons];
      by rewrite fmap_app, Hsub.
Qed.

Lemma digits_string_of_uint d : Forall is_digit (chars (NilEmpty.string_of_uint d)).
Proof. induction d; cbn; by constructor. Qed.

Lemma digits_str_of_nat n : Forall is_digit (chars (str_of_nat n)).
Proof. apply digits_string_of_uint. Qed.

Lemma str_of_nat_inj n m : str_of_nat n = str_of_nat m → n = m.
Proof.
  unfold str_of_nat. intros H. apply Unsigned.to_uint_inj.
  apply (f_equal NilEmpty.uint_of_string) in H. rewrite !NilEmpty.usu in H. congruence.
Qed.

Lemma str_of_nat_nonempty n : chars (str_of_nat (S n)) ≠ [].
Proof.
  intros H. apply (f_equal str) in H. rewrite str_chars in H. unfold str_of_nat in H.
  apply (f_equal NilEmpty.uint_of_string) in H. rewrite NilEmpty.usu in H.
  injection H as H. apply (f_equal Nat.of_uint) in H. by rewrite Unsigned.of_to in H.
Qed.

(** Two texts with the same separator in front of separator-free tails. *)
Lemma app_sep_inj {A} (x : A) l1 l2 d1 d2 :
  x ∉ d1 → x ∉ d2 → l1 ++ x :: d1 = l2 ++ x :: d2 → l1 = l2 ∧ d1 = d2.
Proof.
  intros H1 H2. revert l2. induction l1 as [|a l1 IH]; intros [|b l2] H; cbn in H.
  - by injection H.
  - injection H as <- ->. destruct H1. apply elem_of_app. right. left.
  - injection H as -> <-. destruct H2. apply elem_of_app. right. left.
  - injection H as <- H. destruct (IH _ H) as [-> ->]. done.
Qed.

Lemma o_not_digit d : Forall is_digit d → "o"%char ∉ d.
Proof. intros H Hin. by apply (proj1 (Forall_forall _ _) H) in Hin. Qed.

(** An annotation id is the key of its identifier and then the index. *)
Lemma chars_make_ref_xml_id k i :
  chars (make_ref_xml_id k i) = chars (annotation_key k) ++ chars (str_of_nat i).
Proof.
  unfold make_ref_xml_id, annotation_key.
  rewrite <- (str_chars (str_of_nat i)), chars_str.
  rewrite chars_xml_id_anno by apply digits_str_of_nat.
  pose proof (chars_xml_id_anno k [] ltac:(constructor)) as H.
  replace (k +:+ "_anno" +:+ str []) with (k +:+ "_anno") in H.
  - rewrite H, app_nil_r. by rewrite <- !app_assoc.
  - apply chars_inj. by rewrite !chars_app, chars_str, app_nil_r.
Qed.

Lemma chars_annotation_key k : ∃ l, chars (annotation_key k) = l ++ ["o"%char].
Proof.
  unfold annotation_key.
  pose proof (chars_xml_id_anno k [] ltac:(constructor)) as H.
  replace (k +:+ "_anno" +:+ str []) with (k +:+ "_anno") in H.
  - rewrite H. eexists (_ ++ chars "_ann"). by rewrite <- app_assoc.
  - apply chars_inj. by rewrite !chars_app, chars_str, app_nil_r.
Qed.

(** Equal ids come from equal indices and from identifiers with the same
    key, and only from those. *)
Lemma make_ref_xml_id_eq k1 k2 i j :
  make_ref_xml_id k1 i = make_ref_xml_id k2 j ↔ annotation_key k1 = annotation_key k2 ∧ i = j.
Proof.
  split.
  - intros H. apply (f_equal chars) in H. rewrite !chars_make_ref_xml_id in H.
    destruct (chars_annotation_key k1) as (l1 & H1).
    destruct (chars_annotation_key k2) as (l2 & H2).
    rewrite H1, H2, <- !app_assoc in H. cbn [app] in H.
    apply app_sep_inj in H as [Hl Hd]; [|by apply o_not_digit, digits_str_of_nat..].
    split; [|by apply str_of_nat_inj, chars_inj].
    apply chars_inj. by rewrite H1, H2, Hl.
  - intros [Hk ->]. apply chars_inj. by rewrite !chars_make_ref_xml_id, Hk.
Qed.

(** An annotation id ends in a digit. *)
Lemma make_ref_xml_id_last k i :
  ∃ c, last (chars (make_ref_xml_id k (S i))) = Some c ∧ is_digit c.
Proof.
  rewrite chars_make_ref_xml_id.
  pose proof (str_of_nat_nonempty i) as Hne. pose proof (digits_str_of_nat (S i)) as Hd.
  destruct (last (chars (str_of_nat (S i)))) as [c|] eqn:Hc;
    [|by apply last_None in Hc].
  exists c. split.
  - by rewrite last_app, Hc.
  - apply (proj1 (Forall_forall _ _) Hd). by apply last_Some_elem_of.
Qed.

Lemma proxy_ids_app l1 l2 : proxy_ids (l1 ++ l2) = proxy_ids l1 ++ proxy_ids l2.
Proof. apply omap_app. Qed.

Lemma proxy_ids_imap (g : nat → string) (refs : list labeled_ref) :
  proxy_ids (imap (λ i (l_ref : labeled_ref), resource_proxy (g i) "Resource" l_ref.1 None) refs)
  = g <$> seq 0 (length refs).
Proof.
  revert g. induction refs as [|r refs IH]; intros g; [done|].
  cbn. f_equal. rewrite <- fmap_S_seq, <- list_fmap_compose. apply (IH (g ∘ S)).
Qed.

Lemma proxy_ids_annotation_proxies labeled_refs :
  proxy_ids (annotation_proxies labeled_refs) = annotation_ids labeled_refs.
Proof.
  unfold annotation_proxies, annotation_proxies_by, annotation_ids.
  induction labeled_refs as [|[k refs] rest IH]; [done|].
  rewrite !bind_cons, proxy_ids_app, IH. f_equal.
  apply (proxy_ids_imap (λ i, make_ref_xml_id k (S i))).
Qed.

Lemma proxy_ids_fixed_proxies E collection_id :
  proxy_ids (fixed_proxies E collection_id)
  = [LANDING_PAGE_ID; EDM_DUMP_PROXY_ID; ALTO_DUMP_PROXY_ID].
Proof. done. Qed.

Lemma elem_of_annotation_ids (labeled_refs : dict.t (list labeled_ref)) y :
  y ∈ annotation_ids labeled_refs ↔
  ∃ k v i, (k, v) ∈ labeled_refs ∧ i < length v ∧ y = make_ref_xml_id k (S i).
Proof.
  unfold annotation_ids. rewrite list_elem_of_bind. split.
  - intros ([k v] & (i & -> & Hi%elem_of_seq)%list_elem_of_fmap & Hkv).
    exists k, v, i. split; [done|]. split; [lia|done].
  - intros (k & v & i & Hkv & Hi & ->). exists (k, v). split; [|done].
    apply list_elem_of_fmap. exists i. split; [done|]. apply elem_of_seq. lia.
Qed.

(** The annotation ids are pairwise distinct exactly when the keys of the
    identifiers are. *)
Lemma NoDup_annotation_ids (labeled_refs : dict.t (list labeled_ref)) :
  Forall (λ kv, kv.2 ≠ []) labeled_refs →
  NoDup (annotation_ids labeled_refs) ↔ NoDup (annotation_key <$> dict.keys labeled_refs).
Proof.
  intros Hne. unfold dict.keys. induction Hne as [|[k v] rest Hv Hrest IH].
  { split; constructor. }
  cbn [fst snd] in Hv.
  change (annotation_ids ((k, v) :: rest))
    with (((λ i, make_ref_xml_id k (S i)) <$> seq 0 (length v)) ++ annotation_ids rest).
  rewrite NoDup_app, fmap_cons, fmap_cons, NoDup_cons, IH. cbn [fst].
  assert (NoDup ((λ i, make_ref_xml_id k (S i)) <$> seq 0 (length v))) as Hself.
  { apply NoDup_fmap_2_strong; [|apply NoDup_seq].
    intros i j _ _ Hij. apply make_ref_xml_id_eq in Hij as [_ Hij]. congruence. }
  split.
  - intros (_ & Hdisj & Hnd). split; [|done].
    rewrite <- list_fmap_compose. intros ([k' v'] & Hk & Hin)%list_elem_of_fmap.
    cbn in Hk.
    apply (Hdisj (make_ref_xml_id k 1)).
    + apply list_elem_of_fmap. exists 0. split; [done|]. apply elem_of_seq.
      destruct v; [done|cbn; lia].
    + apply elem_of_annotation_ids. exists k', v', 0. split; [done|].
      split; [|by apply make_ref_xml_id_eq].
      pose proof (proj1 (Forall_forall _ _) Hrest _ Hin) as Hv'. cbn in Hv'.
      destruct v'; [done|cbn; lia].
  - intros [Hk Hnd]. split; [done|]. split; [|done].
    intros y (i & -> & _)%list_elem_of_fmap (k' & v' & j & Hin & _ & Hij)%elem_of_annotation_ids.
    apply make_ref_xml_id_eq in Hij as [Hkk _]. apply Hk.
    rewrite <- list_fmap_compose. apply list_elem_of_fmap. by exists (k', v').
Qed.

Lemma annotation_ids_last labeled_refs y :
  y ∈ annotation_ids labeled_refs → ∃ c, last (chars y) = Some c ∧ is_digit c.
Proof.
  intros (k & v & i & _ & _ & ->)%elem_of_annotation_ids. apply make_ref_xml_id_last.
Qed.

(** No annotation id is the id of a fixed proxy. *)
Lemma annotation_ids_not_fixed labeled_refs y :
  y ∈ [LANDING_PAGE_ID; EDM_DUMP_PROXY_ID; ALTO_DUMP_PROXY_ID] →
  y ∉ annotation_ids labeled_refs.
Proof.
  intros Hy (c & Hc & Hd)%annotation_ids_last.
  set_unfold in Hy. destruct Hy as [->|[->|[->|[]]]];
    vm_compute in Hc; injection Hc as <-; by vm_compute in Hd.
Qed.

(** C5, as the claim states it, fails: two identifiers with the same
    annotation key give two proxies with the same id, and a proxy the
    template already has keeps its id next to the proxies the build adds. *)
Lemma proxy_ids_collide :
  (∃ doc,
     result (make_cmdi_record example_env "record.xml" (record_template example_header)
               "9200396" "Example Gazette" "1920" colliding_records "/metadata")
     = Return (Some doc) ∧
     proxy_ids (resource_proxies doc)
     = ["landing_page"; "archive_edm"; "archive_alto"; "issue_1_anno1"; "issue_1_anno1"] ∧
     ¬ NoDup (proxy_ids (resource_proxies doc))) ∧
  (∃ doc,
     result (make_cmdi_record example_env "record.xml" record_template_with_proxy
               "9200396" "Example Gazette" "1920" example_records "/metadata")
     = Return (Some doc) ∧
     proxy_ids (resource_proxies doc)
     = ["landing_page"; "landing_page"; "archive_edm"; "archive_alto";
        "_3000118435146_anno1"; "_3000118435009_anno1"] ∧
     ¬ NoDup (proxy_ids (resource_proxies doc))).
Proof.
  split; (eexists; split; [vm_compute; reflexivity|]; split; [vm_compute; reflexivity|]);
    intros Hnd; apply (bool_decide_pack _) in Hnd; by vm_compute in Hnd.
Qed.

(** C5, amended: in the document a record-level build returns, the ids of
    the resource proxies are pairwise distinct if and only if the ids of
    the proxies the template already has are pairwise distinct, none of
    them is the id of a fixed proxy or an id made for a labeled reference,
    and the identifiers of the resolved-references map have pairwise
    distinct keys, the key of an identifier being [xml_id] of the
    identifier followed by [_anno]. *)
Theorem record_proxy_ids_distinct (E : env) record_file_name template collection_id title year
    records metadata_dir doc :
  result (make_cmdi_record E record_file_name template collection_id title year records
            metadata_dir) = Return (Some doc) →
  ∃ labeled_refs,
    result (retrieve_iiif_annotation_refs E records) = Return labeled_refs ∧
    (NoDup (proxy_ids (resource_proxies doc)) ↔
     NoDup (proxy_ids (resource_proxies template)) ∧
     (∀ x, x ∈ proxy_ids (resource_proxies template) →
           (x ∉ [LANDING_PAGE_ID; EDM_DUMP_PROXY_ID; ALTO_DUMP_PROXY_ID]) ∧
           (x ∉ annotation_ids labeled_refs)) ∧
     NoDup (annotation_key <$> dict.keys labeled_refs)).
Proof.
  intros (refs & Hrefs & _ & ->)%make_cmdi_record_proxies.
  exists refs. split; [done|].
  pose proof (post_result _ _ _ (retrieve_iiif_annotation_refs_values E records) Hrefs)
    as Hvalues.
  rewrite !proxy_ids_app, proxy_ids_annotation_proxies, proxy_ids_fixed_proxies.
  rewrite <- (NoDup_annotation_ids refs Hvalues), !NoDup_app.
  assert (NoDup [LANDING_PAGE_ID; EDM_DUMP_PROXY_ID; ALTO_DUMP_PROXY_ID]) as Hfixed.
  { apply (bool_decide_unpack _). by vm_compute. }
  split.
  - intros (HT & Hdisj & _ & _ & HA). split; [done|]. split; [|done].
    intros x Hx. by apply not_elem_of_app, Hdisj.
  - intros (HT & Hdisj & HA). split; [done|]. split.
    + intros x Hx. by apply not_elem_of_app, Hdisj.
    + split; [done|]. split; [|done]. intros y. apply annotation_ids_not_fixed.
Qed.

Lemma record_proxy_ids_distinct_witness :
  ∃ doc,
    result (make_cmdi_record example_env "record.xml" (record_template example_header)
              "9200396" "Example Gazette" "1920" example_records "/metadata")
    = Return (Some doc) ∧
    NoDup (proxy_ids (resource_proxies doc)).
Proof.
  eexists. split; [vm_compute; reflexivity|].
  match goal with
  | |- NoDup (proxy_ids (resource_proxies ?d)) =>
      destruct (record_proxy_ids_distinct example_env "record.xml"
                  (record_template example_header) "9200396" "Example Gazette" "1920"
                  example_records "/metadata" d eq_refl) as (refs & Hrefs & Hiff)
  end.
  apply Hiff. vm_compute in Hrefs. injection Hrefs as <-.
  split; [constructor|]. split; [by intros x Hx%elem_of_nil|].
  apply (bool_decide_unpack _). vm_compute. exact I.
Defined.


(** ** The texts lxml accepts *)

Section checks.
Context (E : env).
Implicit Types (parent r : element) (ns : string).

Lemma xml_char_substitute c : xml_char (substitute c) = true.
Proof. by destruct c as [[] [] [] [] [] [] [] []]. Qed.

(** An id made by [xml_id] is accepted. *)
Lemma xml_compatible_xml_id s : xml_compatible (xml_id s) = true.
Proof.
  unfold xml_compatible. rewrite chars_xml_id.
  induction (if starts_id (chars s) then chars s else "_"%char :: chars s) as [|c l IH];
    [done|].
  cbn. by rewrite xml_char_substitute, IH.
Qed.

Lemma xml_compatible_concat years :
  xml_compatible (String.concat ", " years) = forallb xml_compatible years.
Proof.
  induction years as [|y [|y' years] IH]; [done|by cbn; rewrite andb_true_r|].
  change (String.concat ", " (y :: y' :: years))
    with (y +:+ ", " +:+ String.concat ", " (y' :: years)).
  by rewrite !xml_compatible_app, IH.
Qed.

Lemma texts_accepted_cons s l :
  texts_accepted (s :: l) ↔ xml_compatible s = true ∧ texts_accepted l.
Proof. unfold texts_accepted. by rewrite Forall_cons. Qed.

Lemma texts_accepted_forallb l : texts_accepted l ↔ forallb xml_compatible l = true.
Proof.
  unfold texts_accepted. rewrite Forall_forall, forallb_forall.
  split; intros H x Hx; apply H; by apply list_elem_of_In.
Qed.

Lemma accepted_resource_proxy proxy_id resource_type ref media_type :
  accepted (resource_proxy proxy_id resource_type ref media_type)
  = xml_compatible proxy_id && xml_compatible resource_type && xml_compatible ref
    && from_option xml_compatible true media_type.
Proof.
  unfold resource_proxy, leaf. cbn [accepted forallb from_option snd].
  destruct media_type as [m|]; cbn [forallb snd from_option];
    repeat match goal with
      | |- context [xml_compatible ?s] => destruct (xml_compatible s)
      end; done.
Qed.

Lemma accepted_fixed_proxies collection_id :
  forallb accepted (fixed_proxies E collection_id)
  = xml_compatible (LANDING_PAGE_URL E) && xml_compatible collection_id.
Proof.
  unfold fixed_proxies, make_edm_dump_ref, make_alto_dump_ref. cbn [forallb].
  rewrite !accepted_resource_proxy, !xml_compatible_app.
  destruct (xml_compatible (LANDING_PAGE_URL E)), (xml_compatible collection_id); done.
Qed.

Lemma accepted_year_proxies collection_id (year_files : gmap string string) :
  texts_accepted [CMDI_RECORDS_BASE_URL E; collection_id] →
  map_Forall (λ year file_name, texts_accepted [year; file_name]) year_files →
  forallb accepted (year_proxies E collection_id year_files) = true.
Proof.
  intros Ht Hyf. apply texts_accepted_cons in Ht as [Hbase Ht].
  apply texts_accepted_cons in Ht as [Hid _].
  unfold year_proxies. rewrite forallb_forall. intros x Hx%list_elem_of_In.
  apply list_elem_of_fmap in Hx as (year & -> & [file_name Hf]%elem_of_sorted).
  rewrite accepted_resource_proxy, (lookup_total_correct _ _ _ Hf).
  apply Hyf in Hf. apply texts_accepted_cons in Hf as [Hyear Hf].
  apply texts_accepted_cons in Hf as [Hfile _].
  by rewrite xml_compatible_xml_id, !xml_compatible_app, Hbase, Hid, Hfile.
Qed.

(** *** The content of a collection record *)

Lemma collection_description_accepted title years :
  xml_compatible
    ("Full text content aggregated from Europeana. " +:+ "Title: " +:+ dquote +:+ title
     +:+ dquote +:+ ". " +:+ "Years: " +:+ String.concat ", " years +:+ ".")
  = xml_compatible title && forallb xml_compatible years.
Proof.
  rewrite !xml_compatible_app, xml_compatible_concat.
  by destruct (xml_compatible title), (forallb xml_compatible years).
Qed.

Lemma result_collection_insert_title_and_description parent title years :
  xml_compatible title && forallb xml_compatible years = false →
  result (collection_insert_title_and_description E parent title years) = Raise ValueError.
Proof.
  intros H. unfold collection_insert_title_and_description.
  rewrite result_bind, result_checked.
  destruct (xml_compatible title) eqn:Ht; [|done]. cbv beta iota.
  by rewrite result_bind, result_checked, collection_description_accepted, Ht, H.
Qed.

Lemma post_collection_insert_title_and_description parent title years :
  xml_compatible title && forallb xml_compatible years = true →
  post (λ _, True) (collection_insert_title_and_description E parent title years).
Proof.
  intros H. unfold collection_insert_title_and_description.
  pose proof H as [Ht _]%andb_prop. rewrite (checked_accepted _ Ht), bind_ret.
  rewrite checked_accepted by (by rewrite collection_description_accepted).
  rewrite bind_ret. by eexists.
Qed.

Lemma post_collection_insert_temporal_coverage parent lo hi :
  xml_compatible lo = true → xml_compatible hi = true →
  post (λ _, True) (collection_insert_temporal_coverage E parent lo hi).
Proof.
  intros Hlo Hhi. unfold collection_insert_temporal_coverage.
  rewrite !checked_accepted, !bind_ret by (by rewrite ?xml_compatible_app, ?Hlo, ?Hhi).
  by eexists.
Qed.

Lemma post_collection_insert_subresource_info parent title (year_files : gmap string string)
    ns :
  xml_compatible title = true → forallb xml_compatible (sorted year_files) = true →
  post (λ _, True) (collection_insert_subresource_info parent title year_files ns).
Proof.
  intros Ht Hy. unfold collection_insert_subresource_info.
  apply post_for; [done|]. intros acc year Hyear _.
  eapply post_bind; [by apply (post_item (λ _, True))|]. intros _ _.
  assert (xml_compatible year = true) as Hyr.
  { rewrite forallb_forall in Hy. by apply Hy, list_elem_of_In. }
  rewrite !checked_accepted, !bind_ret by (by rewrite ?xml_compatible_app, ?Ht, ?Hyr).
  by eexists.
Qed.

Lemma collection_insert_component_content_refused r title
    (year_files : gmap string string) recs :
  xml_compatible title && forallb xml_compatible (sorted year_files) = false →
  result (collection_insert_component_content E r title (sorted year_files) year_files
            recs) = Raise ValueError.
Proof.
  intros Hacc. unfold collection_insert_component_content.
  by rewrite result_bind, result_collection_insert_title_and_description.
Qed.

Lemma collection_insert_component_content_no_years r title
    (year_files : gmap string string) recs :
  xml_compatible title && forallb xml_compatible (sorted year_files) = true →
  sorted year_files = [] →
  result (collection_insert_component_content E r title (sorted year_files) year_files
            recs) = Raise (IndexError "sorted_years[0]").
Proof.
  intros Hacc Hnil. unfold collection_insert_component_content. rewrite result_bind.
  destruct (post_collection_insert_title_and_description r title (sorted year_files) Hacc)
    as (r0 & -> & _).
  rewrite result_bind.
  destruct (post_insert_languages E
              (insert_publisher E
                 (insert_keywords E r0 recs (CMDP_NS_COLLECTION_RECORD E)) recs
                 (CMDP_NS_COLLECTION_RECORD E))
              recs (CMDP_NS_COLLECTION_RECORD E)) as (r1 & -> & _).
  by rewrite result_bind, Hnil.
Qed.

Lemma post_collection_insert_component_content r title (year_files : gmap string string)
    recs :
  xml_compatible title && forallb xml_compatible (sorted year_files) = true →
  sorted year_files ≠ [] →
  post (λ _, True)
    (collection_insert_component_content E r title (sorted year_files) year_files recs).
Proof.
  intros Hacc Hne. unfold collection_insert_component_content.
  eapply post_bind; [by apply post_collection_insert_title_and_description|].
  intros r0 _. eapply post_bind; [apply post_insert_languages|]. intros r1 _.
  unfold first_item, last_item.
  destruct (sorted year_files !! 0) as [lo|] eqn:Hlo;
    [|by destruct (sorted year_files)].
  rewrite bind_ret.
  destruct (last (sorted year_files)) as [hi|] eqn:Hhi; [|by apply last_None in Hhi].
  rewrite bind_ret.
  apply andb_prop in Hacc as [Ht Hy].
  assert (xml_compatible lo = true ∧ xml_compatible hi = true) as [Hlo' Hhi'].
  { rewrite forallb_forall in Hy. split; apply Hy, list_elem_of_In.
    - by apply list_elem_of_lookup_2 in Hlo.
    - by apply last_Some_elem_of. }
  eapply post_bind; [by apply post_collection_insert_temporal_coverage|]. intros r2 _.
  eapply post_bind; [by apply post_collection_insert_subresource_info|]. intros r3 _.
  by apply post_ret.
Qed.

(** The three ways the content of a collection record can go: a text
    is refused, there is no year, or the content is there. *)
Lemma collection_insert_component_content_cases r title (year_files : gmap string string)
    recs :
  (xml_compatible title && forallb xml_compatible (sorted year_files) = false ∧
   result (collection_insert_component_content E r title (sorted year_files) year_files
             recs) = Raise ValueError)
  ∨ (xml_compatible title && forallb xml_compatible (sorted year_files) = true ∧
     sorted year_files = [] ∧
     result (collection_insert_component_content E r title (sorted year_files) year_files
               recs) = Raise (IndexError "sorted_years[0]"))
  ∨ (xml_compatible title && forallb xml_compatible (sorted year_files) = true ∧
     sorted year_files ≠ [] ∧
     ∃ root,
       result (collection_insert_component_content E r title (sorted year_files)
                 year_files recs) = Return root).
Proof.
  destruct (xml_compatible title && forallb xml_compatible (sorted year_files)) eqn:Hacc.
  2:{ left. split; [done|]. by apply collection_insert_component_content_refused. }
  right. destruct (decide (sorted year_files = [])) as [Hnil|Hne].
  - left. split; [done|]. split; [done|].
    by apply collection_insert_component_content_no_years.
  - right. split; [done|]. split; [done|].
    destruct (post_collection_insert_component_content r title year_files recs Hacc Hne)
      as (root & Hroot & _).
    by exists root.
Qed.

(** *** The content of a record *)



End checks.

(** The goal that lxml accepts each text of a list. *)
Ltac each_text :=
  repeat (apply texts_accepted_cons; split); [..|by constructor]; try done.


(** ** Collection-level builds *)

Section collection.
Context (E : env).

(** The outcome of a collection-level build. *)
Lemma make_collection_record_result file_name template collection_id title year_files
    records metadata_dir
    (new := fixed_proxies E collection_id ++ year_proxies E collection_id year_files)
    (doc1 := with_headers E collection_id file_name template) :
  result (make_collection_record E file_name template collection_id title year_files
            records metadata_dir)
  = match result (set_metadata_headers E template collection_id file_name) with
    | Raise e => Raise e
    | Return _ =>
        match xpath template proxy_list_path with
        | [p] =>
            if forallb accepted new then
              match xpath template (collection_components_path E) with
              | [q] =>
                  match result (load_emd_records E records metadata_dir) with
                  | Return recs =>
                      match result (collection_insert_component_content E
                                      (node (with_proxies new p doc1) q) title
                                      (sorted year_files) year_files recs) with
                      | Return root =>
                          Return (Some (update q (λ _, root) (with_proxies new p doc1)))
                      | Raise e => Raise e
                      end
                  | Raise e => Raise e
                  end
              | _ => Return None
              end
            else Raise ValueError
        | _ => Return None
        end
    end.
Proof.
  unfold make_collection_record. rewrite result_bind.
  destruct (result (set_metadata_headers E template collection_id file_name))
    as [d|e] eqn:Hh; [|done].
  apply set_metadata_headers_returns in Hh as [_ ->]. fold doc1.
  pose proof (same_skeleton_with_headers E template collection_id file_name) as S.
  fold doc1 in S. rewrite (proj1 S proxy_list_path) by done.
  destruct (xpath template proxy_list_path) as [|p [|??]] eqn:Hp;
    [by rewrite result_bind| |by rewrite result_bind].
  destruct (filled_skeleton template doc1 p new S Hp) as (_ & _ & Hup & Hx & _).
  rewrite collection_insert_resource_proxies_extend. fold new.
  destruct (forallb accepted new); [|done]. rewrite bind_ret, Hup, Hx by done.
  destruct (xpath template (collection_components_path E)) as [|q [|??]];
    [by rewrite result_bind| |by rewrite result_bind].
  rewrite result_bind.
  destruct (result (load_emd_records E records metadata_dir)) as [recs|e]; [|done].
  rewrite result_bind.
  by destruct (result (collection_insert_component_content E _ title _ year_files recs)).
Qed.

(** The log of a collection-level build that returns no document. *)
Lemma make_collection_record_shape_log file_name template collection_id title year_files
    records metadata_dir :
  result (make_collection_record E file_name template collection_id title year_files
            records metadata_dir) = Return None →
  logs (make_collection_record E file_name template collection_id title year_files
          records metadata_dir) = [shape_error].
Proof.
  unfold make_collection_record.
  rewrite result_bind, logs_bind, logs_set_metadata_headers.
  destruct (result (set_metadata_headers E template collection_id file_name))
    as [d|e]; [|done]. cbn [app].
  destruct (xpath d proxy_list_path) as [|p [|??]]; [done| |done].
  rewrite collection_insert_resource_proxies_extend.
  destruct (forallb accepted _); [|done]. rewrite bind_ret.
  destruct (xpath _ (collection_components_path E)) as [|q [|??]]; [done| |done].
  rewrite result_bind.
  destruct (result (load_emd_records E records metadata_dir)) as [recs|e]; [|done].
  rewrite result_bind.
  by destruct (result (collection_insert_component_content E _ title _ year_files recs)).
Qed.

(** What a collection-level build that returns a document has done. *)
Lemma make_collection_record_returns file_name template collection_id title year_files
    records metadata_dir doc :
  result (make_collection_record E file_name template collection_id title year_files
            records metadata_dir) = Return (Some doc) →
  ∃ p q cmdi_file xq recs root,
    selflink_with_creation_date template ∧
    xpath template proxy_list_path = [p] ∧
    xpath template (collection_components_path E) = [q] ∧
    forallb accepted (fixed_proxies E collection_id
                      ++ year_proxies E collection_id year_files) = true ∧
    (∀ path, length path ≤ 3 → xpath cmdi_file path = xpath template path) ∧
    resource_proxies cmdi_file
    = resource_proxies template ++ fixed_proxies E collection_id
      ++ year_proxies E collection_id year_files ∧
    get q cmdi_file = Some xq ∧
    tag xq = tag (node template q) ∧ children xq = children (node template q) ∧
    p ≠ q ∧ length p = 2 ∧ length q = 2 ∧
    result (load_emd_records E records metadata_dir) = Return recs ∧
    result (collection_insert_component_content E xq title (sorted year_files) year_files
              recs) = Return root ∧
    doc = update q (λ _, root) cmdi_file.
Proof.
  rewrite make_collection_record_result.
  destruct (result (set_metadata_headers E template collection_id file_name))
    as [d|e] eqn:Hh; [|done].
  apply set_metadata_headers_returns in Hh as [Hsl _].
  destruct (xpath template proxy_list_path) as [|p [|??]] eqn:Hp; [done| |done].
  destruct (forallb accepted _) eqn:Hacc; [|done].
  destruct (xpath template (collection_components_path E)) as [|q [|??]] eqn:Hq;
    [done| |done].
  destruct (result (load_emd_records E records metadata_dir)) as [recs|e] eqn:Hl; [|done].
  destruct (result (collection_insert_component_content E _ title _ year_files recs))
    as [root|e] eqn:Hroot; [|done].
  intros [= <-].
  pose proof (same_skeleton_with_headers E template collection_id file_name) as S.
  destruct (filled_skeleton template _ p
              (fixed_proxies E collection_id ++ year_proxies E collection_id year_files)
              S Hp)
    as (_ & _ & _ & Hx & Hproxies).
  destruct (filled_root template _ p
              (fixed_proxies E collection_id ++ year_proxies E collection_id year_files)
              (cmd "CMD") (cmd "Components") (cmdp_c E "MetadataCollection") q S Hp
              ltac:(done) Hq)
    as (Hpq & Hlp & Hlq & xq & Hxq & Htq & Hcq).
  rewrite (node_get _ _ _ Hxq) in Hroot.
  eexists p, q, _, xq, recs, root.
  split; [done|]. split; [done|]. split; [done|]. split; [done|].
  split; [exact Hx|]. split; [exact Hproxies|]. done.
Qed.

(** The document of a collection-level build. *)
Lemma make_collection_record_document file_name template collection_id title year_files
    records metadata_dir doc :
  result (make_collection_record E file_name template collection_id title year_files
            records metadata_dir) = Return (Some doc) →
  ∃ q xq root recs,
    xpath template (collection_components_path E) = [q] ∧
    xpath doc (collection_components_path E) = [q] ∧
    resource_proxies doc
    = resource_proxies template ++ fixed_proxies E collection_id
      ++ year_proxies E collection_id year_files ∧
    tag xq = tag (node template q) ∧ children xq = children (node template q) ∧
    result (collection_insert_component_content E xq title (sorted year_files) year_files
              recs) = Return root ∧
    node doc q = root.
Proof.
  intros (p & q & cmdi & xq & recs & root & Hsl & Hp & Hq & Hacc & Hx & Hproxies & Hxq
          & Htq & Hcq & Hpq & Hlp & Hlq & Hl & Hroot & ->)%make_collection_record_returns.
  assert (tag root = tag xq) as Ht.
  { destruct (ensures_collection_insert_component_content E xq title (sorted year_files)
                year_files recs root Hroot) as (lo & hi & _ & _ & Hcov & _).
    exact Hcov. }
  destruct (filled_document cmdi p q xq root) as (Hx' & Hproxies' & Hnode);
    [by rewrite Hx|done..|].
  exists q, xq, root, recs. split; [done|]. split; [by rewrite Hx', Hx|].
  split; [by rewrite Hproxies'|]. done.
Qed.

End collection.

(** ** The sorted years *)

Lemma sorted_empty : sorted ∅ = [].
Proof. unfold sorted. by rewrite map_to_list_empty. Qed.

Lemma sorted_nonempty (year_files : gmap string string) :
  year_files ≠ ∅ → sorted year_files ≠ [].
Proof.
  intros (year & v & Hv)%map_choose Hnil.
  assert (year ∈ sorted year_files) as Hin by (apply elem_of_sorted; by exists v).
  rewrite Hnil in Hin. by apply elem_of_nil in Hin.
Qed.

Lemma sorted_StronglySorted (year_files : gmap string string) :
  StronglySorted String.le (sorted year_files).
Proof. apply StronglySorted_merge_sort; apply _. Qed.

Lemma sorted_NoDup (year_files : gmap string string) : NoDup (sorted year_files).
Proof.
  unfold sorted. rewrite merge_sort_Permutation. apply NoDup_fst_map_to_list.
Qed.

Lemma StronglySorted_first (l : list string) lo :
  StronglySorted String.le l → l !! 0 = Some lo → ∀ y, y ∈ l → String.le lo y.
Proof.
  intros Hs Hlo y Hy. destruct Hs as [|x l _ Hall]; [done|].
  injection Hlo as ->. apply elem_of_cons in Hy as [->|Hy]; [done|].
  by apply (proj1 (Forall_forall _ _) Hall).
Qed.

Lemma StronglySorted_last (l : list string) hi :
  StronglySorted String.le l → last l = Some hi → ∀ y, y ∈ l → String.le y hi.
Proof.
  induction 1 as [|x l Hs IH Hall]; [done|]. intros Hhi y Hy.
  destruct l as [|x' l'].
  - injection Hhi as <-. by apply list_elem_of_singleton in Hy as ->.
  - rewrite last_cons_cons in Hhi. apply elem_of_cons in Hy as [->|Hy]; [|by apply IH].
    apply (proj1 (Forall_forall _ _) Hall). by apply last_Some_elem_of.
Qed.

(** The first and the last of the sorted years are the least and the
    greatest year of the map. *)
Lemma sorted_bounds (year_files : gmap string string) :
  year_files ≠ ∅ →
  ∃ lo hi,
    sorted year_files !! 0 = Some lo ∧ last (sorted year_files) = Some hi ∧
    (is_Some (year_files !! lo) ∧ ∀ y, is_Some (year_files !! y) → String.le lo y) ∧
    (is_Some (year_files !! hi) ∧ ∀ y, is_Some (year_files !! y) → String.le y hi).
Proof.
  intros Hne%sorted_nonempty. pose proof (sorted_StronglySorted year_files) as Hs.
  destruct (sorted year_files !! 0) as [lo|] eqn:Hlo;
    [|by destruct (sorted year_files)].
  destruct (last (sorted year_files)) as [hi|] eqn:Hhi; [|by apply last_None in Hhi].
  exists lo, hi. split; [done|]. split; [done|]. split; split.
  - apply elem_of_sorted. by apply list_elem_of_lookup_2 in Hlo.
  - intros y Hy%elem_of_sorted. by apply (StronglySorted_first _ _ Hs Hlo).
  - apply elem_of_sorted. by apply last_Some_elem_of.
  - intros y Hy%elem_of_sorted. by apply (StronglySorted_last _ _ Hs Hhi).
Qed.


(** ** Claims about collection-level builds *)

Section collection_outcome.
Context (E : env).

(** lxml accepts what a collection-level build writes when it accepts
    the texts the build is given. *)
Lemma collection_texts_accepted file_name collection_id title
    (year_files : gmap string string) :
  texts_accepted
    [CMDI_RECORDS_BASE_URL E; COLLECTION_DISPLAY_NAME E; LANDING_PAGE_URL E; collection_id;
     file_name; title] →
  map_Forall (λ year year_file, texts_accepted [year; year_file]) year_files →
  texts_accepted
    [CMDI_RECORDS_BASE_URL E +:+ "/" +:+ collection_id +:+ "/" +:+ file_name;
     COLLECTION_DISPLAY_NAME E] ∧
  forallb accepted (fixed_proxies E collection_id
                    ++ year_proxies E collection_id year_files) = true ∧
  xml_compatible title && forallb xml_compatible (sorted year_files) = true.
Proof.
  intros Ht Hyf. pose proof Ht as Ht'.
  apply texts_accepted_cons in Ht as [Hbase Ht].
  apply texts_accepted_cons in Ht as [Hname Ht].
  apply texts_accepted_cons in Ht as [Hpage Ht].
  apply texts_accepted_cons in Ht as [Hid Ht].
  apply texts_accepted_cons in Ht as [Hfile Ht].
  apply texts_accepted_cons in Ht as [Htitle _].
  split; [|split].
  - each_text. by rewrite !xml_compatible_app, Hbase, Hid, Hfile.
  - rewrite forallb_app, accepted_fixed_proxies, Hpage, Hid.
    apply accepted_year_proxies; [each_text|done].
  - rewrite Htitle. apply forallb_forall.
    intros year [year_file Hy]%list_elem_of_In%elem_of_sorted.
    apply Hyf in Hy. by apply texts_accepted_cons in Hy as [Hy _].
Qed.

End collection_outcome.

(** C6: a collection-level build over a non-empty year map, on a template
    of the expected shape, returns a document when the template has the
    self-link placeholder with the creation-date one, the metadata files
    can be read and lxml accepts the texts the build is given. The proxy
    list of the document it returns holds what the template had, the three
    fixed proxies and then one [Metadata] proxy per year of the map, in
    ascending order of the years, with id [xml_id year] and reference base
    URL, collection id and file name of the year; its one temporal coverage
    starts at the least year and ends at the greatest year of the map. *)
Theorem collection_record_years (E : env) file_name template collection_id title
    (year_files : gmap string string) records metadata_dir p q :
  year_files ≠ ∅ →
  xpath template proxy_list_path = [p] →
  xpath template (collection_components_path E) = [q] →
  (selflink_with_creation_date template →
   files_readable E records metadata_dir →
   texts_accepted
     [CMDI_RECORDS_BASE_URL E; COLLECTION_DISPLAY_NAME E; LANDING_PAGE_URL E; collection_id;
      file_name; title] →
   map_Forall (λ year year_file, texts_accepted [year; year_file]) year_files →
   ∃ doc,
     result (make_collection_record E file_name template collection_id title year_files
               records metadata_dir) = Return (Some doc)) ∧
  (∀ doc,
     result (make_collection_record E file_name template collection_id title year_files
               records metadata_dir) = Return (Some doc) →
     ∃ year_lower year_higher,
       resource_proxies doc
       = resource_proxies template ++ fixed_proxies E collection_id
         ++ year_proxies E collection_id year_files ∧
       StronglySorted String.le (sorted year_files) ∧ NoDup (sorted year_files) ∧
       (∀ year, year ∈ sorted year_files ↔ is_Some (year_files !! year)) ∧
       (is_Some (year_files !! year_lower) ∧
        ∀ year, is_Some (year_files !! year) → String.le year_lower year) ∧
       (is_Some (year_files !! year_higher) ∧
        ∀ year, is_Some (year_files !! year) → String.le year year_higher) ∧
       covers E year_lower year_higher (node template q) (node doc q)).
Proof.
  intros Hne Hp Hq. split.
  - intros Hsl Hfiles Ht Hyf.
    destruct (collection_texts_accepted E file_name collection_id title year_files Ht Hyf)
      as (Hheaders & Hproxies & Hcontent).
    rewrite make_collection_record_result, Hp, Hq, Hproxies.
    rewrite (set_metadata_headers_accepted E template _ _ Hsl Hheaders).
    cbn [result ret snd].
    destruct (post_load_emd_records E records metadata_dir Hfiles) as (recs & -> & _).
    destruct (post_collection_insert_component_content E
                (node (with_proxies
                         (fixed_proxies E collection_id
                          ++ year_proxies E collection_id year_files)
                         p (with_headers E collection_id file_name template)) q)
                title year_files recs Hcontent (sorted_nonempty _ Hne)) as (root & -> & _).
    by eexists.
  - intros doc (q' & xq & root & recs & Hq' & _ & Hproxies & Htq & Hcq & Hroot & Hnode)
                 %make_collection_record_document.
    rewrite Hq in Hq'. injection Hq' as <-.
    destruct (ensures_collection_insert_component_content E xq title (sorted year_files)
                year_files recs root Hroot) as (lo & hi & Hlo & Hhi & Hcov).
    destruct (sorted_bounds year_files Hne) as (lo' & hi' & Hlo' & Hhi' & Hmin & Hmax).
    rewrite Hlo in Hlo'. injection Hlo' as <-. rewrite Hhi in Hhi'. injection Hhi' as <-.
    exists lo, hi. split; [done|].
    split; [apply sorted_StronglySorted|]. split; [apply sorted_NoDup|].
    split; [apply elem_of_sorted|]. split; [done|]. split; [done|].
    rewrite Hnode. destruct Hcov as [Ht (before & after & Hc & Hb & Ha)].
    split; [congruence|]. exists before, after. by rewrite Hc, Hcq.
Qed.

Lemma example_years_nonempty : example_years ≠ ∅.
Proof. intros H. apply (f_equal (λ m : gmap string string, m !! "1920")) in H. done. Qed.

Lemma example_files_readable : files_readable example_env example_records "/metadata".
Proof. apply Forall_forall. by intros. Qed.

Lemma example_header_selflink :
  selflink_with_creation_date (collection_template example_header).
Proof. intros _. vm_compute. discriminate. Qed.

Lemma example_texts_accepted :
  texts_accepted
    [CMDI_RECORDS_BASE_URL example_env; COLLECTION_DISPLAY_NAME example_env;
     LANDING_PAGE_URL example_env; "9200396"; "collection.xml"; "Example Gazette"].
Proof. each_text. Qed.

Lemma example_years_accepted :
  map_Forall (λ year year_file, texts_accepted [year; year_file]) example_years.
Proof.
  intros year year_file. unfold example_years. rewrite !lookup_insert_Some, lookup_empty.
  intros [[<- <-]|[_ [[<- <-]|[_ ?]]]]; [each_text..|done].
Qed.

Lemma collection_record_years_witness :
  ∃ doc,
    result (make_collection_record example_env "collection.xml"
              (collection_template example_header) "9200396" "Example Gazette" example_years
              example_records "/metadata") = Return (Some doc) ∧
    proxy_ids (resource_proxies doc)
    = ["landing_page"; "archive_edm"; "archive_alto"; "_1920"; "_1921"].
Proof.
  destruct (collection_record_years example_env "collection.xml"
              (collection_template example_header) "9200396" "Example Gazette" example_years
              example_records "/metadata" [1; 0] [2; 0] example_years_nonempty
              eq_refl eq_refl) as [Hreturns Hdoc].
  destruct (Hreturns example_header_selflink example_files_readable example_texts_accepted
              example_years_accepted) as (doc & Hresult).
  exists doc. split; [done|].
  destruct (Hdoc doc Hresult) as (lo & hi & -> & _). vm_compute. reflexivity.
Defined.

(** C10, as the claim states it, fails: on a template of the expected
    shape and with an empty year map, a build that cannot read a metadata
    file, one whose title lxml refuses and one whose template lacks the
    self-link placeholder raise before the years are looked at. *)
Lemma collection_record_without_years_raises_earlier :
  xpath (collection_template example_header) proxy_list_path = [[1; 0]] ∧
  xpath (collection_template example_header) (collection_components_path example_env)
  = [[2; 0]] ∧
  result (make_collection_record offline_env "collection.xml"
            (collection_template example_header) "9200396" "Example Gazette" ∅
            example_records "/metadata")
  = Raise (OSError "/metadata/3000118435146.xml") ∧
  result (make_collection_record example_env "collection.xml"
            (collection_template example_header) "9200396" title_with_control_character ∅
            example_records "/metadata")
  = Raise ValueError ∧
  xpath (collection_template header_without_selflink) proxy_list_path = [[1; 0]] ∧
  xpath (collection_template header_without_selflink)
    (collection_components_path example_env) = [[2; 0]] ∧
  result (make_collection_record example_env "collection.xml"
            (collection_template header_without_selflink) "9200396" "Example Gazette" ∅
            example_records "/metadata")
  = Raise (IndexError "selflink_header[0]").
Proof. repeat split; vm_compute; reflexivity. Qed.

(** C10, amended: the collection builder has no check of its own for an
    empty year map. On a template of the expected shape, a non-empty year
    map makes the first and the last element of the sorted years available,
    and the only [IndexError] the build can raise is the one of the missing
    self link. With an empty year map the build returns neither a document
    nor [None]: it raises. What it raises is the [IndexError] of
    [sorted_years[0]] exactly when the steps before the access pass: header
    population returns, lxml accepts the landing page URL, the collection
    id and the title, and every metadata file can be read. *)
Theorem collection_record_needs_years (E : env) file_name template collection_id title
    (year_files : gmap string string) records metadata_dir p q :
  xpath template proxy_list_path = [p] →
  xpath template (collection_components_path E) = [q] →
  (year_files ≠ ∅ →
   (∃ year_lower year_higher,
      first_item "sorted_years[0]" (sorted year_files) = ret year_lower ∧
      last_item "sorted_years[-1]" (sorted year_files) = ret year_higher) ∧
   (∀ subscript,
      result (make_collection_record E file_name template collection_id title year_files
                records metadata_dir) = Raise (IndexError subscript) →
      subscript = "selflink_header[0]")) ∧
  (year_files = ∅ →
   (∃ e,
      result (make_collection_record E file_name template collection_id title year_files
                records metadata_dir) = Raise e) ∧
   (result (make_collection_record E file_name template collection_id title year_files
              records metadata_dir) = Raise (IndexError "sorted_years[0]") ↔
    (∃ doc, result (set_metadata_headers E template collection_id file_name) = Return doc) ∧
    texts_accepted [LANDING_PAGE_URL E; collection_id; title] ∧
    files_readable E records metadata_dir)).
Proof.
  intros Hp Hq.
  pose proof (make_collection_record_result E file_name template collection_id title
                year_files records metadata_dir) as Hrun.
  rewrite Hp, Hq in Hrun. cbv zeta in Hrun.
  set (r := node _ q) in Hrun.
  split.
  - intros Hne. split.
    { destruct (sorted_bounds year_files Hne) as (lo & hi & Hlo & Hhi & _).
      exists lo, hi. unfold first_item, last_item. by rewrite Hlo, Hhi. }
    intros subscript. rewrite Hrun.
    destruct (result (set_metadata_headers E template collection_id file_name))
      as [d|e] eqn:Hh.
    2:{ intros [= ->]. by apply set_metadata_headers_raises_only in Hh as [[[= ->] _]|[? _]]. }
    destruct (forallb accepted _); [|done].
    destruct (result (load_emd_records E records metadata_dir)) as [recs|e] eqn:Hl.
    2:{ intros [= ->]. by apply load_emd_records_raises in Hl as [_ [path ?]]. }
    destruct (collection_insert_component_content_cases E r title year_files recs)
      as [(_ & ->)|[(_ & Hnil & _)|(_ & _ & root & ->)]]; [done| |done].
    by destruct (sorted_nonempty _ Hne).
  - intros ->.
    assert (forallb accepted
              (fixed_proxies E collection_id ++ year_proxies E collection_id ∅)
            = xml_compatible (LANDING_PAGE_URL E) && xml_compatible collection_id) as Hfixed.
    { unfold year_proxies. by rewrite sorted_empty, app_nil_r, accepted_fixed_proxies. }
    rewrite Hfixed in Hrun.
    assert (∀ recs,
              result (collection_insert_component_content E r title (sorted ∅) ∅ recs)
              = if xml_compatible title then Raise (IndexError "sorted_years[0]")
                else Raise ValueError) as Hcontent.
    { intros recs.
      destruct (collection_insert_component_content_cases E r title ∅ recs)
        as [(Hacc & ->)|[(Hacc & _ & ->)|(_ & Hne & _)]];
        [| |by rewrite sorted_empty in Hne];
        rewrite sorted_empty, ?andb_true_r in Hacc; by rewrite Hacc. }
    rewrite Hrun. split.
    + destruct (result (set_metadata_headers E template collection_id file_name));
        [|by eexists].
      destruct (_ && _); [|by eexists].
      destruct (result (load_emd_records E records metadata_dir)); [|by eexists].
      rewrite Hcontent. destruct (xml_compatible title); by eexists.
    + split.
      * destruct (result (set_metadata_headers E template collection_id file_name))
          as [d|e] eqn:Hh.
        2:{ intros [= ->].
            by apply set_metadata_headers_raises_only in Hh as [[[=] _]|[? _]]. }
        destruct (xml_compatible (LANDING_PAGE_URL E)) eqn:Hpage; [|done].
        destruct (xml_compatible collection_id) eqn:Hid; [|done]. cbn [andb].
        destruct (result (load_emd_records E records metadata_dir)) as [recs|e] eqn:Hl.
        2:{ intros [= ->]. by apply load_emd_records_raises in Hl as [_ [path ?]]. }
        rewrite Hcontent. destruct (xml_compatible title) eqn:Htitle; [|done]. intros _.
        split; [by exists d|]. split; [each_text|].
        by eapply load_emd_records_returns.
      * intros ([d ->] & Ht & Hfiles).
        apply texts_accepted_cons in Ht as [-> Ht].
        apply texts_accepted_cons in Ht as [-> Ht].
        apply texts_accepted_cons in Ht as [Htitle _]. cbn [andb].
        destruct (post_load_emd_records E records metadata_dir Hfiles) as (recs & -> & _).
        by rewrite Hcontent, Htitle.
Qed.

Lemma collection_record_needs_years_witness :
  (∃ year_lower year_higher,
     first_item "sorted_years[0]" (sorted example_years) = ret year_lower ∧
     last_item "sorted_years[-1]" (sorted example_years) = ret year_higher) ∧
  result (make_collection_record example_env "collection.xml"
            (collection_template example_header) "9200396" "Example Gazette" ∅
            example_records "/metadata") = Raise (IndexError "sorted_years[0]").
Proof.
  split.
  - exact (proj1 (proj1 (collection_record_needs_years example_env "collection.xml"
                           (collection_template example_header) "9200396" "Example Gazette"
                           example_years example_records "/metadata" [1; 0] [2; 0]
                           eq_refl eq_refl) example_years_nonempty)).
  - apply (proj2 (proj2 (collection_record_needs_years example_env "collection.xml"
                           (collection_template example_header) "9200396" "Example Gazette"
                           ∅ example_records "/metadata" [1; 0] [2; 0] eq_refl eq_refl)
                    eq_refl)).
    split; [eexists; vm_compute; reflexivity|].
    split; [each_text|exact example_files_readable].
Defined.


(** * Further properties of the code *)

(** ** The utilities of common.py *)

Lemma set_A_z_us_09 c : set_A_z_us c = true → set_A_z_09_us c = true.
Proof.
  unfold set_A_z_us, set_A_z_09_us.
  destruct (in_range "A" "z" c), (Ascii.eqb c "_"); cbn; try done.
  by rewrite orb_true_r.
Qed.

Lemma set_A_z_09_us_substitute c : set_A_z_09_us (substitute c) = true.
Proof. unfold substitute. by destruct (set_A_z_09_us c) eqn:Hc. Qed.

Lemma substitute_fixed c : set_A_z_09_us c = true → substitute c = c.
Proof. unfold substitute. by intros ->. Qed.

(** X1: whatever the value, [xml_id] gives a non-empty text whose first
    character is in [[A-z_]] and whose characters are all in [[A-z0-9_]],
    at most one character longer than the value; applying [xml_id] to such
    a text changes nothing, so [xml_id] is idempotent. *)
Theorem xml_id_idempotent (value : string) :
  (∃ c l, chars (xml_id value) = c :: l ∧ set_A_z_us c = true ∧
          Forall (λ c, set_A_z_09_us c = true) (c :: l)) ∧
  length (chars value) ≤ length (chars (xml_id value)) ≤ S (length (chars value)) ∧
  xml_id (xml_id value) = xml_id value.
Proof.
  assert (∃ c l, chars (xml_id value) = c :: l ∧ set_A_z_us c = true ∧
                 Forall (λ c, set_A_z_09_us c = true) (c :: l)) as Hshape.
  { rewrite chars_xml_id. destruct (chars value) as [|c l]; cbn [starts_id].
    - exists "_"%char, []. repeat split. by repeat constructor.
    - destruct (set_A_z_us c) eqn:Hc.
      + exists c, (substitute <$> l). rewrite fmap_cons.
        rewrite (substitute_fixed c) by by apply set_A_z_us_09.
        repeat split; [done|]. constructor; [by apply set_A_z_us_09|].
        apply Forall_fmap, Forall_true. intros ?. apply set_A_z_09_us_substitute.
      + exists "_"%char, (substitute <$> c :: l). repeat split.
        constructor; [done|]. apply Forall_fmap, Forall_true.
        intros ?. apply set_A_z_09_us_substitute. }
  split; [done|]. split.
  - rewrite chars_xml_id. destruct (starts_id (chars value)); rewrite length_fmap; cbn; lia.
  - destruct Hshape as (c & l & Hcl & Hc & Hall).
    apply chars_inj. rewrite (chars_xml_id (xml_id value)), Hcl. cbn [starts_id].
    rewrite Hc. revert Hall. generalize (c :: l). clear.
    induction 1 as [|a k Ha _ IH]; [done|]. by rewrite fmap_cons, IH, substitute_fixed.
Qed.

(** X2: a date [is_valid_date] accepts starts with four digits, and
    [date_to_year] returns exactly those four characters. *)
Theorem date_to_year_of_valid_date (date : string) :
  is_valid_date date = true →
  date_to_year date = Some (str (take 4 (chars date))) ∧
  Forall is_digit (take 4 (chars date)) ∧ length (take 4 (chars date)) = 4.
Proof.
  rewrite is_valid_date_eq, date_to_year_eq. intros [H _]%andb_prop. split.
  - destruct (chars date) as [|c l]; cbn [find_date]; by rewrite H.
  - revert H. generalize (chars date). intros l H.
    do 10 (destruct l as [|? l]; [done|]). cbn in H. cbn [take].
    do 9 (apply andb_prop in H as [H ?]). split; [|done].
    unfold is_digit. by repeat constructor.
Qed.

Lemma date_to_year_of_valid_date_witness :
  is_valid_date "1920-05-03" = true ∧ date_to_year "1920-05-03" = Some "1920".
Proof.
  split; [reflexivity|].
  exact (proj1 (date_to_year_of_valid_date "1920-05-03" eq_refl)).
Defined.

(** X3: [id_to_filename] and [filename_safe] keep the length of their
    argument and are idempotent; the result of [id_to_filename] has no slash,
    and the result of [filename_safe] consists of characters of [[A-z0-9]],
    so it has no slash and no dot either. *)
Theorem filename_characters (name : string) :
  (length (chars (id_to_filename name)) = length (chars name) ∧
   ("/"%char ∉ chars (id_to_filename name)) ∧
   id_to_filename (id_to_filename name) = id_to_filename name) ∧
  (length (chars (filename_safe name)) = length (chars name) ∧
   Forall (λ c, set_A_z_09 c = true) (chars (filename_safe name)) ∧
   ("/"%char ∉ chars (filename_safe name)) ∧ ("."%char ∉ chars (filename_safe name)) ∧
   filename_safe (filename_safe name) = filename_safe name).
Proof.
  assert (∀ l, l ≫= (λ c, if re.neg set_A_z_09 c then chars "_" else [c])
               = (λ c, if set_A_z_09 c then c else "_"%char) <$> l) as Hsub.
  { induction l as [|c l IH]; [done|]. rewrite bind_cons, IH. cbn.
    unfold re.neg. by destruct (set_A_z_09 c). }
  assert (Forall (λ c, set_A_z_09 c = true) (chars (filename_safe name))) as Hsafe.
  { unfold filename_safe, re.sub_set. rewrite chars_str, Hsub.
    apply Forall_fmap, Forall_true. intros c. unfold compose.
    destruct (set_A_z_09 c) eqn:Hc; [done|reflexivity]. }
  split; [split; [|split]|split; [|split; [|split; [|split]]]].
  - unfold id_to_filename. by rewrite chars_str, length_fmap.
  - unfold id_to_filename. rewrite chars_str.
    intros (c & Hc & _)%list_elem_of_fmap. by destruct (Ascii.eqb_spec c "/").
  - unfold id_to_filename. rewrite !chars_str, <- list_fmap_compose. f_equal.
    apply list_fmap_ext. intros _ c _. unfold compose.
    destruct (Ascii.eqb c "/") eqn:Hc; [reflexivity|by rewrite Hc].
  - unfold filename_safe, re.sub_set. by rewrite chars_str, Hsub, length_fmap.
  - done.
  - intros H. by apply (proj1 (Forall_forall _ _) Hsafe) in H.
  - intros H. by apply (proj1 (Forall_forall _ _) Hsafe) in H.
  - apply chars_inj. unfold filename_safe at 1, re.sub_set. rewrite chars_str, Hsub.
    induction Hsafe as [|c l Hc _ IH]; [done|]. by rewrite fmap_cons, IH, Hc.
Qed.

(** *** What [normalize_identifier] computes *)

Lemma star_set_complete {A} p (k : nat → list ascii → option A) i s n :
  Forall (λ c, p c = true) (take n s) → n ≤ length s →
  is_Some (k (i + n) (drop n s)) → is_Some (re.star_set p k i s).
Proof.
  revert i n. induction s as [|c s IH]; intros i [|n] Hall Hlen Hk; cbn in *.
  - by rewrite Nat.add_0_r in Hk.
  - lia.
  - rewrite Nat.add_0_r in Hk. destruct (p c); [|done].
    by destruct (re.star_set p k (S i) s).
  - apply Forall_cons in Hall as [-> Hall].
    destruct (IH (S i) n Hall ltac:(lia)) as [b ->]; [|done].
    by rewrite Nat.add_succ_comm.
Qed.

Lemma search_from_complete r i s n :
  n ≤ length s → is_Some (re.match_at r (i + n) (drop n s)) →
  is_Some (re.search_from r i s).
Proof.
  revert i n. induction s as [|c s IH]; intros i [|n] Hlen Hm; cbn in *.
  - rewrite Nat.add_0_r in Hm. by destruct (re.match_at r i []).
  - lia.
  - rewrite Nat.add_0_r in Hm. by destruct (re.match_at r i (c :: s)).
  - destruct (re.match_at r i (c :: s)); [done|].
    apply (IH (S i) n); [lia|]. by rewrite Nat.add_succ_comm.
Qed.

Lemma match_at_identifier_pattern_complete i mid c g tail :
  Forall (λ c, re.dot c = true) mid → re.digit c = false →
  g ≠ [] → Forall is_digit g → tail = [] ∨ tail = [newline] →
  is_Some (re.match_at identifier_pattern i (chars "http" ++ mid ++ [c] ++ g ++ tail)).
Proof.
  intros Hmid Hc Hne Hg Htail. unfold re.match_at, identifier_pattern. cbn.
  destruct g as [|d g]; [done|]. apply Forall_cons in Hg as [Hd Hg].
  apply (star_set_complete _ _ _ _ (length mid)).
  { by rewrite take_app_length. }
  { rewrite length_app. lia. }
  rewrite drop_app_length. cbn. unfold re.neg. rewrite Hc, Hd. cbn.
  apply (star_set_complete _ _ _ _ (length g)).
  { by rewrite take_app_length. }
  { rewrite length_app. lia. }
  rewrite drop_app_length. by destruct Htail as [->| ->].
Qed.

(** The text a match of the identifier pattern starts at. *)
Lemma match_at_identifier_pattern_shape i s m :
  re.match_at identifier_pattern i s = Some m →
  ∃ mid c g tail,
    s = chars "http" ++ mid ++ [c] ++ g ++ tail ∧
    Forall (λ c, re.dot c = true) mid ∧ re.digit c = false ∧
    g ≠ [] ∧ Forall is_digit g ∧ (tail = [] ∨ tail = [newline]) ∧
    re.group1 m = Some g.
Proof.
  unfold re.match_at, identifier_pattern. cbn. intros H.
  do 4 (destruct s as [|? s]; [done|]; cbn in H; case_match; [|done]).
  repeat match goal with H : Ascii.eqb _ _ = true |- _ => apply Ascii.eqb_eq in H as -> end.
  apply star_set_Some in H as (n & Hmid & H). cbn in H.
  destruct (drop n s) as [|c1 s1] eqn:Hs; [done|].
  destruct (re.neg re.digit c1) eqn:Hc1; [|done].
  destruct s1 as [|c2 s2]; [done|].
  destruct (re.digit c2) eqn:Hc2; [|done].
  apply star_set_Some in H as (k & Hk & H). cbn in H.
  replace (S (i + n + k) - (i + n)) with (S k) in H by lia.
  assert (re.group1 m = Some (c2 :: take k s2) ∧
          (drop k s2 = [] ∨ drop k s2 = [newline])) as [Hg Htail].
  { destruct (drop k s2) as [|c3 [|c4 s4]]; cbn in H; [| |done].
    - injection H as <-. by split; [|left].
    - destruct (Ascii.eqb c3 newline) eqn:Hc3; [|done].
      apply Ascii.eqb_eq in Hc3. rewrite Hc3.
      injection H as <-. by split; [|right]. }
  exists (take n s), c1, (c2 :: take k s2), (drop k s2).
  split; [|split; [done|split; [|split; [done|split; [by constructor|done]]]]].
  - cbn. do 4 f_equal. rewrite <- (take_drop n s) at 1. rewrite Hs. f_equal. cbn.
    do 2 f_equal. by rewrite take_drop.
  - unfold re.neg in Hc1. by destruct (re.digit c1).
Qed.

(** The digits after the last character that is not a digit. *)
Lemma digits_suffix_unique l1 c1 d1 l2 c2 d2 :
  re.digit c1 = false → re.digit c2 = false → Forall is_digit d1 → Forall is_digit d2 →
  l1 ++ c1 :: d1 = l2 ++ c2 :: d2 → d1 = d2.
Proof.
  intros H1 H2 Hd1 Hd2. revert l2. induction l1 as [|a l1 IH]; intros [|b l2] H; cbn in H.
  - by injection H.
  - injection H as <- ->. apply Forall_app in Hd1 as [_ [Hc _]%Forall_cons].
    unfold is_digit in Hc. congruence.
  - injection H as -> <-. apply Forall_app in Hd2 as [_ [Hc _]%Forall_cons].
    unfold is_digit in Hc. congruence.
  - injection H as _ H. by apply (IH l2).
Qed.

(** X4: when [normalize_identifier] changes an identifier, the identifier
    has [http] somewhere, then characters other than newlines, then a
    character that is not a digit, then the digits that are returned, and
    after them nothing or one final newline; so what is returned is the run
    of digits at the end. *)
Theorem normalize_identifier_changed (identifier : string) :
  normalize_identifier identifier ≠ identifier →
  ∃ pre mid c g tail,
    chars identifier = pre ++ chars "http" ++ mid ++ [c] ++ g ++ tail ∧
    Forall (λ c, re.dot c = true) mid ∧ re.digit c = false ∧
    g ≠ [] ∧ Forall is_digit g ∧ (tail = [] ∨ tail = [newline]) ∧
    normalize_identifier identifier = str g.
Proof.
  unfold normalize_identifier, re.search.
  destruct (re.search_from identifier_pattern 0 (chars identifier)) as [m|] eqn:Hm; [|done].
  intros _. apply search_from_Some in Hm as (n & Hm).
  apply match_at_identifier_pattern_shape in Hm
    as (mid & c & g & tail & Hs & Hmid & Hc & Hne & Hg & Htail & Hgrp).
  exists (take n (chars identifier)), mid, c, g, tail.
  split; [by rewrite <- Hs, take_drop|]. repeat split; try done.
  unfold group_text. by rewrite Hgrp.
Qed.

Lemma normalize_identifier_changed_witness :
  normalize_identifier "http://data.theeuropeanlibrary.org/BibliographicResource/3000118435146"
  = "3000118435146".
Proof.
  destruct (normalize_identifier_changed
              "http://data.theeuropeanlibrary.org/BibliographicResource/3000118435146")
    as (pre & mid & c & g & tail & _ & _ & _ & _ & _ & _ & Hg).
  - vm_compute. discriminate.
  - reflexivity.
Defined.

Lemma last_digits_tail (l : list ascii) c g tail :
  g ≠ [] → last (l ++ c :: g ++ tail) = last (g ++ tail).
Proof.
  intros Hne. rewrite last_app, last_cons.
  destruct (last (g ++ tail)) eqn:E; [done|].
  apply last_None in E. by destruct g.
Qed.

(** X5: an identifier that has [http], then characters other than
    newlines, then a character that is not a digit and then only digits, at
    least one, possibly followed by one final newline, is normalized to
    those digits. *)
Theorem normalize_identifier_of_url (pre mid : list ascii) (c : ascii) (g tail : list ascii) :
  Forall (λ c, re.dot c = true) mid → re.digit c = false →
  g ≠ [] → Forall is_digit g → tail = [] ∨ tail = [newline] →
  normalize_identifier (str (pre ++ chars "http" ++ mid ++ [c] ++ g ++ tail)) = str g.
Proof.
  intros Hmid Hc Hne Hg Htail.
  set (s := pre ++ chars "http" ++ mid ++ [c] ++ g ++ tail).
  assert (is_Some (re.search_from identifier_pattern 0 s)) as [m Hm].
  { apply (search_from_complete _ 0 s (length pre)).
    { unfold s. rewrite length_app. lia. }
    unfold s. rewrite drop_app_length.
    by apply match_at_identifier_pattern_complete. }
  unfold normalize_identifier, re.search. rewrite chars_str, Hm.
  apply search_from_Some in Hm as (n & Hm).
  apply match_at_identifier_pattern_shape in Hm
    as (mid' & c' & g' & tail' & Hs & _ & Hc' & Hne' & Hg' & Htail' & Hgrp).
  unfold group_text. rewrite Hgrp. change (default [] (Some g')) with g'. f_equal.
  assert (s = (take n s ++ chars "http" ++ mid') ++ c' :: g' ++ tail') as Hs'.
  { rewrite <- (take_drop n s) at 1. rewrite Hs. by rewrite <- !app_assoc. }
  assert (s = (pre ++ chars "http" ++ mid) ++ c :: g ++ tail) as Hs''.
  { unfold s. by rewrite <- !app_assoc. }
  rewrite Hs'' in Hs'. clear Hs Hs''.
  assert (tail' = tail) as ->.
  { assert (last (g' ++ tail') = last (g ++ tail)) as Hlast.
    { apply (f_equal last) in Hs'. by rewrite !last_digits_tail in Hs'. }
    destruct Htail as [->| ->], Htail' as [->| ->]; try done.
    - rewrite app_nil_r, last_snoc in Hlast.
      destruct g as [|d g _] using rev_ind; [done|]. rewrite last_snoc in Hlast.
      injection Hlast as <-. by apply Forall_app in Hg as [_ [? _]%Forall_cons].
    - rewrite app_nil_r, last_snoc in Hlast.
      destruct g' as [|d g' _] using rev_ind; [done|]. rewrite last_snoc in Hlast.
      injection Hlast as ->. by apply Forall_app in Hg' as [_ [? _]%Forall_cons]. }
  assert (∀ (l : list ascii) a k, l ++ a :: k ++ tail = (l ++ a :: k) ++ tail) as Hassoc.
  { intros. by rewrite <- app_assoc. }
  rewrite !Hassoc in Hs'. apply app_inv_tail in Hs'.
  symmetry. by apply (digits_suffix_unique _ c _ _ c' _ Hc Hc' Hg Hg' Hs').
Qed.

Lemma normalize_identifier_of_url_witness :
  normalize_identifier
    (str (chars "see " ++ chars "http" ++ chars "://data.europeana.eu/annotation/9200396"
          ++ ["/"%char] ++ chars "3000118435009" ++ [newline]))
  = "3000118435009".
Proof.
  apply (normalize_identifier_of_url (chars "see ")
           (chars "://data.europeana.eu/annotation/9200396") "/"%char
           (chars "3000118435009") [newline]).
  - by apply (bool_decide_unpack _); vm_compute.
  - reflexivity.
  - discriminate.
  - by apply (bool_decide_unpack _); vm_compute.
  - by right.
Defined.

(** *** Distinct values *)

Lemma fromkeys_spec seen l :
  NoDup (dict.fromkeys seen l) ∧
  (∀ x, x ∈ dict.fromkeys seen l ↔ x ∈ l ∧ x ∉ seen) ∧
  sublist (dict.fromkeys seen l) l.
Proof.
  revert seen. induction l as [|x l IH]; intros seen; cbn.
  - split; [constructor|]. split; [|done]. intros x.
    split; [by intros ?%elem_of_nil|by intros [?%elem_of_nil _]].
  - destruct (IH seen) as (Hnd & Hin & Hsub), (IH (x :: seen)) as (Hnd' & Hin' & Hsub').
    case_decide as Hx.
    + split; [done|]. split; [|by apply sublist_cons]. intros y. rewrite Hin.
      rewrite elem_of_cons. split; [tauto|]. intros [[->|?] ?]; tauto.
    + split; [|split; [|by apply sublist_skip]].
      * constructor; [|done]. rewrite Hin'. rewrite elem_of_cons. tauto.
      * intros y. rewrite !elem_of_cons, Hin', elem_of_cons.
        destruct (decide (y = x)) as [->|]; tauto.
Qed.

Lemma fromkeys_prefix seen l k :
  dict.fromkeys seen l `prefix_of` dict.fromkeys seen (l ++ k).
Proof.
  revert seen. induction l as [|x l IH]; intros seen; cbn; [apply prefix_nil|].
  case_decide; [apply IH|apply prefix_cons, IH].
Qed.

(** X6: [get_unique_xpath_values] returns every value some document has
    for the path, each once, in the order in which [get_all_xpath_values]
    has them; values of further documents go after those of the earlier
    ones. *)
Theorem get_unique_xpath_values_distinct (E : env) (docs : list element) (path : string) :
  NoDup (get_unique_xpath_values E docs path) ∧
  (∀ v, v ∈ get_unique_xpath_values E docs path
        ↔ ∃ doc, doc ∈ docs ∧ v ∈ xpath_values E doc path) ∧
  sublist (get_unique_xpath_values E docs path) (get_all_xpath_values E docs path) ∧
  (∀ more, get_unique_xpath_values E docs path
           `prefix_of` get_unique_xpath_values E (docs ++ more) path).
Proof.
  unfold get_unique_xpath_values.
  destruct (fromkeys_spec [] (get_all_xpath_values E docs path)) as (Hnd & Hin & Hsub).
  split; [done|]. split; [|split; [done|]].
  - intros v. rewrite Hin. unfold get_all_xpath_values. rewrite list_elem_of_bind.
    split.
    + intros [(doc & ? & ?) _]. by exists doc.
    + intros (doc & ? & ?). split; [by exists doc|]. apply not_elem_of_nil.
  - intros more. unfold get_all_xpath_values. rewrite bind_app. apply fromkeys_prefix.
Qed.


(** ** The parts of a record-level build *)

Section parts.
Context (E : env).


Lemma resolved_cons identifier entry records :
  resolved E ((identifier, entry) :: records)
  = (if (0 <? length (resolved_refs E entry))%nat
     then [(identifier, resolved_refs E entry)] else []) ++ resolved E records.
Proof.
  unfold resolved. rewrite fmap_cons, filter_cons. cbn.
  destruct (resolved_refs E entry); [by rewrite decide_False by auto|].
  by rewrite decide_True.
Qed.

Lemma keys_resolved records : dict.keys (resolved E records) ⊆ dict.keys records.
Proof.
  unfold resolved, dict.keys. intros k ([k' v] & -> & Hin)%list_elem_of_fmap.
  apply list_elem_of_filter in Hin as [_ ([k'' entry] & [= -> ->] & Hin)%list_elem_of_fmap].
  apply list_elem_of_fmap. by exists (k'', entry).
Qed.

Lemma retrieve_iiif_annotation_refs_loop records acc :
  NoDup (dict.keys records) →
  (∀ k, k ∈ dict.keys acc → k ∉ dict.keys records) →
  result (for_ records
            (λ labeled_refs '(identifier, entry),
               match manifest_urls entry with
               | None =>
                   log WARNING ("No manifest URLs specified for record " +:+ identifier) ;;
                   ret labeled_refs
               | Some urls =>
                   let refs := retrieve_annotation_refs E <$> urls in
                   let url_labeled_refs := omap id (mjoin refs) in
                   if (0 <? length url_labeled_refs)%nat
                   then ret (dict.set identifier url_labeled_refs labeled_refs)
                   else ret labeled_refs
               end) acc)
  = Return (acc ++ resolved E records).
Proof.
  revert acc. induction records as [|[identifier entry] records IH]; intros acc Hnd Hacc.
  { cbn. by rewrite app_nil_r. }
  cbn in Hnd. apply NoDup_cons in Hnd as [Hid Hnd].
  cbn [for_]. rewrite result_bind, resolved_cons. unfold resolved_refs.
  destruct (manifest_urls entry) as [urls|] eqn:Hm; cbv zeta.
  - destruct (0 <? length (omap id (mjoin (retrieve_annotation_refs E <$> urls)))) eqn:Hlen;
      cbn [result ret snd].
    + rewrite IH; [|done|].
      * rewrite set_fresh; [by rewrite <- app_assoc|].
        intros Hin. apply (Hacc _ Hin). left.
      * intros k. rewrite keys_set. rewrite decide_False.
        2:{ intros Hin. apply (Hacc _ Hin). left. }
        intros [Hin| ->%list_elem_of_singleton]%elem_of_app; [|done].
        intros Hk. apply (Hacc _ Hin). by right.
    + apply IH; [done|]. intros k Hin Hk. apply (Hacc _ Hin). by right.
  - cbn. apply IH; [done|]. intros k Hin Hk. apply (Hacc _ Hin). by right.
Qed.

End parts.



(** X8: when the identifiers of the records map are pairwise distinct, as
    the keys of a dictionary are, [retrieve_iiif_annotation_refs] returns
    the identifiers with what their manifests resolve to, in the order of
    the records map, the identifiers that resolve to nothing left out. *)
Theorem retrieve_iiif_annotation_refs_resolved (E : env) (records : dict.t record_entry) :
  NoDup (dict.keys records) →
  result (retrieve_iiif_annotation_refs E records) = Return (resolved E records).
Proof.
  intros Hnd. unfold retrieve_iiif_annotation_refs.
  rewrite retrieve_iiif_annotation_refs_loop; [done..|]. by intros k Hk%elem_of_nil.
Qed.

Lemma retrieve_iiif_annotation_refs_resolved_witness :
  result (retrieve_iiif_annotation_refs example_env example_records)
  = Return
      [("3000118435146", [("https://iiif.example.org/3000118435146/manifest/1.jpg", "page 1")]);
       ("3000118435009", [("https://iiif.example.org/3000118435009/manifest/1.jpg", "page 1")])].
Proof.
  rewrite (retrieve_iiif_annotation_refs_resolved example_env example_records).
  - reflexivity.
  - apply (bool_decide_unpack _). vm_compute. exact I.
Defined.


(** X9: when every metadata file of the records map can be read,
    [load_emd_records] returns the documents [etree.parse] gives for the
    entries, in the order of the records map; an entry without a file name
    and a file that is not well-formed are passed over, each with one line
    of level ERROR in the log. *)
Theorem load_emd_records_readable (E : env) (records : dict.t record_entry)
    (metadata_dir : string) :
  files_readable E records metadata_dir →
  result (load_emd_records E records metadata_dir)
  = Return (omap (parsed_document E metadata_dir) records) ∧
  length (List.filter is_error (logs (load_emd_records E records metadata_dir)))
  + length (omap (parsed_document E metadata_dir) records)
  = length records.
Proof.
  intros Hr. destruct (load_emd_records_closed E records metadata_dir Hr) as (l & -> & Hlen).
  by split.
Qed.

Lemma load_emd_records_readable_witness :
  files_readable example_env example_records "/metadata" ∧
  result (load_emd_records example_env example_records "/metadata")
  = Return [Element (plain "RDF") [] (Some "/metadata/3000118435146.xml") [];
            Element (plain "RDF") [] (Some "/metadata/3000118435009.xml") []].
Proof.
  split; [exact example_files_readable|].
  exact (proj1 (load_emd_records_readable example_env example_records "/metadata"
                  example_files_readable)).
Defined.

(** X10: the one error [load_emd_records] does not catch is that of a
    file that cannot be read. The first such file ends the loop with its
    [OSError], right after the line that announces the file; and whenever
    the loop raises, what it raises is the [OSError] of a file of the
    records map that cannot be read. *)
Theorem load_emd_records_unreadable (E : env) (records : dict.t record_entry)
    (metadata_dir : string) :
  (∀ before identifier entry rest file_name,
     records = before ++ (identifier, entry) :: rest →
     files_readable E before metadata_dir →
     file entry = Some file_name →
     etree_parse E (metadata_dir +:+ "/" +:+ file_name) = Unreadable →
     result (load_emd_records E records metadata_dir)
     = Raise (OSError (metadata_dir +:+ "/" +:+ file_name)) ∧
     last (logs (load_emd_records E records metadata_dir))
     = Some (DEBUG, "Loading metadata file " +:+ (metadata_dir +:+ "/" +:+ file_name))) ∧
  (∀ e, result (load_emd_records E records metadata_dir) = Raise e →
        ∃ identifier entry file_name,
          (identifier, entry) ∈ records ∧ file entry = Some file_name ∧
          etree_parse E (metadata_dir +:+ "/" +:+ file_name) = Unreadable ∧
          e = OSError (metadata_dir +:+ "/" +:+ file_name)).
Proof.
  split; [|apply load_emd_records_raise].
  intros before identifier entry rest file_name -> Hr Hf Hu.
  destruct (load_emd_records_closed E before metadata_dir Hr) as (l & Hl & _).
  unfold load_emd_records in *. rewrite for_app, Hl. cbn [for_].
  rewrite Hf, Hu. cbn. split; [done|]. apply last_snoc.
Qed.

Lemma load_emd_records_unreadable_witness :
  result (load_emd_records offline_env example_records "/metadata")
  = Raise (OSError "/metadata/3000118435146.xml").
Proof.
  refine (proj1 (proj1 (load_emd_records_unreadable offline_env example_records "/metadata")
                   [] "3000118435146" _ _ "3000118435146.xml" eq_refl _ eq_refl eq_refl)).
  constructor.
Defined.


(** *** The header texts *)

Section header_texts.
Context (E : env).

Lemma xpath_header doc field p :
  p ∈ xpath doc (header_path field) →
  ∃ x, get p doc = Some x ∧ length p = 2 ∧ tag x = cmd field.
Proof.
  intros (x & Hx & Hlen & Htag)%xpath_get. exists x. split; [done|].
  rewrite header_path_length in Hlen. split; [lia|].
  destruct (Htag (cmd field) eq_refl) as [?|?]; [lia|done].
Qed.

Lemma node_with_header_text_same doc field v p l :
  xpath doc (header_path field) = p :: l →
  text (node (with_header_text field v doc) p) = Some v.
Proof.
  intros Hp. unfold with_header_text. rewrite Hp.
  destruct (xpath_header doc field p) as (x & Hx & _); [rewrite Hp; left|].
  by rewrite (node_get _ _ _ (get_update_eq p (set_text v) doc x Hx)).
Qed.

Lemma node_with_header_text_other doc field v other p :
  other ≠ field → p ∈ xpath doc (header_path other) →
  node (with_header_text field v doc) p = node doc p.
Proof.
  intros Hne Hp. unfold with_header_text.
  destruct (xpath doc (header_path field)) as [|q l] eqn:Hq; [done|].
  destruct (xpath_header doc other p Hp) as (x & Hx & Hlp & Htx).
  destruct (xpath_header doc field q) as (y & Hy & Hlq & Hty); [rewrite Hq; left|].
  unfold node. rewrite get_update_ne, Hx; [done|lia|].
  intros ->. rewrite Hx in Hy. injection Hy as ->. rewrite Htx in Hty.
  by injection Hty.
Qed.

End header_texts.

Ltac header_other :=
  match goal with
  | H : xpath _ (header_path ?f) = ?p :: _
    |- context [node (with_header_text ?g ?v ?d) ?p] =>
      rewrite (node_with_header_text_other d g v f p)
        by (done || (rewrite ?xpath_with_header_text, H; left))
  end.

Ltac header_same :=
  match goal with
  | H : xpath ?d (header_path ?f) = ?p :: ?l |- _ =>
      apply (node_with_header_text_same _ f _ p l);
      rewrite ?xpath_with_header_text; exact H
  end.

(** X11: when [set_metadata_headers] returns it has written no log line
    and has kept the elements of the document, and the first element at
    each header path has its text: the script name for the creator, the
    date of today for the creation date, and the collection display name.
    The self link is set to base URL, collection id and file name when the
    document has a creation date element; without one the self link is left
    as it was. *)
Theorem set_metadata_headers_texts (E : env) (doc : element)
    (collection_id record_file_name : string) (doc' : element) :
  result (set_metadata_headers E doc collection_id record_file_name) = Return doc' →
  logs (set_metadata_headers E doc collection_id record_file_name) = [] ∧
  same_skeleton doc doc' ∧
  (∀ p l, xpath doc (header_path "MdCreator") = p :: l →
          text (node doc' p) = Some (script_basename E)) ∧
  (∀ p l, xpath doc (header_path "MdCreationDate") = p :: l →
          text (node doc' p) = Some (today_string E)) ∧
  (∀ p l, xpath doc (header_path "MdSelfLink") = p :: l →
          text (node doc' p)
          = if decide (xpath doc (header_path "MdCreationDate") = [])
            then text (node doc p)
            else Some (CMDI_RECORDS_BASE_URL E +:+ "/" +:+ collection_id +:+ "/"
                       +:+ record_file_name)) ∧
  (∀ p l, xpath doc (header_path "MdCollectionDisplayName") = p :: l →
          text (node doc' p) = Some (COLLECTION_DISPLAY_NAME E)).
Proof.
  intros [Hsl ->]%set_metadata_headers_returns. unfold selflink_with_creation_date in Hsl.
  split; [apply logs_set_metadata_headers|].
  split; [apply same_skeleton_with_headers|]. unfold with_headers.
  destruct (xpath doc (header_path "MdCreationDate")) as [|pd ld] eqn:Hd.
  - split; [|split; [done|split]].
    + intros p l Hp. do 2 header_other. header_same.
    + intros p l Hp. rewrite decide_True by done. by do 3 header_other.
    + intros p l Hp. header_same.
  - destruct (xpath doc (header_path "MdSelfLink")) as [|ps ls] eqn:Hs;
      [by destruct Hsl|].
    split; [|split; [|split]].
    + intros p l Hp. do 3 header_other. header_same.
    + intros p l [= <- <-]. do 2 header_other. header_same.
    + intros p l [= <- <-]. rewrite decide_False by done. header_other. header_same.
    + intros p l Hp. header_same.
Qed.

Lemma set_metadata_headers_texts_witness :
  ∃ doc',
    result (set_metadata_headers example_env (record_template example_header) "9200396"
              "record.xml") = Return doc' ∧
    text (node doc' [0; 2]) = Some "https://example.org/records/9200396/record.xml".
Proof.
  eexists. split; [vm_compute; reflexivity|].
  match goal with
  | |- text (node ?d _) = _ =>
      destruct (set_metadata_headers_texts example_env (record_template example_header)
                  "9200396" "record.xml" d eq_refl) as (_ & _ & _ & _ & Hlink & _)
  end.
  exact (Hlink [0; 2] [] eq_refl).
Defined.


(** ** The command line *)

Section command_line.
Context (executable file : string).

Lemma mode_cases command :
  command = main.MODE_RETRIEVE ∨ command = main.MODE_GENERATE_CMDI ∨ command ∉ main.modes.
Proof.
  destruct (decide (command = main.MODE_RETRIEVE)); [by left|].
  destruct (decide (command = main.MODE_GENERATE_CMDI)); [by right; left|].
  right. right. intros Hin.
  apply elem_of_cons in Hin as [?|Hin]; [done|].
  apply elem_of_cons in Hin as [?|Hin]; [done|]. by apply elem_of_nil in Hin.
Qed.

(** The runs of [main], by the shape of the command line. *)
Lemma main_runs argv (r := main.main executable file argv) :
  (length argv ≤ 1 ∧ main.calls r = [] ∧ r.2 = main.Exits 0 ∧
   last (r.1) = Some (main.Print (main.usage executable file))) ∨
  (∃ prog command arguments,
     argv = prog :: command :: arguments ∧ (command ∉ main.modes) ∧
     main.calls r = [] ∧ r.2 = main.Exits 1 ∧
     last (r.1) = Some (main.Print (main.usage executable file))) ∨
  (∃ prog,
     argv = [prog; main.MODE_RETRIEVE] ∧
     main.calls r = [] ∧ r.2 = main.Exits 1 ∧
     last (r.1) = Some (main.Print (main.usage executable file))) ∨
  (∃ prog collection_id rest,
     argv = prog :: main.MODE_RETRIEVE :: collection_id :: rest ∧
     main.calls r = [main.CallRetrieve collection_id] ∧ r.2 = main.Returns tt) ∨
  (∃ prog arguments,
     argv = prog :: main.MODE_GENERATE_CMDI :: arguments ∧ length arguments ≤ 1 ∧
     main.calls r = [] ∧ r.2 = main.Exits 1 ∧
     last (r.1) = Some (main.Print (main.usage executable file))) ∨
  (∃ prog metadata_path fulltext_path rest,
     argv = prog :: main.MODE_GENERATE_CMDI :: metadata_path :: fulltext_path :: rest ∧
     main.calls r = [main.CallGenerate metadata_path fulltext_path []] ∧
     r.2 = main.Returns tt).
Proof.
  unfold r. clear r.
  destruct argv as [|prog [|command arguments]];
    [left; split; [cbn; lia|done]|left; split; [cbn; lia|done]|].
  right. destruct (mode_cases command) as [->|[->|Hno]].
  - destruct arguments as [|collection_id rest].
    + right. left. by exists prog.
    + do 2 right. left. by exists prog, collection_id, rest.
  - destruct arguments as [|metadata_path [|fulltext_path rest]].
    + do 3 right. left. exists prog, []. repeat split; cbn; done || lia.
    + do 3 right. left. exists prog, [metadata_path]. repeat split; cbn; done || lia.
    + do 4 right. by exists prog, metadata_path, fulltext_path, rest.
  - left. exists prog, command, arguments. split; [done|]. split; [done|].
    unfold main.main. rewrite decide_False by done. done.
Qed.

End command_line.

(** X12: [main] calls a collaborator at most once, and it returns exactly
    when it has called one; otherwise it ends with [exit], the usage being
    the last thing printed, with code 0 when there is no command and code 1
    when there is one. [api_retrieval.retrieve] is called exactly for a
    command line [retrieve <id> ...], with that id; [generate_cmdi.generate]
    exactly for [generate-cmdi <metadata> <fulltext> ...], with these two
    paths and an empty filter. Further arguments are ignored. *)
Theorem main_dispatch (executable file : string) (argv : list string) :
  let r := main.main executable file argv in
  length (main.calls r) ≤ 1 ∧
  (r.2 = main.Returns tt ↔ length (main.calls r) = 1) ∧
  (∀ code, r.2 = main.Exits code →
           code = (if decide (length argv ≤ 1) then 0 else 1) ∧
           last (r.1) = Some (main.Print (main.usage executable file))) ∧
  (∀ collection_id,
     main.CallRetrieve collection_id ∈ main.calls r
     ↔ ∃ prog rest, argv = prog :: "retrieve" :: collection_id :: rest) ∧
  (∀ metadata_path fulltext_path filter,
     main.CallGenerate metadata_path fulltext_path filter ∈ main.calls r
     ↔ filter = [] ∧
       ∃ prog rest, argv = prog :: "generate-cmdi" :: metadata_path :: fulltext_path :: rest).
Proof.
  intros r.
  destruct (main_runs executable file argv)
    as [(Hlen & Hc & He & Hu)
       |[(prog & command & arguments & -> & Hno & Hc & He & Hu)
        |[(prog & -> & Hc & He & Hu)
         |[(prog & collection_id & rest & -> & Hc & He)
          |[(prog & arguments & -> & Hlen & Hc & He & Hu)
           |(prog & metadata_path & fulltext_path & rest & -> & Hc & He)]]]]];
    fold r in Hc, He; try fold r in Hu; rewrite Hc, He; clearbody r.
  - split; [cbn; lia|]. split; [done|]. split.
    { intros code [= <-]. by rewrite decide_True. }
    split.
    + intros id. split; [by intros ?%elem_of_nil|].
      intros (? & ? & ->). cbn in Hlen. lia.
    + intros m f flt. split; [by intros ?%elem_of_nil|].
      intros (_ & ? & ? & ->). cbn in Hlen. lia.
  - split; [cbn; lia|]. split; [done|]. split.
    { intros code [= <-]. rewrite decide_False by (cbn; lia). done. }
    split.
    + intros id. split; [by intros ?%elem_of_nil|].
      intros (? & ? & H). simplify_eq. destruct Hno. left.
    + intros m f flt. split; [by intros ?%elem_of_nil|].
      intros (_ & ? & ? & H). simplify_eq. destruct Hno. right. left.
  - split; [cbn; lia|]. split; [done|]. split.
    { intros code [= <-]. rewrite decide_False by (cbn; lia). done. }
    split.
    + intros id. split; [by intros ?%elem_of_nil|]. by intros (? & ? & [=]).
    + intros m f flt. split; [by intros ?%elem_of_nil|]. by intros (_ & ? & ? & [=]).
  - split; [cbn; lia|]. split; [done|]. split; [done|]. split.
    + intros id. rewrite list_elem_of_singleton. split.
      * intros [= ->]. by exists prog, rest.
      * intros (? & ? & H). by simplify_eq.
    + intros m f flt. rewrite list_elem_of_singleton. split; [done|].
      by intros (_ & ? & ? & [=]).
  - split; [cbn; lia|]. split; [done|]. split.
    { intros code [= <-]. rewrite decide_False by (cbn; lia). done. }
    split.
    + intros id. split; [by intros ?%elem_of_nil|]. by intros (? & ? & [=]).
    + intros m f flt. split; [by intros ?%elem_of_nil|].
      intros (_ & ? & ? & H). simplify_eq. cbn in Hlen. lia.
  - split; [cbn; lia|]. split; [done|]. split; [done|]. split.
    + intros id. rewrite list_elem_of_singleton. split; [done|].
      by intros (? & ? & [=]).
    + intros m f flt. rewrite list_elem_of_singleton. split.
      * intros [= -> -> ->]. split; [done|]. by exists prog, rest.
      * intros (-> & ? & ? & H). by simplify_eq.
Qed.


(** ** The components of a record and what they refer to *)

Section components.
Context (E : env).
Implicit Types (parent r : element) (ns : string) (ids : list string).

Lemma refers_to_other ids c : local (tag c) ≠ "Subresource" → refers_to ids c.
Proof. intros Hc r. unfold subresource_ref. by rewrite decide_False. Qed.

Lemma subresource_ref_subresource ns ref c :
  subresource_ref (Element (QName ns "Subresource") [(cmd_ref_attribute, ref)] None c)
  = Some ref.
Proof.
  unfold subresource_ref. rewrite decide_True by done. cbn. by rewrite decide_True.
Qed.

Lemma refers_to_subresource ids ns ref c :
  ref ∈ ids →
  refers_to ids (Element (QName ns "Subresource") [(cmd_ref_attribute, ref)] None c).
Proof. intros Hin r. rewrite subresource_ref_subresource. by intros [= <-]. Qed.

Local Ltac other := apply grows_append, refers_to_other; by cbn.

Lemma refs_insert_title_and_description ids parent title year :
  ensures (grows (refers_to ids) parent) (insert_title_and_description E parent title year).
Proof.
  unfold insert_title_and_description.
  eapply ensures_bind; [apply ensures_checked|]. intros title_text _.
  eapply ensures_bind; [apply ensures_checked|]. intros description_text _.
  apply ensures_ret. repeat (eapply grows_trans; [|other]). apply grows_refl.
Qed.

Lemma refs_insert_keywords ids parent recs ns :
  grows (refers_to ids) parent (insert_keywords E parent recs ns).
Proof. apply grows_foldl. intros. other. Qed.

Lemma refs_insert_publisher ids parent recs ns :
  grows (refers_to ids) parent (insert_publisher E parent recs ns).
Proof. apply grows_foldl. intros. other. Qed.

Lemma refs_insert_languages ids parent recs ns :
  post (grows (refers_to ids) parent) (insert_languages E parent recs ns).
Proof.
  apply post_for_grows. intros e code _. unfold create_language_component.
  eapply post_bind with (Q := λ _, True).
  - repeat case_match; try (by apply post_ret); by apply post_log, post_ret.
  - intros [l|] _; apply post_ret; other.
Qed.

Lemma refs_temporal_coverage ids parent year :
  grows (refers_to ids) parent (append (record_temporal_coverage E year) parent).
Proof. other. Qed.

Lemma refs_insert_countries ids parent recs ns :
  grows (refers_to ids) parent (insert_countries E parent recs ns).
Proof. apply grows_foldl. intros. other. Qed.

Lemma refs_insert_licences ids parent recs ns :
  grows (refers_to ids) parent (insert_licences E parent recs ns).
Proof. unfold insert_licences. case_match; [other|apply grows_refl]. Qed.

Lemma refs_insert_related_resources ids parent recs ns :
  grows (refers_to ids) parent (insert_related_resources E parent recs ns).
Proof.
  apply grows_foldl. intros e record _. cbv beta zeta. case_match; [|apply grows_refl].
  apply grows_foldl. intros. other.
Qed.

Lemma refs_insert_metadata_info ids parent :
  grows (refers_to ids) parent (insert_metadata_info E parent).
Proof. other. Qed.

Lemma refs_insert_dump_subresource_info ids parent ns :
  EDM_DUMP_PROXY_ID ∈ ids → ALTO_DUMP_PROXY_ID ∈ ids →
  grows (refers_to ids) parent (insert_dump_subresource_info parent ns).
Proof.
  intros Hedm Halto. unfold insert_dump_subresource_info. cbn [foldl].
  eapply grows_trans; apply grows_append; by apply refers_to_subresource.
Qed.

Lemma refs_insert_annotation_subresources ids parent record identifier normalized index
    refs ns :
  (∀ i, index < i ≤ index + length refs → make_ref_xml_id normalized i ∈ ids) →
  ensures (grows (refers_to ids) parent)
    (insert_annotation_subresources E parent record identifier normalized index refs ns).
Proof.
  revert parent index. induction refs as [|l_ref refs IH]; intros parent index Hids;
    cbn [insert_annotation_subresources].
  - apply ensures_ret, grows_refl.
  - eapply ensures_bind with (Q := grows (refers_to ids) parent).
    + intros r (description & ->)%insert_annotation_subresource_info_returns.
      apply grows_append, refers_to_subresource, Hids. cbn. lia.
    + intros r Hr. eapply ensures_mono; [intros a; by apply grows_trans|].
      apply IH. intros i Hi. apply Hids. cbn. lia.
Qed.

Lemma annotation_ids_elem (labeled_refs : dict.t (list labeled_ref)) k v i :
  (k, v) ∈ labeled_refs → i < length v → make_ref_xml_id k (S i) ∈ annotation_ids labeled_refs.
Proof.
  intros Hin Hi. unfold annotation_ids. apply list_elem_of_bind. exists (k, v).
  split; [|done]. apply list_elem_of_fmap. exists i. split; [done|].
  apply elem_of_seq. lia.
Qed.

Lemma normalize_identifier_fixed identifier :
  normalize_identifier (normalize_identifier identifier) = normalize_identifier identifier.
Proof.
  unfold normalize_identifier at 2 3.
  destruct (re.search identifier_pattern identifier) as [m|] eqn:Hm.
  - apply search_from_Some in Hm as (n & Hm).
    apply match_at_identifier_pattern in Hm as (g & Hg & _ & Hd).
    unfold group_text. rewrite Hg. change (default [] (Some g)) with g.
    unfold normalize_identifier. by rewrite search_digits; [|rewrite chars_str].
  - unfold normalize_identifier. by rewrite Hm.
Qed.

Lemma refs_insert_subresource_info ids r recs labeled_refs ns :
  EDM_DUMP_PROXY_ID ∈ ids → ALTO_DUMP_PROXY_ID ∈ ids →
  annotation_ids (normalized_keys labeled_refs) ⊆ ids →
  ensures (grows (refers_to ids) r) (insert_subresource_info E r recs labeled_refs ns).
Proof.
  intros Hedm Halto Hids. unfold insert_subresource_info.
  apply ensures_mono with (P := grows (refers_to ids) (insert_dump_subresource_info r ns));
    [intros a; by apply grows_trans, refs_insert_dump_subresource_info|].
  apply ensures_for_grows. intros e record _.
  apply ensures_for_grows. intros e' identifier _.
  apply ensures_bind with (Q := λ normalized, normalized = normalize_identifier identifier).
  { apply ensures_post. exists (normalize_identifier identifier).
    by destruct (normalize_identifier_logged_result identifier). }
  intros normalized ->.
  destruct (dict.get (normalize_identifier identifier) labeled_refs) as [v|] eqn:Hv;
    [|apply ensures_ret, grows_refl].
  apply refs_insert_annotation_subresources. intros [|i] Hi; [lia|].
  apply Hids, (annotation_ids_elem _ _ v); [|lia].
  apply list_elem_of_filter. split; [apply normalize_identifier_fixed|].
  by apply get_elem_of.
Qed.

(** The content of a record: one temporal coverage, the metadata block
    last, and references to the proxies of the record only. *)
Lemma insert_component_content_covers ids r title year recs labeled_refs :
  EDM_DUMP_PROXY_ID ∈ ids → ALTO_DUMP_PROXY_ID ∈ ids →
  annotation_ids (normalized_keys labeled_refs) ⊆ ids →
  ensures (λ r', record_covers E year r r' ∧ grows (refers_to ids) r r')
    (insert_component_content E r title year recs labeled_refs).
Proof.
  intros Hedm Halto Hids. unfold insert_component_content.
  eapply ensures_bind.
  { apply ensures_and;
      [apply grows_insert_title_and_description|apply refs_insert_title_and_description]. }
  cbv beta. intros r0 [Hn0 Hr0].
  eapply ensures_bind.
  { apply ensures_and; apply ensures_post;
      [apply post_insert_languages|apply refs_insert_languages]. }
  cbv beta. intros r1 [Hn1 Hr1].
  eapply ensures_bind with (Q := λ r2, r2 = append (record_temporal_coverage E year) r1).
  { intros r2. apply insert_temporal_coverage_returns. }
  intros r2 ->.
  eapply ensures_bind.
  { apply ensures_and;
      [apply grows_insert_subresource_info|by apply refs_insert_subresource_info]. }
  cbv beta. intros r3 [Hn3 Hr3]. apply ensures_ret. split.
  - pose proof (grows_trans _ _ _ _
                  (grows_trans _ _ _ _ Hn0
                     (grows_trans _ _ _ _
                        (grows_insert_keywords E r0 recs (CMDP_NS_RECORD E))
                        (grows_insert_publisher E _ recs (CMDP_NS_RECORD E))))
                  Hn1) as [Ht1 (before & Hc1 & Hb)].
    pose proof (grows_trans _ _ _ _
                  (grows_trans _ _ _ _
                     (grows_trans _ _ _ _
                        (grows_insert_countries E _ recs (CMDP_NS_RECORD E))
                        (grows_insert_licences E _ recs (CMDP_NS_RECORD E)))
                     Hn3)
                  (grows_insert_related_resources E r3 recs (CMDP_NS_RECORD E)))
      as [Ht2 (after & Hc2 & Ha)].
    split; [cbn; by rewrite Ht2|].
    exists before, after. split; [|done]. cbn. rewrite Hc2. cbn. rewrite Hc1.
    by rewrite <- !app_assoc.
  - eapply grows_trans; [|apply refs_insert_metadata_info].
    eapply grows_trans; [|apply refs_insert_related_resources].
    eapply grows_trans; [|apply Hr3].
    eapply grows_trans; [|apply refs_insert_licences].
    eapply grows_trans; [|apply refs_insert_countries].
    eapply grows_trans; [|apply refs_temporal_coverage].
    eapply grows_trans; [|apply Hr1].
    eapply grows_trans; [|apply refs_insert_publisher].
    eapply grows_trans; [|apply refs_insert_keywords].
    apply Hr0.
Qed.

End components.


(** ** The document and the outcomes of a record-level build *)

Section record_document.
Context (E : env).

Lemma refers_to_mono ids ids' c : ids ⊆ ids' → refers_to ids c → refers_to ids' c.
Proof. intros Hsub Hc r Hr. by apply Hsub, Hc. Qed.

Lemma annotation_ids_normalized_keys (labeled_refs : dict.t (list labeled_ref)) :
  annotation_ids (normalized_keys labeled_refs) ⊆ annotation_ids labeled_refs.
Proof.
  unfold annotation_ids, normalized_keys.
  intros y (kv & Hy & Hkv%list_elem_of_filter)%list_elem_of_bind.
  apply list_elem_of_bind. exists kv. by destruct Hkv.
Qed.

(** The document of a record-level build. *)
Lemma make_cmdi_record_document record_file_name template collection_id title year records
    metadata_dir doc q :
  result (make_cmdi_record E record_file_name template collection_id title year records
            metadata_dir) = Return (Some doc) →
  xpath template (record_components_path E) = [q] →
  ∃ refs,
    result (retrieve_iiif_annotation_refs E records) = Return refs ∧ refs ≠ [] ∧
    xpath doc (record_components_path E) = [q] ∧
    resource_proxies doc
    = resource_proxies template ++ fixed_proxies E collection_id ++ annotation_proxies refs ∧
    record_covers E year (node template q) (node doc q) ∧
    grows (refers_to ([EDM_DUMP_PROXY_ID; ALTO_DUMP_PROXY_ID]
                      ++ annotation_ids (normalized_keys refs)))
      (node template q) (node doc q).
Proof.
  intros (refs & p & q' & cmdi & xq & recs & root & Hrefs & Hne & Hsl & Hp & Hq' & Hacc & Hx
          & Hproxies & Hxq & Htq & Hcq & Hpq & Hlp & Hlq & Hl & Hroot & ->)
           %make_cmdi_record_returns Hq.
  rewrite Hq in Hq'. injection Hq' as <-.
  destruct (insert_component_content_covers E
              ([EDM_DUMP_PROXY_ID; ALTO_DUMP_PROXY_ID]
               ++ annotation_ids (normalized_keys refs))
              xq title year recs refs) with (a := root)
    as [Hcov Hgrows]; [left|right; left|by intros y Hy; do 2 right|done|].
  destruct (filled_document cmdi p q xq root) as (Hx' & Hproxies' & Hnode);
    [by rewrite Hx|done|apply Hcov|done..|].
  exists refs. split; [done|]. split; [done|]. split; [by rewrite Hx', Hx|].
  split; [by rewrite Hproxies'|]. rewrite Hnode. split.
  - destruct Hcov as [Ht (before & after & Hc & Hb & Ha)]. split; [congruence|].
    exists before, after. by rewrite Hc, Hcq.
  - destruct Hgrows as [Ht (new & Hc & Hn)]. split; [congruence|].
    exists new. by rewrite Hc, Hcq.
Qed.

Lemma annotation_proxies_nonempty (refs : dict.t (list labeled_ref)) :
  refs ≠ [] → Forall (λ kv, kv.2 ≠ []) refs → annotation_proxies refs ≠ [].
Proof.
  destruct refs as [|[k [|r v]] rest]; [done| |done].
  intros _ [Hk _]%Forall_cons. done.
Qed.

Lemma normalized_keys_none (records : dict.t record_entry) refs :
  dict.keys refs ⊆ dict.keys records →
  Forall (λ k, normalize_identifier k ≠ k) (dict.keys records) →
  normalized_keys refs = [].
Proof.
  intros Hsub Hall. unfold normalized_keys, dict.t.
  induction refs as [|[k v] refs IH]; [done|].
  rewrite filter_cons. cbn [fst]. rewrite decide_False.
  - apply IH. intros y Hy. apply Hsub. by right.
  - apply (proj1 (Forall_forall _ _) Hall). apply Hsub. left.
Qed.

End record_document.

(** X13: in the document a record-level build returns, the components
    root is the one of the template with more children at the end. Exactly
    one of the new children is a [TemporalCoverage]: the one whose label,
    start year and end year are the year of the record; the last one is the
    [MetadataInfo] block; and every [Subresource] among them refers to the
    id of a resource proxy of the document. *)
Theorem record_components (E : env) record_file_name template collection_id title year
    records metadata_dir doc q :
  result (make_cmdi_record E record_file_name template collection_id title year records
            metadata_dir) = Return (Some doc) →
  xpath template (record_components_path E) = [q] →
  xpath doc (record_components_path E) = [q] ∧
  record_covers E year (node template q) (node doc q) ∧
  grows (refers_to (proxy_ids (resource_proxies doc))) (node template q) (node doc q).
Proof.
  intros Hdoc Hq.
  destruct (make_cmdi_record_document E record_file_name template collection_id title year
              records metadata_dir doc q Hdoc Hq)
    as (refs & _ & _ & Hq' & -> & Hcov & Hgrows).
  split; [done|]. split; [done|].
  eapply grows_mono; [|exact Hgrows]. intros c. apply refers_to_mono.
  rewrite !proxy_ids_app, proxy_ids_annotation_proxies.
  intros y [Hy|Hy]%elem_of_app.
  - apply elem_of_app. right. apply elem_of_app. left. cbn. by right.
  - apply elem_of_app. right. apply elem_of_app. right.
    by apply annotation_ids_normalized_keys.
Qed.

Lemma record_components_witness :
  ∃ doc,
    result (make_cmdi_record example_env "record.xml" (record_template example_header)
              "9200396" "Example Gazette" "1920" example_records "/metadata")
    = Return (Some doc) ∧
    record_covers example_env "1920" (node (record_template example_header) [2; 0])
      (node doc [2; 0]).
Proof.
  eexists. split; [vm_compute; reflexivity|].
  match goal with
  | |- record_covers _ _ _ (node ?d _) =>
      exact (proj1 (proj2 (record_components example_env "record.xml"
                             (record_template example_header) "9200396" "Example Gazette"
                             "1920" example_records "/metadata" d [2; 0] eq_refl eq_refl)))
  end.
Defined.


(** ** The outcomes of a collection-level build *)

Section collection_outcomes.
Context (E : env).

Lemma refs_collection_insert_subresource_info ids parent title
    (year_files : gmap string string) ns :
  EDM_DUMP_PROXY_ID ∈ ids → ALTO_DUMP_PROXY_ID ∈ ids →
  xml_id <$> sorted year_files ⊆ ids →
  ensures (grows (refers_to ids) parent)
    (collection_insert_subresource_info parent title year_files ns).
Proof.
  intros Hedm Halto Hids. unfold collection_insert_subresource_info.
  apply ensures_mono
    with (P := grows (refers_to ids) (insert_dump_subresource_info parent ns));
    [intros a; by apply grows_trans, refs_insert_dump_subresource_info|].
  apply ensures_for_grows. intros e year Hyear.
  eapply ensures_bind; [by apply ensures_post, (post_item (λ _, True))|]. intros _ _.
  eapply ensures_bind; [apply ensures_checked|]. intros label _.
  eapply ensures_bind; [apply ensures_checked|]. intros coverage_label _.
  apply ensures_ret, grows_append, refers_to_subresource, Hids.
  apply list_elem_of_fmap. by exists year.
Qed.

Lemma refs_collection_insert_component_content ids r title year_files recs :
  EDM_DUMP_PROXY_ID ∈ ids → ALTO_DUMP_PROXY_ID ∈ ids →
  xml_id <$> sorted year_files ⊆ ids →
  ∀ root,
    result (collection_insert_component_content E r title (sorted year_files) year_files
              recs) = Return root →
    grows (refers_to ids) r root ∧ last (children root) = Some (metadata_info E).
Proof.
  intros Hedm Halto Hids.
  change (ensures (λ root, grows (refers_to ids) r root
                           ∧ last (children root) = Some (metadata_info E))
            (collection_insert_component_content E r title (sorted year_files) year_files
               recs)).
  unfold collection_insert_component_content.
  eapply ensures_bind with (Q := grows (refers_to ids) r).
  { unfold collection_insert_title_and_description.
    eapply ensures_bind; [apply ensures_checked|]. intros title_text _.
    eapply ensures_bind; [apply ensures_checked|]. intros description_text _.
    apply ensures_ret.
    repeat (eapply grows_trans; [|apply grows_append, refers_to_other; by cbn]).
    apply grows_refl. }
  intros r0 H0.
  eapply ensures_bind; [apply ensures_post, (refs_insert_languages E ids)|]. intros r1 H1.
  unfold first_item, last_item.
  destruct (sorted year_files !! 0) as [lo|]; [|by intros a; rewrite result_bind].
  rewrite bind_ret.
  destruct (last (sorted year_files)) as [hi|]; [|by intros a; rewrite result_bind].
  rewrite bind_ret.
  eapply ensures_bind with (Q := λ r2, r2 = append (temporal_coverage E lo hi) r1).
  { intros r2. apply collection_insert_temporal_coverage_returns. }
  intros r2 ->.
  eapply ensures_bind; [by apply (refs_collection_insert_subresource_info ids)|].
  intros r3 H3. apply ensures_ret. split; [|apply last_snoc].
  eapply grows_trans; [|apply refs_insert_metadata_info].
  eapply grows_trans; [|apply H3].
  eapply grows_trans; [|apply refs_insert_licences].
  eapply grows_trans; [|apply refs_insert_countries].
  eapply grows_trans; [|apply grows_append, refers_to_other; by cbn].
  eapply grows_trans; [|apply H1].
  eapply grows_trans; [|apply refs_insert_publisher].
  eapply grows_trans; [|apply refs_insert_keywords].
  apply H0.
Qed.

Lemma proxy_ids_year_proxies collection_id year_files :
  proxy_ids (year_proxies E collection_id year_files) = xml_id <$> sorted year_files.
Proof.
  unfold year_proxies. induction (sorted year_files) as [|y l IH]; [done|].
  cbn. by rewrite <- IH.
Qed.

End collection_outcomes.

(** X15: the outcomes of a collection-level build, read from the outcome
    back to its cause. When it returns no document the template has not
    exactly one proxy list or not exactly one components root, and the
    error line is all it has logged. When it returns a document the
    template has both, the metadata files could be read and there is at
    least one year. An [IndexError] it raises is the one of the missing self
    link or, on a template of the expected shape with readable files, the
    one of the empty list of years; an [OSError] it raises comes with a
    metadata file that cannot be read. Anything else is raised only when
    the self link placeholder is where the creation date is, and not when
    lxml accepts the texts the build is given. *)
Theorem make_collection_record_outcome (E : env) file_name template collection_id title
    (year_files : gmap string string) records metadata_dir :
  match result (make_collection_record E file_name template collection_id title year_files
                  records metadata_dir) with
  | Return None =>
      selflink_with_creation_date template ∧
      (length (xpath template proxy_list_path) ≠ 1
       ∨ length (xpath template (collection_components_path E)) ≠ 1) ∧
      logs (make_collection_record E file_name template collection_id title year_files
              records metadata_dir) = [shape_error]
  | Return (Some doc) =>
      selflink_with_creation_date template ∧
      length (xpath template proxy_list_path) = 1 ∧
      length (xpath template (collection_components_path E)) = 1 ∧
      files_readable E records metadata_dir ∧ year_files ≠ ∅
  | Raise (IndexError subscript) =>
      (subscript = "selflink_header[0]" ∧ ¬ selflink_with_creation_date template)
      ∨ (subscript = "sorted_years[0]" ∧ selflink_with_creation_date template ∧
         length (xpath template proxy_list_path) = 1 ∧
         length (xpath template (collection_components_path E)) = 1 ∧
         files_readable E records metadata_dir ∧ year_files = ∅)
  | Raise (OSError path) =>
      selflink_with_creation_date template ∧
      length (xpath template proxy_list_path) = 1 ∧
      length (xpath template (collection_components_path E)) = 1 ∧
      ¬ files_readable E records metadata_dir
  | Raise _ =>
      selflink_with_creation_date template ∧
      ¬ (texts_accepted
           [CMDI_RECORDS_BASE_URL E; COLLECTION_DISPLAY_NAME E; LANDING_PAGE_URL E;
            collection_id; file_name; title]
         ∧ map_Forall (λ year year_file, texts_accepted [year; year_file]) year_files)
  end.
Proof.
  pose proof (make_collection_record_shape_log E file_name template collection_id title
                year_files records metadata_dir) as Hlog.
  pose proof (collection_texts_accepted E file_name collection_id title year_files)
    as Htexts.
  rewrite make_collection_record_result in Hlog |- *.
  destruct (result (set_metadata_headers E template collection_id file_name))
    as [d|e] eqn:Hh.
  2:{ destruct (set_metadata_headers_raises_only E _ _ _ _ Hh) as [[-> ?]|[-> Hsl]];
        [by left|].
      split; [done|]. intros [Ht Hyf]. destruct (Htexts Ht Hyf) as (Hheaders & _).
      by rewrite (set_metadata_headers_accepted E template _ _ Hsl Hheaders) in Hh. }
  apply set_metadata_headers_returns in Hh as [Hsl _].
  destruct (xpath template proxy_list_path) as [|p [|??]] eqn:Hp;
    [split; [done|]; split; [by left|by apply Hlog]|
    |split; [done|]; split; [by left|by apply Hlog]].
  destruct (forallb accepted _) eqn:Hacc.
  2:{ split; [done|]. intros [Ht Hyf]. destruct (Htexts Ht Hyf) as (_ & Hproxies & _).
      congruence. }
  destruct (xpath template (collection_components_path E)) as [|q [|??]] eqn:Hq;
    [split; [done|]; split; [by right|by apply Hlog]|
    |split; [done|]; split; [by right|by apply Hlog]].
  destruct (result (load_emd_records E records metadata_dir)) as [recs|e] eqn:Hl.
  2:{ by apply load_emd_records_raises in Hl as [? [path ->]]. }
  apply load_emd_records_returns in Hl.
  destruct (collection_insert_component_content_cases E
              (node (with_proxies
                       (fixed_proxies E collection_id
                        ++ year_proxies E collection_id year_files)
                       p (with_headers E collection_id file_name template)) q)
              title year_files recs)
    as [(Hrefused & ->)|[(_ & Hnil & ->)|(_ & Hne & root & ->)]].
  - split; [done|]. intros [Ht Hyf]. destruct (Htexts Ht Hyf) as (_ & _ & Hcontent).
    congruence.
  - right. repeat split; try done.
    destruct (decide (year_files = ∅)) as [|Hne]; [done|].
    by destruct (sorted_nonempty _ Hne).
  - repeat split; try done. intros ->. by rewrite sorted_empty in Hne.
Qed.

(** X16: in the document a collection-level build returns, the
    components root is the one of the template with more children at the
    end; the last of them is the [MetadataInfo] block, and every
    [Subresource] among them refers to the id of a resource proxy of the
    document. *)
Theorem collection_components (E : env) file_name template collection_id title
    (year_files : gmap string string) records metadata_dir doc q :
  result (make_collection_record E file_name template collection_id title year_files
            records metadata_dir) = Return (Some doc) →
  xpath template (collection_components_path E) = [q] →
  xpath doc (collection_components_path E) = [q] ∧
  grows (refers_to (proxy_ids (resource_proxies doc))) (node template q) (node doc q) ∧
  last (children (node doc q)) = Some (metadata_info E).
Proof.
  intros (p & q' & cmdi & xq & recs & root & Hsl & Hp & Hq' & Hacc & Hx & Hproxies & Hxq
          & Htq & Hcq & Hpq & Hlp & Hlq & Hl & Hroot & ->)%make_collection_record_returns Hq.
  rewrite Hq in Hq'. injection Hq' as <-.
  set (ids := proxy_ids (resource_proxies cmdi)).
  assert (EDM_DUMP_PROXY_ID ∈ ids ∧ ALTO_DUMP_PROXY_ID ∈ ids
          ∧ xml_id <$> sorted year_files ⊆ ids) as (Hedm & Halto & Hids).
  { unfold ids. rewrite Hproxies, !proxy_ids_app, proxy_ids_year_proxies.
    split; [|split].
    - apply elem_of_app. right. apply elem_of_app. left. cbn. right. left.
    - apply elem_of_app. right. apply elem_of_app. left. cbn. do 2 right. left.
    - intros y Hy. apply elem_of_app. right. apply elem_of_app. by right. }
  destruct (refs_collection_insert_component_content E ids xq title year_files recs
              Hedm Halto Hids root Hroot) as [Hgrows Hlast].
  destruct (filled_document cmdi p q xq root) as (Hx' & Hproxies' & Hnode);
    [by rewrite Hx|done|apply Hgrows|done..|].
  rewrite Hproxies', Hnode. fold ids.
  split; [by rewrite Hx', Hx|]. split; [|done].
  destruct Hgrows as [Ht (new & Hc & Hn)]. split; [congruence|].
  exists new. by rewrite Hc, Hcq.
Qed.

Lemma collection_components_witness :
  ∃ doc,
    result (make_collection_record example_env "collection.xml"
              (collection_template example_header) "9200396" "Example Gazette" example_years
              example_records "/metadata") = Return (Some doc) ∧
    last (children (node doc [2; 0])) = Some (metadata_info example_env).
Proof.
  eexists. split; [vm_compute; reflexivity|].
  match goal with
  | |- last (children (node ?d _)) = _ =>
      exact (proj2 (proj2 (collection_components example_env "collection.xml"
                             (collection_template example_header) "9200396"
                             "Example Gazette" example_years example_records "/metadata"
                             d [2; 0] eq_refl eq_refl)))
  end.
Defined.

(** X17: the [Subresource] components of a record are made from the
    normalized identifiers of the metadata, and the proxies from the keys
    of the resolved-references map: in the document a record-level build
    returns, every new [Subresource] refers to one of the two dumps or to a
    proxy of a key that is in normalized form. When no identifier of the
    records map is in normalized form the document has annotation proxies,
    and no [Subresource] refers to any of them. *)
Theorem record_subresources_normalized (E : env) record_file_name template collection_id
    title year records metadata_dir doc q :
  result (make_cmdi_record E record_file_name template collection_id title year records
            metadata_dir) = Return (Some doc) →
  xpath template (record_components_path E) = [q] →
  ∃ refs,
    result (retrieve_iiif_annotation_refs E records) = Return refs ∧
    resource_proxies doc
    = resource_proxies template ++ fixed_proxies E collection_id ++ annotation_proxies refs ∧
    annotation_proxies refs ≠ [] ∧
    grows (refers_to ([EDM_DUMP_PROXY_ID; ALTO_DUMP_PROXY_ID]
                      ++ annotation_ids (normalized_keys refs)))
      (node template q) (node doc q) ∧
    (Forall (λ k, normalize_identifier k ≠ k) (dict.keys records) →
     grows (refers_to [EDM_DUMP_PROXY_ID; ALTO_DUMP_PROXY_ID])
       (node template q) (node doc q)).
Proof.
  intros Hdoc Hq.
  destruct (make_cmdi_record_document E record_file_name template collection_id title year
              records metadata_dir doc q Hdoc Hq)
    as (refs & Hrefs & Hne & _ & Hproxies & _ & Hgrows).
  exists refs. split; [done|]. split; [done|]. split; [|split; [done|]].
  - apply annotation_proxies_nonempty; [done|].
    by apply (post_result _ _ _ (retrieve_iiif_annotation_refs_values E records)).
  - intros Hall.
    rewrite (normalized_keys_none records refs) in Hgrows; [by rewrite app_nil_r in Hgrows| |done].
    by apply (post_result _ _ _ (post_retrieve_iiif_annotation_refs E records)).
Qed.

Lemma record_subresources_normalized_witness :
  ∃ doc,
    result (make_cmdi_record example_env "record.xml" (record_template example_header)
              "9200396" "Example Gazette" "1920" url_keyed_records "/metadata")
    = Return (Some doc) ∧
    grows (refers_to [EDM_DUMP_PROXY_ID; ALTO_DUMP_PROXY_ID])
      (node (record_template example_header) [2; 0]) (node doc [2; 0]).
Proof.
  eexists. split; [vm_compute; reflexivity|].
  match goal with
  | |- grows _ _ (node ?d _) =>
      destruct (record_subresources_normalized example_env "record.xml"
                  (record_template example_header) "9200396" "Example Gazette" "1920"
                  url_keyed_records "/metadata" d [2; 0] eq_refl eq_refl)
        as (refs & _ & _ & _ & _ & Hdumps)
  end.
  apply Hdumps. apply Forall_cons. split; [by vm_compute|constructor].
Defined.

(** X18: a collection-level build does not look at the manifest URLs of
    the records map: with the manifest URLs taken out of every entry,
    [load_emd_records] and [make_collection_record] write the same log lines
    and have the same outcome. *)
Theorem make_collection_record_without_manifests (E : env) file_name template collection_id
    title (year_files : gmap string string) records metadata_dir :
  load_emd_records E (without_manifest_urls records) metadata_dir
  = load_emd_records E records metadata_dir ∧
  make_collection_record E file_name template collection_id title year_files
    (without_manifest_urls records) metadata_dir
  = make_collection_record E file_name template collection_id title year_files records
      metadata_dir.
Proof.
  assert (load_emd_records E (without_manifest_urls records) metadata_dir
          = load_emd_records E records metadata_dir) as Hload.
  { induction records as [|[identifier entry] records IH] using rev_ind; [done|].
    unfold without_manifest_urls in *. rewrite fmap_app. cbn [fmap list_fmap prod_map fst snd].
    by rewrite !load_emd_records_snoc, IH. }
  split; [done|]. unfold make_collection_record. by rewrite Hload.
Qed.


(** ** Files and directories *)

(** X19: the file name of a full-text identifier is the identifier with
    every slash replaced and [.xml] at its end, so it has no slash and names
    a file of the directory itself. [filter_fulltext_ids] keeps, in their
    order, exactly the identifiers whose file is listed, and filtering again
    changes nothing. The metadata directory and the full-text directory of
    a collection are different. *)
Theorem fulltext_file_names (identifier : string) (ids available_files : list string)
    (basedir collection_id : string) :
  (chars (id_to_fulltext_file identifier)
   = chars (id_to_filename identifier) ++ chars ".xml" ∧
   length (chars (id_to_filename identifier)) = length (chars identifier) ∧
   ("/"%char ∉ chars (id_to_fulltext_file identifier))) ∧
  (sublist (filter_fulltext_ids ids available_files) ids ∧
   (∀ i, i ∈ filter_fulltext_ids ids available_files
         ↔ i ∈ ids ∧ id_to_fulltext_file i ∈ available_files) ∧
   filter_fulltext_ids (filter_fulltext_ids ids available_files) available_files
   = filter_fulltext_ids ids available_files) ∧
  get_metadata_dir basedir collection_id ≠ get_fulltext_dir basedir collection_id.
Proof.
  split; [|split].
  - unfold id_to_fulltext_file. rewrite chars_app. split; [done|].
    unfold id_to_filename. rewrite chars_str, length_fmap. split; [done|].
    intros [Hin|Hin]%elem_of_app.
    + apply list_elem_of_fmap in Hin as (c & Hc & _).
      by destruct (Ascii.eqb_spec c "/").
    + by vm_compute in Hin; set_unfold in Hin; intuition discriminate.
  - unfold filter_fulltext_ids. split; [apply sublist_filter|]. split.
    + intros i. rewrite list_elem_of_filter. tauto.
    + apply list_filter_filter_l. tauto.
  - unfold get_metadata_dir, get_fulltext_dir. intros H.
    apply (f_equal chars) in H. rewrite !chars_app in H.
    do 3 apply app_inv_head in H. discriminate.
Qed.

(** ** Languages *)

Section languages.
Context (E : env).

Lemma create_language_component_appends parent code ns :
  ∃ l c,
    create_language_component E parent code ns = (l, Return (append c parent)) ∧
    tag c = QName ns "Language" ∧
    (∃ n rest, children c = leaf (QName ns "name") n :: rest ∧ (rest = [] → n = code)) ∧
    length l ≤ 1 ∧ Forall (λ r : log_record, r.1 = WARNING) l.
Proof.
  unfold create_language_component.
  repeat case_match; simplify_eq; cbn;
    (eexists _, _; split; [done|]; split; [done|]; split; [by eexists _, _|];
     split; [cbn; lia|by repeat constructor]).
Qed.

Lemma for_create_language_component codes parent ns :
  ∃ l new,
    for_ codes (λ parent code, create_language_component E parent code ns) parent
    = (l, Return (extend new parent)) ∧
    Forall2
      (λ code c,
         tag c = QName ns "Language" ∧
         ∃ n rest, children c = leaf (QName ns "name") n :: rest ∧ (rest = [] → n = code))
      codes new ∧
    length l ≤ length codes ∧ Forall (λ r : log_record, r.1 = WARNING) l.
Proof.
  revert parent. induction codes as [|code codes IH]; intros parent.
  { exists [], []. rewrite extend_nil. by repeat split; constructor. }
  destruct (create_language_component_appends parent code ns)
    as (l1 & c & Hc & Htag & Hchildren & Hlen1 & Hw1).
  destruct (IH (append c parent)) as (l2 & new & Hfor & Hnew & Hlen2 & Hw2).
  exists (l1 ++ l2), (c :: new). cbn [for_]. rewrite Hc. cbn [bind]. rewrite Hfor.
  split.
  { f_equal. f_equal. unfold extend, append, set_children. cbn.
    by rewrite <- app_assoc. }
  split; [by constructor|]. split; [rewrite length_app; cbn; lia|by apply Forall_app].
Qed.

End languages.

(** X20: [insert_languages] never raises. It appends one [Language]
    component for every distinct language code of the documents, in their
    order; the first child of the component is its name, and a component
    without a further child is named by the code itself. It logs warnings
    only, at most one for a code. *)
Theorem insert_languages_components (E : env) (parent : element) (recs : list element)
    (ns : string) :
  ∃ r new,
    result (insert_languages E parent recs ns) = Return r ∧
    tag r = tag parent ∧ children r = children parent ++ new ∧
    Forall2
      (λ code c,
         tag c = QName ns "Language" ∧
         ∃ n rest, children c = leaf (QName ns "name") n :: rest ∧ (rest = [] → n = code))
      (get_unique_xpath_values E recs "/rdf:RDF/ore:Proxy/dc:language/text()") new ∧
    length (logs (insert_languages E parent recs ns))
    ≤ length (get_unique_xpath_values E recs "/rdf:RDF/ore:Proxy/dc:language/text()") ∧
    Forall (λ r : log_record, r.1 = WARNING) (logs (insert_languages E parent recs ns)).
Proof.
  unfold insert_languages.
  destruct (for_create_language_component E
              (get_unique_xpath_values E recs "/rdf:RDF/ore:Proxy/dc:language/text()")
              parent ns) as (l & new & -> & Hnew & Hlen & Hw).
  by exists (extend new parent), new.
Qed.

(** ** Titles *)

(** The greedy star stops at the last place where the rest of the pattern
    matches. *)
Lemma star_set_last {A} p (k : nat → list ascii → option A) i s a :
  re.star_set p k i s = Some a →
  ∃ n, Forall (λ c, p c = true) (take n s) ∧ k (i + n) (drop n s) = Some a ∧
       ∀ n', n < n' ≤ length s → Forall (λ c, p c = true) (take n' s) →
             k (i + n') (drop n' s) = None.
Proof.
  revert i. induction s as [|c s IH]; intros i H; cbn in H.
  - exists 0. rewrite Nat.add_0_r. split; [constructor|]. split; [done|].
    cbn. intros n' ?. lia.
  - destruct (p c) eqn:Hc.
    + destruct (re.star_set p k (S i) s) as [b|] eqn:Hs.
      * injection H as ->. destruct (IH _ Hs) as (n & Hn & Hk & Hmax).
        exists (S n). cbn. split; [by constructor|].
        rewrite <- Nat.add_succ_comm. split; [done|].
        intros [|n'] Hlt Hall; [lia|]. cbn in *.
        apply Forall_cons in Hall as [_ Hall].
        rewrite <- Nat.add_succ_comm. apply Hmax; [lia|done].
      * exists 0. rewrite Nat.add_0_r. split; [constructor|]. split; [done|].
        intros [|n'] Hlt Hall; [lia|]. cbn in *.
        apply Forall_cons in Hall as [_ Hall].
        destruct (k (i + S n') (drop n' s)) as [b|] eqn:Hk; [|done].
        destruct (star_set_complete p k (S i) s n') as [b' Hb']; [done|lia| |congruence].
        by rewrite Nat.add_succ_comm, Hk.
    + exists 0. rewrite Nat.add_0_r. split; [constructor|]. split; [done|].
      intros [|n'] Hlt Hall; [lia|]. cbn in Hall.
      apply Forall_cons in Hall as [Hc' _]. congruence.
Qed.

Lemma search_from_title_pattern_later i s : re.search_from title_pattern (S i) s = None.
Proof. revert i. induction s as [|c s IH]; intros i; cbn; [done|apply IH]. Qed.

Lemma search_title_pattern u :
  re.search title_pattern (str u) = re.match_at title_pattern 0 u.
Proof.
  unfold re.search. rewrite chars_str. destruct u as [|c u]; cbn [re.search_from].
  - by destruct (re.match_at title_pattern 0 []).
  - destruct (re.match_at title_pattern 0 (c :: u)); [done|].
    apply search_from_title_pattern_later.
Qed.

Lemma match_at_title_pattern u :
  match re.match_at title_pattern 0 u with
  | Some m =>
      re.m_start m = 0 ∧
      ∃ n, re.m_end m = S n ∧ title_text u n ∧ ∀ n', n < n' → ¬ title_text u n'
  | None => ∀ n, ¬ title_text u n
  end.
Proof.
  unfold re.match_at, title_pattern. cbn.
  set (k := λ (i : nat) (s' : list ascii), _).
  assert (∀ n, k n (drop n u) = None ∨
               ∃ c, u !! n = Some c ∧ set_title_end c = true ∧
                    k n (drop n u) = Some (re.MObj 0 (S n) None)) as Hk.
  { intros n. unfold k.
    assert (u !! n = drop n u !! 0) as -> by (by rewrite lookup_drop, Nat.add_0_r).
    destruct (drop n u) as [|c rest]; cbn; [by left|].
    destruct (set_title_end c) eqn:Hc; [right|by left]. by exists c. }
  assert (∀ n, title_text u n → n < length u ∧ is_Some (k n (drop n u))) as Ht.
  { intros n [_ (c & Hc & Hend)]. split; [by eapply lookup_lt_Some|].
    unfold k.
    assert (u !! n = drop n u !! 0) as Hu by (by rewrite lookup_drop, Nat.add_0_r).
    rewrite Hu in Hc. destruct (drop n u) as [|c' rest]; cbn in *; [done|].
    injection Hc as ->. by rewrite Hend. }
  destruct (re.star_set set_title k 0 u) as [m|] eqn:Hm.
  - apply star_set_last in Hm as (n & Hall & Hkn & Hmax). cbn in Hkn, Hmax.
    destruct (Hk n) as [Hnone|(c & Hc & Hend & Hsome)]; [congruence|].
    rewrite Hsome in Hkn. injection Hkn as <-. cbn. split; [done|].
    exists n. split; [done|]. split; [split; [done|by exists c]|].
    intros n' Hlt Ht'. destruct (Ht n' Ht') as [Hlen [b Hb]].
    rewrite Hmax in Hb; [done|lia|apply Ht'].
  - intros n Hn. destruct (Ht n Hn) as [Hlen Hsome].
    destruct (star_set_complete set_title k 0 u n) as [b Hb];
      [apply Hn|lia|done|congruence].
Qed.

(** X21: [normalize_title] matches the transliteration of the title and
    cuts the title itself at the offsets of the match. What it returns is
    the title up to the position of the last character of the
    transliteration that is a title character other than white space and
    has only title characters before it; when the transliteration has no
    such character it returns nothing. *)
Theorem normalize_title_offsets {C : Type} (unidecode : list C → string) (title : list C) :
  match normalize_title unidecode title with
  | Some t =>
      ∃ n, t = take (S n) title ∧ title_text (chars (unidecode title)) n ∧
           ∀ n', n < n' → ¬ title_text (chars (unidecode title)) n'
  | None => ∀ n, ¬ title_text (chars (unidecode title)) n
  end.
Proof.
  unfold normalize_title.
  assert (re.search title_pattern (unidecode title)
          = re.match_at title_pattern 0 (chars (unidecode title))) as ->.
  { rewrite <- search_title_pattern. by rewrite str_chars. }
  pose proof (match_at_title_pattern (chars (unidecode title))) as H.
  destruct (re.match_at title_pattern 0 (chars (unidecode title))) as [m|]; [|done].
  destruct H as (-> & n & -> & Hn & Hmax). exists n. by rewrite Nat.sub_0_r, drop_0.
Qed.


